(** * SceneManager: scene preparation and rendering pipeline

    A shallow embedding of [Source/SceneManager.cpp].  The class state, the
    OpenGL texture state it drives and the calls it makes on its two
    collaborators (the shader manager and the shape meshes) are threaded
    through a small state-and-failure monad; [Undefined] stands for the
    behaviours C++ leaves undefined (reading or writing past the end of
    [m_textureIDs], calling through a null [m_pShaderManager]).

    Numbers.  [int] and [GLuint] values are integers in [Z]; the one
    conversion the code performs between them ([FindTextureID] returns a
    [GLuint] as an [int]) has its wrap-around written out.  [float] values
    are idealised as real numbers: no theorem below depends on rounding. *)

From Stdlib Require Import Reals Lra.
From stdpp Require Import base list gmap strings.

Local Open Scope Z_scope.

(** ** GLM: vectors, matrices and the three transform builders

    GLM is a third-party header library; the definitions below follow its
    column-major [mat4] and the formulas of [glm::scale], [glm::rotate] and
    [glm::translate] applied to the identity matrix. *)

Module glm.
Local Open Scope R_scope.

Record vec2 := Vec2 { x2 : R; y2 : R }.
Record vec3 := Vec3 { x3 : R; y3 : R; z3 : R }.
Record vec4 := Vec4 { x4 : R; y4 : R; z4 : R; w4 : R }.

(** A matrix is four columns, as in GLM: [m[i]] is column [i]. *)
Record mat4 := Mat4 { col0 : vec4; col1 : vec4; col2 : vec4; col3 : vec4 }.

Definition vadd (a b : vec4) : vec4 :=
  Vec4 (x4 a + x4 b) (y4 a + y4 b) (z4 a + z4 b) (w4 a + w4 b).

Definition vscale (a : vec4) (k : R) : vec4 :=
  Vec4 (x4 a * k) (y4 a * k) (z4 a * k) (w4 a * k).

(** [mat4(1.0f)] *)
Definition identity : mat4 :=
  Mat4 (Vec4 1 0 0 0) (Vec4 0 1 0 0) (Vec4 0 0 1 0) (Vec4 0 0 0 1).

(** [operator*(mat4, vec4)] *)
Definition mulv (m : mat4) (v : vec4) : vec4 :=
  vadd (vadd (vadd (vscale (col0 m) (x4 v)) (vscale (col1 m) (y4 v)))
             (vscale (col2 m) (z4 v)))
       (vscale (col3 m) (w4 v)).

(** [operator*(mat4, mat4)]: column [i] of the product is [m1] applied to
    column [i] of [m2]. *)
Definition mul (m1 m2 : mat4) : mat4 :=
  Mat4 (mulv m1 (col0 m2)) (mulv m1 (col1 m2))
       (mulv m1 (col2 m2)) (mulv m1 (col3 m2)).

(** [glm::radians] *)
Definition radians (degrees : R) : R := degrees * (PI / 180).

(** [glm::scale(v)] = [scale(mat4(1), v)] *)
Definition scale (v : vec3) : mat4 :=
  let m := identity in
  Mat4 (vscale (col0 m) (x3 v)) (vscale (col1 m) (y3 v))
       (vscale (col2 m) (z3 v)) (col3 m).

(** [glm::translate(v)] = [translate(mat4(1), v)] *)
Definition translate (v : vec3) : mat4 :=
  let m := identity in
  Mat4 (col0 m) (col1 m) (col2 m)
       (vadd (vadd (vadd (vscale (col0 m) (x3 v)) (vscale (col1 m) (y3 v)))
                   (vscale (col2 m) (z3 v)))
             (col3 m)).

Definition normalize (v : vec3) : vec3 :=
  let n := sqrt (x3 v * x3 v + y3 v * y3 v + z3 v * z3 v) in
  Vec3 (x3 v / n) (y3 v / n) (z3 v / n).

(** [glm::rotate(angle, v)] = [rotate(mat4(1), angle, v)] *)
Definition rotate (angle : R) (v : vec3) : mat4 :=
  let m := identity in
  let c := cos angle in
  let s := sin angle in
  let axis := normalize v in
  let temp := Vec3 ((1 - c) * x3 axis) ((1 - c) * y3 axis) ((1 - c) * z3 axis) in
  let r00 := c + x3 temp * x3 axis in
  let r01 := x3 temp * y3 axis + s * z3 axis in
  let r02 := x3 temp * z3 axis - s * y3 axis in
  let r10 := y3 temp * x3 axis - s * z3 axis in
  let r11 := c + y3 temp * y3 axis in
  let r12 := y3 temp * z3 axis + s * x3 axis in
  let r20 := z3 temp * x3 axis + s * y3 axis in
  let r21 := z3 temp * y3 axis - s * x3 axis in
  let r22 := c + z3 temp * z3 axis in
  Mat4 (vadd (vadd (vscale (col0 m) r00) (vscale (col1 m) r01)) (vscale (col2 m) r02))
       (vadd (vadd (vscale (col0 m) r10) (vscale (col1 m) r11)) (vscale (col2 m) r12))
       (vadd (vadd (vscale (col0 m) r20) (vscale (col1 m) r21)) (vscale (col2 m) r22))
       (col3 m).

End glm.

Declare Scope mat_scope.
Delimit Scope mat_scope with mat.
Infix "*" := glm.mul : mat_scope.

(** ** Data model *)

(** A variable that was declared but not (yet) assigned holds no definite
    value.  Copying such a value around is modelled; it stays indeterminate. *)
Inductive cell (A : Type) : Type :=
| Indeterminate
| Holds (a : A).
Arguments Indeterminate {A}.
Arguments Holds {A} a.

(** Modelled from the spec: [SceneManager.h] is not among the sources; the
    texture entry is the spec's [TextureEntry { id, tag }].  [ID] is a
    [GLuint] ([DestroyGLTextures] passes its address to [glGenTextures]). *)
Record TEXTURE_INFO := { ID : Z; tag : string }.

(** Modelled from the spec: [SceneManager.h] is not among the sources; the
    material is the spec's [MaterialPreset].  The numeric members have no
    initialiser, the tag (member [tag], here [mtag]) is a [std::string] and
    starts empty. *)
Record OBJECT_MATERIAL := {
  ambientColor : cell glm.vec3;
  ambientStrength : cell R;
  diffuseColor : cell glm.vec3;
  specularColor : cell glm.vec3;
  shininess : cell R;
  mtag : string
}.

(** [OBJECT_MATERIAL m;] *)
Definition OBJECT_MATERIAL_default : OBJECT_MATERIAL :=
  {| ambientColor := Indeterminate; ambientStrength := Indeterminate;
     diffuseColor := Indeterminate; specularColor := Indeterminate;
     shininess := Indeterminate; mtag := EmptyString |}.

Definition set_ambientColor (v : cell glm.vec3) (m : OBJECT_MATERIAL) :=
  {| ambientColor := v; ambientStrength := ambientStrength m;
     diffuseColor := diffuseColor m; specularColor := specularColor m;
     shininess := shininess m; mtag := mtag m |}.
Definition set_ambientStrength (v : cell R) (m : OBJECT_MATERIAL) :=
  {| ambientColor := ambientColor m; ambientStrength := v;
     diffuseColor := diffuseColor m; specularColor := specularColor m;
     shininess := shininess m; mtag := mtag m |}.
Definition set_diffuseColor (v : cell glm.vec3) (m : OBJECT_MATERIAL) :=
  {| ambientColor := ambientColor m; ambientStrength := ambientStrength m;
     diffuseColor := v; specularColor := specularColor m;
     shininess := shininess m; mtag := mtag m |}.
Definition set_specularColor (v : cell glm.vec3) (m : OBJECT_MATERIAL) :=
  {| ambientColor := ambientColor m; ambientStrength := ambientStrength m;
     diffuseColor := diffuseColor m; specularColor := v;
     shininess := shininess m; mtag := mtag m |}.
Definition set_shininess (v : cell R) (m : OBJECT_MATERIAL) :=
  {| ambientColor := ambientColor m; ambientStrength := ambientStrength m;
     diffuseColor := diffuseColor m; specularColor := specularColor m;
     shininess := v; mtag := mtag m |}.
Definition set_mtag (v : string) (m : OBJECT_MATERIAL) :=
  {| ambientColor := ambientColor m; ambientStrength := ambientStrength m;
     diffuseColor := diffuseColor m; specularColor := specularColor m;
     shininess := shininess m; mtag := v |}.

(** Modelled from the spec: the declared length of [m_textureIDs]
    ([SceneManager.h] is not among the sources).  The comments of
    [BindGLTextures] and [LoadSceneTextures] give the same sixteen. *)
Definition texture_capacity : nat := 16.

(** *** OpenGL texture state *)

Inductive GLenum :=
| GL_REPEAT | GL_LINEAR | GL_NEAREST_MIPMAP_LINEAR
| GL_RGB | GL_RGB8 | GL_RGBA | GL_RGBA8.

(** What [stbi_load] hands back: the decoded raster and its shape. *)
Record Image := {
  img_width : Z; img_height : Z; img_channels : Z; img_data : list Z
}.

Record TexImage := {
  internalformat : GLenum; tex_width : Z; tex_height : Z;
  format : GLenum; pixels : list Z
}.

Record GLTexture := {
  wrap_s : GLenum; wrap_t : GLenum;
  min_filter : GLenum; mag_filter : GLenum;
  level0 : option TexImage;
  mipmapped : bool
}.

(** A texture object as OpenGL creates it on first bind. *)
Definition GLTexture_new : GLTexture :=
  {| wrap_s := GL_REPEAT; wrap_t := GL_REPEAT;
     min_filter := GL_NEAREST_MIPMAP_LINEAR; mag_filter := GL_LINEAR;
     level0 := None; mipmapped := false |}.

Inductive TexParam := GL_TEXTURE_WRAP_S | GL_TEXTURE_WRAP_T
                    | GL_TEXTURE_MIN_FILTER | GL_TEXTURE_MAG_FILTER.

Definition set_param (p : TexParam) (v : GLenum) (t : GLTexture) : GLTexture :=
  match p with
  | GL_TEXTURE_WRAP_S =>
      {| wrap_s := v; wrap_t := wrap_t t; min_filter := min_filter t;
         mag_filter := mag_filter t; level0 := level0 t; mipmapped := mipmapped t |}
  | GL_TEXTURE_WRAP_T =>
      {| wrap_s := wrap_s t; wrap_t := v; min_filter := min_filter t;
         mag_filter := mag_filter t; level0 := level0 t; mipmapped := mipmapped t |}
  | GL_TEXTURE_MIN_FILTER =>
      {| wrap_s := wrap_s t; wrap_t := wrap_t t; min_filter := v;
         mag_filter := mag_filter t; level0 := level0 t; mipmapped := mipmapped t |}
  | GL_TEXTURE_MAG_FILTER =>
      {| wrap_s := wrap_s t; wrap_t := wrap_t t; min_filter := min_filter t;
         mag_filter := v; level0 := level0 t; mipmapped := mipmapped t |}
  end.

Definition set_level0 (i : TexImage) (t : GLTexture) : GLTexture :=
  {| wrap_s := wrap_s t; wrap_t := wrap_t t; min_filter := min_filter t;
     mag_filter := mag_filter t; level0 := Some i; mipmapped := false |}.

Definition set_mipmapped (t : GLTexture) : GLTexture :=
  {| wrap_s := wrap_s t; wrap_t := wrap_t t; min_filter := min_filter t;
     mag_filter := mag_filter t; level0 := level0 t; mipmapped := true |}.

(** The part of the GL context the scene manager touches: the texture names
    handed out so far, the texture objects, the active texture unit and the
    [GL_TEXTURE_2D] binding of every unit (an absent unit is bound to 0). *)
Record GLState := {
  gl_names : gset Z;
  gl_objects : gmap Z GLTexture;
  gl_active : Z;
  gl_bound : gmap Z Z
}.

(** *** Calls on the collaborators *)

Inductive Mesh := Plane | Sphere | Torus | TaperedCylinder | Box | Cylinder | Prism.

Inductive UniformValue :=
| UBool (b : bool)
| UInt (i : Z)
| USampler2D (i : Z)
| UFloat (f : cell R)
| UVec2 (v : glm.vec2)
| UVec3 (v : cell glm.vec3)
| UVec4 (v : glm.vec4)
| UMat4 (m : glm.mat4).

(** One entry of the call log: a uniform upload through the shader
    manager, or a mesh load or draw through [m_basicMeshes]. *)
Inductive Event :=
| SetUniform (name : string) (v : UniformValue)
| LoadMesh (k : Mesh)
| DrawMesh (k : Mesh).

(** *** The scene manager and its surroundings *)

Record State := {
  m_pShaderManager : bool;  (* [true]: the pointer is not NULL *)
  m_textureIDs : list TEXTURE_INFO;
  m_loadedTextures : Z;
  m_objectMaterials : list OBJECT_MATERIAL;
  gl : GLState;
  calls : list Event        (* oldest first *)
}.

Definition with_textures (ids : list TEXTURE_INFO) (n : Z) (s : State) : State :=
  {| m_pShaderManager := m_pShaderManager s; m_textureIDs := ids;
     m_loadedTextures := n; m_objectMaterials := m_objectMaterials s;
     gl := gl s; calls := calls s |}.

Definition with_materials (ms : list OBJECT_MATERIAL) (s : State) : State :=
  {| m_pShaderManager := m_pShaderManager s; m_textureIDs := m_textureIDs s;
     m_loadedTextures := m_loadedTextures s; m_objectMaterials := ms;
     gl := gl s; calls := calls s |}.

Definition with_gl (g : GLState) (s : State) : State :=
  {| m_pShaderManager := m_pShaderManager s; m_textureIDs := m_textureIDs s;
     m_loadedTextures := m_loadedTextures s;
     m_objectMaterials := m_objectMaterials s; gl := g; calls := calls s |}.

Definition log (evs : list Event) (s : State) : State :=
  {| m_pShaderManager := m_pShaderManager s; m_textureIDs := m_textureIDs s;
     m_loadedTextures := m_loadedTextures s;
     m_objectMaterials := m_objectMaterials s; gl := gl s;
     calls := calls s ++ evs |}.

(** ** The monad of member functions *)

Inductive outcome (A : Type) : Type :=
| Ok (a : A)
| Undefined.
Arguments Ok {A} a.
Arguments Undefined {A}.

Definition M (A : Type) : Type := State → outcome (A * State).

#[global] Instance M_ret : MRet M := λ A a s, Ok (a, s).
#[global] Instance M_bind : MBind M := λ A B f m s,
  match m s with
  | Ok (a, s') => f a s'
  | Undefined => Undefined
  end.

(** Run a read-only member function. *)
Definition read {A} (f : State → outcome A) : M A := λ s,
  match f s with
  | Ok a => Ok (a, s)
  | Undefined => Undefined
  end.

Definition modify (f : State → State) : M unit := λ s, Ok (tt, f s).


(** ** Collaborators *)

(** Modelled from the spec: [ShaderManager] is not among the sources; it
    exposes setters for scalar, vector, matrix and sampler uniforms by name.
    Each call through [m_pShaderManager] is appended to the call log; a call
    through a null pointer is undefined. *)
Definition shader_call (name : string) (v : UniformValue) : M unit := λ s,
  if m_pShaderManager s then Ok (tt, log [SetUniform name v] s) else Undefined.

Definition setBoolValue (name : string) (v : bool) : M unit := shader_call name (UBool v).
Definition setIntValue (name : string) (v : Z) : M unit := shader_call name (UInt v).
Definition setSampler2DValue (name : string) (v : Z) : M unit := shader_call name (USampler2D v).
Definition setFloatValue (name : string) (v : cell R) : M unit := shader_call name (UFloat v).
Definition setVec2Value (name : string) (v : glm.vec2) : M unit := shader_call name (UVec2 v).
Definition setVec3Value (name : string) (v : cell glm.vec3) : M unit := shader_call name (UVec3 v).
Definition setVec4Value (name : string) (v : glm.vec4) : M unit := shader_call name (UVec4 v).
Definition setMat4Value (name : string) (v : glm.mat4) : M unit := shader_call name (UMat4 v).

(** Modelled from the spec: [ShapeMeshes] is not among the sources; it
    exposes [LoadXMesh()] and [DrawXMesh()] per primitive.  [m_basicMeshes]
    is allocated by the constructor, so these calls only extend the log. *)
Definition LoadXMesh (k : Mesh) : M unit := modify (log [LoadMesh k]).
Definition DrawXMesh (k : Mesh) : M unit := modify (log [DrawMesh k]).

(** The value a uniform holds: the one of the latest upload under its name. *)
Fixpoint last_upload (name : string) (evs : list Event) (acc : option UniformValue)
  : option UniformValue :=
  match evs with
  | [] => acc
  | SetUniform n v :: rest =>
      last_upload name rest (if String.eqb n name then Some v else acc)
  | _ :: rest => last_upload name rest acc
  end.

Definition uniform (name : string) (s : State) : option UniformValue :=
  last_upload name (calls s) None.

(** ** Global names *)

Definition g_ModelName : string := "model".
Definition g_ColorValueName : string := "objectColor".
Definition g_TextureValueName : string := "objectTexture".
Definition g_UseTextureName : string := "bUseTexture".
Definition g_UseLightingName : string := "bUseLighting".

(** ** Lookups *)

(** Conversion of a [GLuint] to the [int] that [FindTextureID] returns. *)
Definition int_of_GLuint (u : Z) : Z := (u + 2 ^ 31) mod 2 ^ 32 - 2 ^ 31.

(** The loop of [FindTextureID].  [index] starts at 0 and [remaining] at
    [m_loadedTextures], so [remaining = 0] is the exit test
    [index < m_loadedTextures] failing; a match sets [bFound], which ends
    the loop with the value just stored. *)
Fixpoint FindTextureID_from (ids : list TEXTURE_INFO) (tag0 : string)
    (remaining : nat) (index : Z) : outcome Z :=
  match remaining with
  | O => Ok (-1)
  | S r =>
      match ids !! Z.to_nat index with
      | None => Undefined
      | Some e =>
          if String.eqb (tag e) tag0 then Ok (int_of_GLuint (ID e))
          else FindTextureID_from ids tag0 r (index + 1)
      end
  end.

Definition FindTextureID (tag0 : string) (s : State) : outcome Z :=
  FindTextureID_from (m_textureIDs s) tag0 (Z.to_nat (m_loadedTextures s)) 0.

(** The loop of [FindTextureSlot], in the same shape. *)
Fixpoint FindTextureSlot_from (ids : list TEXTURE_INFO) (tag0 : string)
    (remaining : nat) (index : Z) : outcome Z :=
  match remaining with
  | O => Ok (-1)
  | S r =>
      match ids !! Z.to_nat index with
      | None => Undefined
      | Some e =>
          if String.eqb (tag e) tag0 then Ok index
          else FindTextureSlot_from ids tag0 r (index + 1)
      end
  end.

Definition FindTextureSlot (tag0 : string) (s : State) : outcome Z :=
  FindTextureSlot_from (m_textureIDs s) tag0 (Z.to_nat (m_loadedTextures s)) 0.

(** The loop of [FindMaterial]: it visits [m_objectMaterials[index]] for
    [index = 0, 1, ...] and stops at the first entry whose tag compares
    equal.  It yields the loop's [bFound] and the out-parameter. *)
Fixpoint FindMaterial_scan (ms : list OBJECT_MATERIAL) (tag0 : string)
    (material : OBJECT_MATERIAL) : bool * OBJECT_MATERIAL :=
  match ms with
  | [] => (false, material)
  | e :: rest =>
      if String.eqb (mtag e) tag0 then
        (true,
         set_shininess (shininess e)
           (set_specularColor (specularColor e)
              (set_diffuseColor (diffuseColor e) material)))
      else FindMaterial_scan rest tag0 material
  end.

(** [FindMaterial]: the result is the returned flag and the out-parameter.
    The flag the function returns after the loop is the constant [true],
    not [bFound]. *)
Definition FindMaterial (tag0 : string) (material : OBJECT_MATERIAL) (s : State)
  : bool * OBJECT_MATERIAL :=
  if (length (m_objectMaterials s) =? 0)%nat then (false, material)
  else
    let '(bFound, material) := FindMaterial_scan (m_objectMaterials s) tag0 material in
    (true, material).

(** ** Transform composer and shading binder *)

(** [if (NULL != m_pShaderManager) { ... }] *)
Definition if_shader (body : M unit) : M unit := λ s,
  if m_pShaderManager s then body s else Ok (tt, s).

Definition SetTransformations (scaleXYZ : glm.vec3)
    (XrotationDegrees YrotationDegrees ZrotationDegrees : R)
    (positionXYZ : glm.vec3) : M unit :=
  let scale := glm.scale scaleXYZ in
  let rotationX := glm.rotate (glm.radians XrotationDegrees) (glm.Vec3 1 0 0) in
  let rotationY := glm.rotate (glm.radians YrotationDegrees) (glm.Vec3 0 1 0) in
  let rotationZ := glm.rotate (glm.radians ZrotationDegrees) (glm.Vec3 0 0 1) in
  let translation := glm.translate positionXYZ in
  let modelView := (translation * rotationZ * rotationY * rotationX * scale)%mat in
  if_shader (setMat4Value g_ModelName modelView).

Definition SetShaderColor (redColorValue greenColorValue blueColorValue alphaValue : R)
  : M unit :=
  let currentColor :=
    glm.Vec4 redColorValue greenColorValue blueColorValue alphaValue in
  if_shader (setIntValue g_UseTextureName 0;;
             setVec4Value g_ColorValueName currentColor).

Definition SetShaderTexture (textureTag : string) : M unit :=
  if_shader (setIntValue g_UseTextureName 1;;
             textureID ← read (FindTextureSlot textureTag);
             setSampler2DValue g_TextureValueName textureID).

Definition SetTextureUVScale (u v : R) : M unit :=
  if_shader (setVec2Value "UVscale" (glm.Vec2 u v)).

Definition SetShaderMaterial (materialTag : string) : M unit := λ s,
  if (0 <? length (m_objectMaterials s))%nat then
    let material := OBJECT_MATERIAL_default in
    let '(bReturn, material) := FindMaterial materialTag material s in
    if bReturn then
      (setVec3Value "material.diffuseColor" (diffuseColor material);;
       setVec3Value "material.specularColor" (specularColor material);;
       setFloatValue "material.shininess" (shininess material)) s
    else Ok (tt, s)
  else Ok (tt, s).

(** ** Material definitions *)

Definition push_material (m : OBJECT_MATERIAL) : M unit :=
  modify (λ s, with_materials (m_objectMaterials s ++ [m]) s).

Definition DefineObjectMaterials : M unit :=
  let clayMaterial := OBJECT_MATERIAL_default in
  let clayMaterial := set_ambientColor (Holds (glm.Vec3 0.2 0.2 0.3)) clayMaterial in
  let clayMaterial := set_ambientStrength (Holds 0.3%R) clayMaterial in
  let clayMaterial := set_diffuseColor (Holds (glm.Vec3 0.4 0.4 0.5)) clayMaterial in
  let clayMaterial := set_specularColor (Holds (glm.Vec3 0.2 0.2 0.4)) clayMaterial in
  let clayMaterial := set_shininess (Holds 0.5%R) clayMaterial in
  let clayMaterial := set_mtag "clay" clayMaterial in
  push_material clayMaterial;;
  let woodMaterial := OBJECT_MATERIAL_default in
  let woodMaterial := set_diffuseColor (Holds (glm.Vec3 0.2 0.2 0.3)) woodMaterial in
  let woodMaterial := set_specularColor (Holds (glm.Vec3 0.0 0.0 0.0)) woodMaterial in
  let woodMaterial := set_shininess (Holds 0.1%R) woodMaterial in
  let woodMaterial := set_mtag "wood" woodMaterial in
  push_material woodMaterial;;
  let glassMaterial := OBJECT_MATERIAL_default in
  let glassMaterial := set_diffuseColor (Holds (glm.Vec3 0.2 0.2 0.2)) glassMaterial in
  let glassMaterial := set_specularColor (Holds (glm.Vec3 1.0 1.0 1.0)) glassMaterial in
  let glassMaterial := set_shininess (Holds 95.0%R) glassMaterial in
  let glassMaterial := set_mtag "glass" glassMaterial in
  push_material glassMaterial;;
  let clothMaterial := OBJECT_MATERIAL_default in
  let glassMaterial := set_diffuseColor (Holds (glm.Vec3 0.2 0.2 0.2)) glassMaterial in
  let glassMaterial := set_specularColor (Holds (glm.Vec3 0.2 0.2 0.4)) glassMaterial in
  let glassMaterial := set_shininess (Holds 0.5%R) glassMaterial in
  let glassMaterial := set_mtag "cloth" glassMaterial in
  push_material clothMaterial.

(** The four entries [DefineObjectMaterials] appends, in order. *)
Definition materials_defined : list OBJECT_MATERIAL :=
  [ {| ambientColor := Holds (glm.Vec3 0.2 0.2 0.3); ambientStrength := Holds 0.3%R;
       diffuseColor := Holds (glm.Vec3 0.4 0.4 0.5);
       specularColor := Holds (glm.Vec3 0.2 0.2 0.4);
       shininess := Holds 0.5%R; mtag := "clay" |};
    {| ambientColor := Indeterminate; ambientStrength := Indeterminate;
       diffuseColor := Holds (glm.Vec3 0.2 0.2 0.3);
       specularColor := Holds (glm.Vec3 0.0 0.0 0.0);
       shininess := Holds 0.1%R; mtag := "wood" |};
    {| ambientColor := Indeterminate; ambientStrength := Indeterminate;
       diffuseColor := Holds (glm.Vec3 0.2 0.2 0.2);
       specularColor := Holds (glm.Vec3 1.0 1.0 1.0);
       shininess := Holds 95.0%R; mtag := "glass" |};
    OBJECT_MATERIAL_default ].

(** ** Lights *)

Definition setVec3Value3 (name : string) (x y z : R) : M unit :=
  setVec3Value name (Holds (glm.Vec3 x y z)).

Definition SetupSceneLights : M unit :=
  setBoolValue g_UseLightingName true;;
  setVec3Value3 "directionalLight.direction" 0.0 (-1.0) 1.0;;
  setVec3Value3 "directionalLight.ambient" 0.1 0.1 0.1;;
  setVec3Value3 "directionalLight.diffuse" 1.0 1.0 1.0;;
  setVec3Value3 "directionalLight.specular" 1.0 1.0 1.0;;
  setBoolValue "directionalLight.bActive" true;;
  setVec3Value3 "pointLights[0].position" (-4.0) 8.0 0.0;;
  setVec3Value3 "pointLights[0].ambient" 1.0 0.6 0.1;;
  setVec3Value3 "pointLights[0].diffuse" 0.1 0.1 0.1;;
  setVec3Value3 "pointLights[0].specular" 0.1 0.1 0.1;;
  setBoolValue "pointLights[0].bActive" true;;
  setVec3Value3 "spotLight.position" 3.0 8.0 (-10.0);;
  setVec3Value3 "spotLight.direction" 0.5 (-0.5) 1.0;;
  setVec3Value3 "spotLight.ambient" 1.0 1.0 1.0;;
  setVec3Value3 "spotLight.diffuse" 1.0 1.0 1.0;;
  setVec3Value3 "spotLight.specular" 1.0 1.0 1.0;;
  setFloatValue "spotLight.constant" (Holds 1.0%R);;
  setFloatValue "spotLight.linear" (Holds 0.30%R);;
  setFloatValue "spotLight.quadratic" (Holds 0.01%R);;
  setFloatValue "spotLight.cutOff" (Holds (cos (glm.radians 10.0)));;
  setFloatValue "spotLight.outerCutOff" (Holds (cos (glm.radians 30.0)));;
  setBoolValue "spotLight.bActive" true.

(** ** Object routines

    The routines follow the source statement by statement.
    [glm::vec3 scaleXYZ;] and [glm::vec3 positionXYZ;] are declared without
    a value and assigned before their first use, so the declarations leave
    no trace here. *)

Definition DrawPlaneMesh : M unit := DrawXMesh Plane.
Definition DrawSphereMesh : M unit := DrawXMesh Sphere.
Definition DrawTorusMesh : M unit := DrawXMesh Torus.
Definition DrawTaperedCylinderMesh : M unit := DrawXMesh TaperedCylinder.
Definition DrawBoxMesh : M unit := DrawXMesh Box.
Definition DrawCylinderMesh : M unit := DrawXMesh Cylinder.
Definition DrawPrismMesh : M unit := DrawXMesh Prism.

Definition RenderFloor : M unit :=
  let XrotationDegrees := 0.0%R in
  let YrotationDegrees := 0.0%R in
  let ZrotationDegrees := 0.0%R in
  let scaleXYZ := glm.Vec3 8.5 0.0 4.8 in
  let XrotationDegrees := 0.0%R in
  let YrotationDegrees := 0.0%R in
  let ZrotationDegrees := 0.0%R in
  let positionXYZ := glm.Vec3 2.0 0.0 0.0 in
  SetTransformations scaleXYZ XrotationDegrees YrotationDegrees ZrotationDegrees positionXYZ;;
  SetShaderTexture "wall";;
  SetTextureUVScale 1.0 1.0;;
  SetShaderMaterial "wood";;
  DrawPlaneMesh.

Definition RenderWall : M unit :=
  let XrotationDegrees := 0.0%R in
  let YrotationDegrees := 0.0%R in
  let ZrotationDegrees := 0.0%R in
  let scaleXYZ := glm.Vec3 8.5 0.0 6.0 in
  let XrotationDegrees := 90.0%R in
  let YrotationDegrees := 0.0%R in
  let ZrotationDegrees := 0.0%R in
  let positionXYZ := glm.Vec3 2.0 6.0 (-4.0) in
  SetTransformations scaleXYZ XrotationDegrees YrotationDegrees ZrotationDegrees positionXYZ;;
  SetShaderTexture "brick";;
  SetTextureUVScale 2.0 1.0;;
  DrawPlaneMesh;;
  let scaleXYZ := glm.Vec3 4.8 0.0 6.0 in
  let XrotationDegrees := 0.0%R in
  let YrotationDegrees := 90.0%R in
  let ZrotationDegrees := 90.0%R in
  let positionXYZ := glm.Vec3 10.51 6.0 0.0 in
  SetTransformations scaleXYZ XrotationDegrees YrotationDegrees ZrotationDegrees positionXYZ;;
  SetShaderColor 1.0 1.0 1.0 1.0;;
  DrawPlaneMesh;;
  let scaleXYZ := glm.Vec3 4.8 0.0 6.0 in
  let XrotationDegrees := 0.0%R in
  let YrotationDegrees := 90.0%R in
  let ZrotationDegrees := 90.0%R in
  let positionXYZ := glm.Vec3 (-6.5) 6.0 0.0 in
  SetTransformations scaleXYZ XrotationDegrees YrotationDegrees ZrotationDegrees positionXYZ;;
  SetShaderColor 1.0 1.0 1.0 1.0;;
  DrawPlaneMesh.

Definition RenderWindow : M unit :=
  let XrotationDegrees := 0.0%R in
  let YrotationDegrees := 0.0%R in
  let ZrotationDegrees := 0.0%R in
  let scaleXYZ := glm.Vec3 7.0 0.5 10.0 in
  let XrotationDegrees := 90.0%R in
  let YrotationDegrees := 0.0%R in
  let ZrotationDegrees := 0.0%R in
  let positionXYZ := glm.Vec3 6.0 6.0 (-4.0) in
  SetTransformations scaleXYZ XrotationDegrees YrotationDegrees ZrotationDegrees positionXYZ;;
  SetShaderTexture "window";;
  SetTextureUVScale 1.0 1.0;;
  SetShaderMaterial "glass";;
  DrawBoxMesh.

Definition RenderVase : M unit :=
  let XrotationDegrees := 0.0%R in
  let YrotationDegrees := 0.0%R in
  let ZrotationDegrees := 0.0%R in
  let scaleXYZ := glm.Vec3 0.80 0.50 1.0 in
  let XrotationDegrees := 0.0%R in
  let YrotationDegrees := 0.0%R in
  let ZrotationDegrees := 0.0%R in
  let positionXYZ := glm.Vec3 9.0 4.85 3.0 in
  SetTransformations scaleXYZ XrotationDegrees YrotationDegrees ZrotationDegrees positionXYZ;;
  SetShaderTexture "vase";;
  DrawSphereMesh;;
  let scaleXYZ := glm.Vec3 0.90 0.70 1.0 in
  let XrotationDegrees := 180.0%R in
  let YrotationDegrees := 0.0%R in
  let ZrotationDegrees := 0.0%R in
  let positionXYZ := glm.Vec3 9.0 5.50 3.0 in
  SetTransformations scaleXYZ XrotationDegrees YrotationDegrees ZrotationDegrees positionXYZ;;
  SetShaderTexture "vase";;
  SetTextureUVScale 1.0 1.0;;
  SetShaderMaterial "clay";;
  DrawTaperedCylinderMesh;;
  let scaleXYZ := glm.Vec3 1.0 0.05 0.8 in
  let XrotationDegrees := 180.0%R in
  let YrotationDegrees := 0.0%R in
  let ZrotationDegrees := 0.0%R in
  let positionXYZ := glm.Vec3 9.0 4.6 3.0 in
  SetTransformations scaleXYZ XrotationDegrees YrotationDegrees ZrotationDegrees positionXYZ;;
  SetShaderTexture "tan";;
  SetTextureUVScale 1.0 1.0;;
  SetShaderMaterial "clay";;
  DrawTaperedCylinderMesh.

Definition RenderBookcase : M unit :=
  let XrotationDegrees := 0.0%R in
  let YrotationDegrees := 0.0%R in
  let ZrotationDegrees := 0.0%R in
  let scaleXYZ := glm.Vec3 3.00 0.20 5.0 in
  let XrotationDegrees := 0.0%R in
  let YrotationDegrees := 0.0%R in
  let ZrotationDegrees := 0.0%R in
  let positionXYZ := glm.Vec3 9.0 4.40 2.0 in
  SetTransformations scaleXYZ XrotationDegrees YrotationDegrees ZrotationDegrees positionXYZ;;
  SetShaderTexture "floor";;
  SetTextureUVScale 1.0 1.0;;
  SetShaderMaterial "wood";;
  DrawBoxMesh;;
  let scaleXYZ := glm.Vec3 3.00 0.2 5.0 in
  let XrotationDegrees := 0.0%R in
  let YrotationDegrees := 0.0%R in
  let ZrotationDegrees := 0.0%R in
  let positionXYZ := glm.Vec3 9.0 0.10 2.0 in
  SetTransformations scaleXYZ XrotationDegrees YrotationDegrees ZrotationDegrees positionXYZ;;
  SetShaderTexture "floor";;
  SetTextureUVScale 1.0 1.0;;
  SetShaderMaterial "wood";;
  DrawBoxMesh;;
  let scaleXYZ := glm.Vec3 3.00 0.20 5.0 in
  let XrotationDegrees := 0.0%R in
  let YrotationDegrees := 0.0%R in
  let ZrotationDegrees := 0.0%R in
  let positionXYZ := glm.Vec3 9.0 2.20 2.0 in
  SetTransformations scaleXYZ XrotationDegrees YrotationDegrees ZrotationDegrees positionXYZ;;
  SetShaderTexture "floor";;
  SetTextureUVScale 1.0 1.0;;
  SetShaderMaterial "wood";;
  DrawBoxMesh;;
  let scaleXYZ := glm.Vec3 3.00 4.70 0.50 in
  let XrotationDegrees := 0.0%R in
  let YrotationDegrees := 0.0%R in
  let ZrotationDegrees := 0.0%R in
  let positionXYZ := glm.Vec3 9.0 2.20 (-0.70) in
  SetTransformations scaleXYZ XrotationDegrees YrotationDegrees ZrotationDegrees positionXYZ;;
  SetShaderTexture "floor";;
  SetTextureUVScale 1.0 1.0;;
  SetShaderMaterial "wood";;
  DrawBoxMesh;;
  let scaleXYZ := glm.Vec3 3.00 4.70 0.50 in
  let XrotationDegrees := 0.0%R in
  let YrotationDegrees := 0.0%R in
  let ZrotationDegrees := 0.0%R in
  let positionXYZ := glm.Vec3 9.0 2.20 4.5 in
  SetTransformations scaleXYZ XrotationDegrees YrotationDegrees ZrotationDegrees positionXYZ;;
  SetShaderTexture "floor";;
  SetTextureUVScale 1.0 1.0;;
  SetShaderMaterial "wood";;
  DrawBoxMesh.

Definition RenderBook : M unit :=
  let XrotationDegrees := 0.0%R in
  let YrotationDegrees := 0.0%R in
  let ZrotationDegrees := 0.0%R in
  let scaleXYZ := glm.Vec3 1.50 2.0 0.20 in
  let XrotationDegrees := 0.0%R in
  let YrotationDegrees := 0.0%R in
  let ZrotationDegrees := 0.0%R in
  let positionXYZ := glm.Vec3 9.0 5.40 1.5 in
  SetTransformations scaleXYZ XrotationDegrees YrotationDegrees ZrotationDegrees positionXYZ;;
  SetShaderTexture "book";;
  DrawBoxMesh;;
  let scaleXYZ := glm.Vec3 1.50 1.8 0.20 in
  let XrotationDegrees := 0.0%R in
  let YrotationDegrees := 0.0%R in
  let ZrotationDegrees := 0.0%R in
  let positionXYZ := glm.Vec3 9.0 3.1 3.0 in
  SetTransformations scaleXYZ XrotationDegrees YrotationDegrees ZrotationDegrees positionXYZ;;
  SetShaderTexture "book";;
  DrawBoxMesh;;
  let scaleXYZ := glm.Vec3 1.50 1.4 0.20 in
  let XrotationDegrees := 0.0%R in
  let YrotationDegrees := 0.0%R in
  let ZrotationDegrees := 0.0%R in
  let positionXYZ := glm.Vec3 8.8 3.0 2.6 in
  SetTransformations scaleXYZ XrotationDegrees YrotationDegrees ZrotationDegrees positionXYZ;;
  SetShaderTexture "book1";;
  DrawBoxMesh;;
  let scaleXYZ := glm.Vec3 1.50 1.4 0.20 in
  let XrotationDegrees := 0.0%R in
  let YrotationDegrees := 0.0%R in
  let ZrotationDegrees := 0.0%R in
  let positionXYZ := glm.Vec3 8.8 3.0 2.0 in
  SetTransformations scaleXYZ XrotationDegrees YrotationDegrees ZrotationDegrees positionXYZ;;
  SetShaderTexture "book2";;
  DrawBoxMesh;;
  let scaleXYZ := glm.Vec3 1.50 1.0 0.20 in
  let XrotationDegrees := 0.0%R in
  let YrotationDegrees := 0.0%R in
  let ZrotationDegrees := 0.0%R in
  let positionXYZ := glm.Vec3 8.8 2.8 1.7 in
  SetTransformations scaleXYZ XrotationDegrees YrotationDegrees ZrotationDegrees positionXYZ;;
  SetShaderTexture "book";;
  DrawBoxMesh;;
  let scaleXYZ := glm.Vec3 1.50 1.4 0.20 in
  let XrotationDegrees := 0.0%R in
  let YrotationDegrees := 0.0%R in
  let ZrotationDegrees := 0.0%R in
  let positionXYZ := glm.Vec3 8.8 5.0 2.0 in
  SetTransformations scaleXYZ XrotationDegrees YrotationDegrees ZrotationDegrees positionXYZ;;
  SetShaderTexture "book2";;
  DrawBoxMesh;;
  let scaleXYZ := glm.Vec3 1.50 2.0 0.20 in
  let XrotationDegrees := 0.0%R in
  let YrotationDegrees := 0.0%R in
  let ZrotationDegrees := 0.0%R in
  let positionXYZ := glm.Vec3 8.8 5.3 1.2 in
  SetTransformations scaleXYZ XrotationDegrees YrotationDegrees ZrotationDegrees positionXYZ;;
  SetShaderTexture "book1";;
  let scaleXYZ := glm.Vec3 1.5 2.0 0.20 in
  let XrotationDegrees := 0.0%R in
  let YrotationDegrees := 0.0%R in
  let ZrotationDegrees := 0.0%R in
  let positionXYZ := glm.Vec3 1.6 5.2 (-1.5) in
  SetTransformations scaleXYZ XrotationDegrees YrotationDegrees ZrotationDegrees positionXYZ;;
  SetShaderTexture "book";;
  DrawBoxMesh;;
  let scaleXYZ := glm.Vec3 1.0 1.5 0.20 in
  let XrotationDegrees := 0.0%R in
  let YrotationDegrees := 0.0%R in
  let ZrotationDegrees := 0.0%R in
  let positionXYZ := glm.Vec3 1.6 5.0 (-1.2) in
  SetTransformations scaleXYZ XrotationDegrees YrotationDegrees ZrotationDegrees positionXYZ;;
  SetShaderTexture "book3";;
  DrawBoxMesh.

Definition RenderDesk : M unit :=
  let XrotationDegrees := 0.0%R in
  let YrotationDegrees := 0.0%R in
  let ZrotationDegrees := 0.0%R in
  let scaleXYZ := glm.Vec3 9.00 0.50 2.00 in
  let XrotationDegrees := 0.0%R in
  let YrotationDegrees := 0.0%R in
  let ZrotationDegrees := 0.0%R in
  let positionXYZ := glm.Vec3 (-2.0) 4.0 (-2.0) in
  SetTransformations scaleXYZ XrotationDegrees YrotationDegrees ZrotationDegrees positionXYZ;;
  SetShaderTexture "floor";;
  SetTextureUVScale 1.0 1.0;;
  SetShaderMaterial "wood";;
  DrawBoxMesh;;
  let scaleXYZ := glm.Vec3 0.50 4.0 2.00 in
  let XrotationDegrees := 0.0%R in
  let YrotationDegrees := 0.0%R in
  let ZrotationDegrees := 0.0%R in
  let positionXYZ := glm.Vec3 (-6.2) 2.0 (-2.0) in
  SetTransformations scaleXYZ XrotationDegrees YrotationDegrees ZrotationDegrees positionXYZ;;
  SetShaderTexture "floor";;
  SetTextureUVScale 1.0 1.0;;
  SetShaderMaterial "wood";;
  DrawBoxMesh;;
  let scaleXYZ := glm.Vec3 0.5 4.0 2.00 in
  let XrotationDegrees := 0.0%R in
  let YrotationDegrees := 0.0%R in
  let ZrotationDegrees := 0.0%R in
  let positionXYZ := glm.Vec3 2.2 2.0 (-2.0) in
  SetTransformations scaleXYZ XrotationDegrees YrotationDegrees ZrotationDegrees positionXYZ;;
  SetShaderTexture "floor";;
  SetTextureUVScale 1.0 1.0;;
  SetShaderMaterial "wood";;
  DrawBoxMesh.

Definition RenderCat : M unit :=
  let XrotationDegrees := 0.0%R in
  let YrotationDegrees := 0.0%R in
  let ZrotationDegrees := 0.0%R in
  let scaleXYZ := glm.Vec3 0.6 1.9 0.5 in
  let XrotationDegrees := 90.0%R in
  let YrotationDegrees := 90.0%R in
  let ZrotationDegrees := 0.0%R in
  let positionXYZ := glm.Vec3 2.0 1.0 2.0 in
  SetTransformations scaleXYZ XrotationDegrees YrotationDegrees ZrotationDegrees positionXYZ;;
  SetShaderColor 0.5 0.5 0.5 1.0;;
  DrawCylinderMesh;;
  let scaleXYZ := glm.Vec3 0.3 0.7 0.5 in
  let XrotationDegrees := 0.0%R in
  let YrotationDegrees := 0.0%R in
  let ZrotationDegrees := 0.0%R in
  let positionXYZ := glm.Vec3 3.5 1.0 2.0 in
  SetTransformations scaleXYZ XrotationDegrees YrotationDegrees ZrotationDegrees positionXYZ;;
  SetShaderColor 0.5 0.5 0.5 1.0;;
  DrawCylinderMesh;;
  let scaleXYZ := glm.Vec3 0.6 0.7 0.5 in
  let XrotationDegrees := 0.0%R in
  let YrotationDegrees := 0.0%R in
  let ZrotationDegrees := 0.0%R in
  let positionXYZ := glm.Vec3 3.5 1.7 2.0 in
  SetTransformations scaleXYZ XrotationDegrees YrotationDegrees ZrotationDegrees positionXYZ;;
  SetShaderColor 0.5 0.5 0.5 1.0;;
  DrawSphereMesh;;
  let scaleXYZ := glm.Vec3 0.5 0.6 0.5 in
  let XrotationDegrees := 90.0%R in
  let YrotationDegrees := 90.0%R in
  let ZrotationDegrees := 0.0%R in
  let positionXYZ := glm.Vec3 3.6 1.7 2.0 in
  SetTransformations scaleXYZ XrotationDegrees YrotationDegrees ZrotationDegrees positionXYZ;;
  SetShaderColor 0.5 0.5 0.5 1.0;;
  SetTextureUVScale 2.0 1.0;;
  DrawTaperedCylinderMesh;;
  let scaleXYZ := glm.Vec3 0.2 0.2 0.1 in
  let XrotationDegrees := (-30.0)%R in
  let YrotationDegrees := 0.0%R in
  let ZrotationDegrees := 0.0%R in
  let positionXYZ := glm.Vec3 3.4 2.4 2.0 in
  SetTransformations scaleXYZ XrotationDegrees YrotationDegrees ZrotationDegrees positionXYZ;;
  SetShaderColor 0.5 0.5 0.5 1.0;;
  SetTextureUVScale 2.0 1.0;;
  DrawPrismMesh;;
  let positionXYZ := glm.Vec3 3.4 1.7 2.0 in
  SetTransformations scaleXYZ XrotationDegrees YrotationDegrees ZrotationDegrees positionXYZ;;
  SetShaderColor 0.5 0.5 0.5 1.0;;
  SetTextureUVScale 2.0 1.0;;
  DrawTaperedCylinderMesh;;
  let scaleXYZ := glm.Vec3 0.2 0.2 0.1 in
  let XrotationDegrees := (-30.0)%R in
  let YrotationDegrees := 0.0%R in
  let ZrotationDegrees := 0.0%R in
  let positionXYZ := glm.Vec3 3.4 2.4 2.2 in
  SetTransformations scaleXYZ XrotationDegrees YrotationDegrees ZrotationDegrees positionXYZ;;
  SetShaderColor 0.5 0.5 0.5 1.0;;
  SetTextureUVScale 2.0 1.0;;
  DrawPrismMesh;;
  let scaleXYZ := glm.Vec3 0.2 0.7 0.1 in
  let XrotationDegrees := 0.0%R in
  let YrotationDegrees := 0.0%R in
  let ZrotationDegrees := 0.0%R in
  let positionXYZ := glm.Vec3 3.7 0.0 2.2 in
  SetTransformations scaleXYZ XrotationDegrees YrotationDegrees ZrotationDegrees positionXYZ;;
  SetShaderColor 0.5 0.5 0.5 1.0;;
  SetTextureUVScale 2.0 1.0;;
  DrawCylinderMesh;;
  let scaleXYZ := glm.Vec3 0.2 0.7 0.1 in
  let XrotationDegrees := 0.0%R in
  let YrotationDegrees := 0.0%R in
  let ZrotationDegrees := 0.0%R in
  let positionXYZ := glm.Vec3 2.3 0.0 2.2 in
  SetTransformations scaleXYZ XrotationDegrees YrotationDegrees ZrotationDegrees positionXYZ;;
  SetShaderColor 0.5 0.5 0.5 1.0;;
  SetTextureUVScale 2.0 1.0;;
  DrawCylinderMesh;;
  let scaleXYZ := glm.Vec3 0.2 0.7 0.1 in
  let XrotationDegrees := 0.0%R in
  let YrotationDegrees := 0.0%R in
  let ZrotationDegrees := 0.0%R in
  let positionXYZ := glm.Vec3 3.7 0.0 1.7 in
  SetTransformations scaleXYZ XrotationDegrees YrotationDegrees ZrotationDegrees positionXYZ;;
  SetShaderColor 0.5 0.5 0.5 1.0;;
  SetTextureUVScale 2.0 1.0;;
  DrawCylinderMesh;;
  let scaleXYZ := glm.Vec3 0.2 0.7 0.1 in
  let XrotationDegrees := 0.0%R in
  let YrotationDegrees := 0.0%R in
  let ZrotationDegrees := 0.0%R in
  let positionXYZ := glm.Vec3 2.3 0.0 1.7 in
  SetTransformations scaleXYZ XrotationDegrees YrotationDegrees ZrotationDegrees positionXYZ;;
  SetShaderColor 0.5 0.5 0.5 1.0;;
  SetTextureUVScale 2.0 1.0;;
  DrawCylinderMesh;;
  let scaleXYZ := glm.Vec3 0.2 1.5 0.1 in
  let XrotationDegrees := (-45.0)%R in
  let YrotationDegrees := 90.0%R in
  let ZrotationDegrees := 0.0%R in
  let positionXYZ := glm.Vec3 2.3 1.0 2.0 in
  SetTransformations scaleXYZ XrotationDegrees YrotationDegrees ZrotationDegrees positionXYZ;;
  SetShaderColor 0.5 0.5 0.5 1.0;;
  SetTextureUVScale 2.0 1.0;;
  DrawCylinderMesh.

Definition RenderScene : M unit :=
  RenderFloor;;
  RenderWall;;
  RenderBookcase;;
  RenderWindow;;
  RenderVase;;
  RenderBook;;
  RenderDesk;;
  RenderCat.

(** The render loop outside the scene manager calls [RenderScene] once per
    frame. *)
Fixpoint render_frames (n : nat) : M unit :=
  match n with
  | O => mret tt
  | S n' => RenderScene;; render_frames n'
  end.

(** The meshes drawn, in log order. *)
Definition drawn (evs : list Event) : list Mesh :=
  omap (λ e, match e with DrawMesh k => Some k | _ => None end) evs.

(** What [SetShaderTexture] and [SetShaderMaterial] look up, as functions
    of the registries. *)
Definition slot_of (t : string) (s : State) : Z :=
  match FindTextureSlot t s with
  | Ok slot => slot
  | Undefined => -1
  end.

Definition material_uploads (t : string) (s : State) : list Event :=
  if (0 <? length (m_objectMaterials s))%nat then
    let '(bReturn, material) := FindMaterial t OBJECT_MATERIAL_default s in
    if bReturn then
      [SetUniform "material.diffuseColor" (UVec3 (diffuseColor material));
       SetUniform "material.specularColor" (UVec3 (specularColor material));
       SetUniform "material.shininess" (UFloat (shininess material))]
    else []
  else [].

(** The states in which an object routine runs to completion: a shader
    manager is attached and the texture count stays within the array. *)
Definition scene_ok (s : State) : Prop :=
  m_pShaderManager s = true ∧
  m_loadedTextures s ≤ Z.of_nat (length (m_textureIDs s)).

(** [emits m ev]: from such a state [m] completes and only extends the call
    log, by events that depend on the registries alone. *)
Definition emits (m : M unit) (ev : State → list Event) : Prop :=
  (∀ s, scene_ok s → m s = Ok (tt, log (ev s) s)) ∧
  (∀ s evs, ev (log evs s) = ev s).

(** The meshes one frame draws, in order. *)
Definition frame_meshes : list Mesh :=
  [Plane] ++ [Plane; Plane; Plane] ++ [Box; Box; Box; Box; Box] ++ [Box]
  ++ [Sphere; TaperedCylinder; TaperedCylinder]
  ++ [Box; Box; Box; Box; Box; Box; Box; Box] ++ [Box; Box; Box]
  ++ [Cylinder; Cylinder; Sphere; TaperedCylinder; Prism; TaperedCylinder; Prism;
      Cylinder; Cylinder; Cylinder; Cylinder; Cylinder].

(** ** Sample surroundings

    A scene manager right after construction around a shader manager, in a
    GL context that holds no texture: nothing loaded, defined or called. *)
Definition new_scene : State :=
  {| m_pShaderManager := true;
     m_textureIDs := replicate texture_capacity {| ID := 0; tag := EmptyString |};
     m_loadedTextures := 0;
     m_objectMaterials := [];
     gl := {| gl_names := ∅; gl_objects := ∅; gl_active := 0; gl_bound := ∅ |};
     calls := [] |}.

(** A scene manager with three textures registered, two of them under the
    tag "floor", and with the four defined materials followed by a second
    one tagged "wood". *)
Definition sample_scene : State :=
  {| m_pShaderManager := true;
     m_textureIDs :=
       [ {| ID := 8; tag := "wall" |}; {| ID := 7; tag := "floor" |};
         {| ID := 9; tag := "floor" |} ]
       ++ replicate 13 {| ID := 0; tag := EmptyString |};
     m_loadedTextures := 3;
     m_objectMaterials :=
       materials_defined ++
       [ {| ambientColor := Indeterminate; ambientStrength := Indeterminate;
            diffuseColor := Holds (glm.Vec3 0.9 0.9 0.9);
            specularColor := Holds (glm.Vec3 0.5 0.5 0.5);
            shininess := Holds 2.0%R; mtag := "wood" |} ];
     gl := {| gl_names := {[7; 8; 9]}; gl_objects := ∅; gl_active := 0; gl_bound := ∅ |};
     calls := [] |}.

(** A GL implementation that hands out the least unused positive name. *)
Definition next_name (used : gset Z) : Z := fresh ({[0]} ∪ used).

(** A decoder that reads every file but [missing.png]; [gray.png] is a
    one-channel image, any other file a 1x1 RGB image. *)
Definition sample_decoder (flip : bool) (filename : string) : option Image :=
  if String.eqb filename "missing.png" then None
  else if String.eqb filename "gray.png" then
    Some {| img_width := 1; img_height := 1; img_channels := 1; img_data := [128] |}
  else
    Some {| img_width := 1; img_height := 1; img_channels := 3; img_data := [10; 20; 30] |}.

(** ** Vocabulary for the further properties *)

(** The uniform names a list of events uploads to. *)
Definition uploaded_names (evs : list Event) : list string :=
  omap (λ e, match e with SetUniform n _ => Some n | _ => None end) evs.

(** An upload carries a definite value: no member of a never-assigned
    variable. *)
Definition definite (e : Event) : Prop :=
  match e with
  | SetUniform _ (UVec3 Indeterminate) => False
  | SetUniform _ (UFloat Indeterminate) => False
  | _ => True
  end.

(** The files [LoadSceneTextures] loads and the tags it loads them under,
    in load order. *)
Definition scene_loads : list (string * string) :=
  [("./textures/wood.jpg", "floor"); ("./textures/wall.jpg", "wall");
   ("./textures/tan.jpg", "vase"); ("./textures/red.jpeg", "book");
   ("./textures/brick.jpeg", "brick"); ("./textures/glass.jpg", "window");
   ("./textures/green.jpg", "book1"); ("./textures/blue.jpg", "book2");
   ("./textures/desk.jpg", "desk"); ("./textures/book3.jpg", "book3");
   ("./textures/fur.jpeg", "cat")]%string.

(** The meshes loaded, in log order. *)
Definition loaded_meshes (evs : list Event) : list Mesh :=
  omap (λ e, match e with LoadMesh k => Some k | _ => None end) evs.

(** The first registered entry bearing a tag, with its position. *)
Fixpoint first_tagged (t : string) (l : list TEXTURE_INFO) (i : Z)
  : option (Z * TEXTURE_INFO) :=
  match l with
  | [] => None
  | e :: rest => if String.eqb (tag e) t then Some (i, e) else first_tagged t rest (i + 1)
  end.


(** A scene manager that was given no shader manager, with the four
    defined materials. *)
Definition detached_scene : State :=
  {| m_pShaderManager := false;
     m_textureIDs := replicate texture_capacity {| ID := 0; tag := EmptyString |};
     m_loadedTextures := 0;
     m_objectMaterials := materials_defined;
     gl := {| gl_names := ∅; gl_objects := ∅; gl_active := 0; gl_bound := ∅ |};
     calls := [] |}.

(** A scene manager whose texture array is full. *)
Definition full_scene : State :=
  {| m_pShaderManager := true;
     m_textureIDs := replicate texture_capacity {| ID := 1; tag := "floor" |};
     m_loadedTextures := 16;
     m_objectMaterials := [];
     gl := {| gl_names := {[1]}; gl_objects := ∅; gl_active := 0; gl_bound := ∅ |};
     calls := [] |}.

(** A scene manager whose counter has run past the texture array. *)
Definition overrun_scene : State :=
  {| m_pShaderManager := true;
     m_textureIDs := replicate texture_capacity {| ID := 1; tag := "floor" |};
     m_loadedTextures := 17;
     m_objectMaterials := [];
     gl := {| gl_names := {[1]}; gl_objects := ∅; gl_active := 0; gl_bound := ∅ |};
     calls := [] |}.

(** ** Texture registry and scene preparation

    Two things come from outside the program: the image decoder and the
    texture names the GL implementation hands out.  [stbi_load flip file]
    is the decoder ([None]: the file could not be read or parsed);
    [gen_name used] is the name [glGenTextures] returns when the names in
    [used] are taken.  OpenGL promises only that the name is not in use and
    is not 0. *)

Section Textures.

Variable stbi_load : bool → string → option Image.
Variable gen_name : gset Z → Z.
Hypothesis gen_name_fresh : ∀ used : gset Z, (gen_name used ∉ used) ∧ gen_name used ≠ 0.

(** *** The GL calls the scene manager makes

    First as functions on the GL state, then as calls. *)

(** [glGenTextures(1, &id)] *)
Definition GenTextures (g : GLState) : Z * GLState :=
  let id := gen_name (gl_names g) in
  (id, {| gl_names := {[id]} ∪ gl_names g; gl_objects := gl_objects g;
          gl_active := gl_active g; gl_bound := gl_bound g |}).

(** [glActiveTexture(GL_TEXTURE0 + i)] *)
Definition ActiveTexture (i : Z) (g : GLState) : GLState :=
  {| gl_names := gl_names g; gl_objects := gl_objects g;
     gl_active := i; gl_bound := gl_bound g |}.

(** [glBindTexture(GL_TEXTURE_2D, id)]: binds on the active unit; a name
    bound for the first time gets its texture object. *)
Definition BindTexture (id : Z) (g : GLState) : GLState :=
  {| gl_names := gl_names g;
     gl_objects :=
       match gl_objects g !! id with
       | Some _ => gl_objects g
       | None => if decide (id = 0) then gl_objects g
                 else <[id := GLTexture_new]> (gl_objects g)
       end;
     gl_active := gl_active g;
     gl_bound := <[gl_active g := id]> (gl_bound g) |}.

(** The texture the [GL_TEXTURE_2D] target of the active unit refers to. *)
Definition bound_texture (g : GLState) : Z := default 0 (gl_bound g !! gl_active g).

Definition update_bound (f : GLTexture → GLTexture) (g : GLState) : GLState :=
  let id := bound_texture g in
  {| gl_names := gl_names g;
     gl_objects := <[id := f (default GLTexture_new (gl_objects g !! id))]> (gl_objects g);
     gl_active := gl_active g; gl_bound := gl_bound g |}.

(** [glTexParameteri(GL_TEXTURE_2D, pname, value)] *)
Definition TexParameteri (pname : TexParam) (value : GLenum) : GLState → GLState :=
  update_bound (set_param pname value).

(** [glTexImage2D(GL_TEXTURE_2D, 0, internal, w, h, 0, fmt, GL_UNSIGNED_BYTE, data)] *)
Definition TexImage2D (internal : GLenum) (w h : Z) (fmt : GLenum) (data : list Z)
  : GLState → GLState :=
  update_bound (set_level0 {| internalformat := internal; tex_width := w;
                              tex_height := h; format := fmt; pixels := data |}).

(** [glGenerateMipmap(GL_TEXTURE_2D)] *)
Definition GenerateMipmap : GLState → GLState := update_bound set_mipmapped.

Definition gl_call (f : GLState → GLState) : M unit :=
  modify (λ s, with_gl (f (gl s)) s).

Definition glGenTextures : M Z := λ s,
  let (id, g) := GenTextures (gl s) in Ok (id, with_gl g s).
Definition glActiveTexture (i : Z) : M unit := gl_call (ActiveTexture i).
Definition glBindTexture (id : Z) : M unit := gl_call (BindTexture id).
Definition glTexParameteri (pname : TexParam) (value : GLenum) : M unit :=
  gl_call (TexParameteri pname value).
Definition glTexImage2D (internal : GLenum) (w h : Z) (fmt : GLenum) (data : list Z)
  : M unit :=
  gl_call (TexImage2D internal w h fmt data).
Definition glGenerateMipmap : M unit := gl_call GenerateMipmap.

(** *** Texture registry *)

(** [m_textureIDs[i].ID = v] (also how [glGenTextures(1, &m_textureIDs[i].ID)]
    stores its result); an index outside the array is undefined. *)
Definition store_ID (i : Z) (v : Z) : M unit := λ s,
  if (0 <=? i) && (i <? Z.of_nat (length (m_textureIDs s))) then
    Ok (tt, with_textures
              (alter (λ e, {| ID := v; tag := tag e |}) (Z.to_nat i) (m_textureIDs s))
              (m_loadedTextures s) s)
  else Undefined.

(** [m_textureIDs[i].tag = v] *)
Definition store_tag (i : Z) (v : string) : M unit := λ s,
  if (0 <=? i) && (i <? Z.of_nat (length (m_textureIDs s))) then
    Ok (tt, with_textures
              (alter (λ e, {| ID := ID e; tag := v |}) (Z.to_nat i) (m_textureIDs s))
              (m_loadedTextures s) s)
  else Undefined.

(** [CreateGLTexture].  Console output is not modelled.  The three-way
    branch on [colorChannels] either uploads the pixels or returns [false]
    from the function; [uploaded] carries which happened. *)
Definition CreateGLTexture (filename : string) (tag0 : string) : M bool :=
  match stbi_load true filename with
  | Some image =>
      let width := img_width image in
      let height := img_height image in
      let colorChannels := img_channels image in
      textureID ← glGenTextures;
      glBindTexture textureID;;
      glTexParameteri GL_TEXTURE_WRAP_S GL_REPEAT;;
      glTexParameteri GL_TEXTURE_WRAP_T GL_REPEAT;;
      glTexParameteri GL_TEXTURE_MIN_FILTER GL_LINEAR;;
      glTexParameteri GL_TEXTURE_MAG_FILTER GL_LINEAR;;
      uploaded ←
        (if colorChannels =? 3 then
           (glTexImage2D GL_RGB8 width height GL_RGB (img_data image);; mret true)
         else if colorChannels =? 4 then
           (glTexImage2D GL_RGBA8 width height GL_RGBA (img_data image);; mret true)
         else mret false);
      if uploaded : bool then
        (glGenerateMipmap;;
         glBindTexture 0;;
         i ← read (λ s, Ok (m_loadedTextures s));
         store_ID i textureID;;
         store_tag i tag0;;
         modify (λ s, with_textures (m_textureIDs s) (m_loadedTextures s + 1) s);;
         mret true)
      else mret false
  | None => mret false
  end.

(** An image [CreateGLTexture] accepts: the file decodes, into three or
    four channels. *)
Definition usable (filename : string) (image : Image) : Prop :=
  stbi_load true filename = Some image ∧
  (img_channels image = 3 ∨ img_channels image = 4).

(** The texture object a successful [CreateGLTexture] leaves behind. *)
Definition loaded_texture (image : Image) : GLTexture :=
  {| wrap_s := GL_REPEAT; wrap_t := GL_REPEAT;
     min_filter := GL_LINEAR; mag_filter := GL_LINEAR;
     level0 := Some {| internalformat := if img_channels image =? 3 then GL_RGB8 else GL_RGBA8;
                       tex_width := img_width image; tex_height := img_height image;
                       format := if img_channels image =? 3 then GL_RGB else GL_RGBA;
                       pixels := img_data image |};
     mipmapped := true |}.

(** The GL state after a successful [CreateGLTexture]: one more name, its
    texture object, and the active unit bound to 0 again. *)
Definition gl_after_load (image : Image) (g : GLState) : GLState :=
  let id := gen_name (gl_names g) in
  {| gl_names := {[id]} ∪ gl_names g;
     gl_objects := <[id := loaded_texture image]> (gl_objects g);
     gl_active := gl_active g;
     gl_bound := <[gl_active g := 0]> (gl_bound g) |}.

(** The loop of [BindGLTextures]; [remaining = 0] is [i < m_loadedTextures]
    failing. *)
Fixpoint BindGLTextures_from (remaining : nat) (i : Z) : M unit :=
  match remaining with
  | O => mret tt
  | S r =>
      glActiveTexture i;;
      e ← read (λ s, match m_textureIDs s !! Z.to_nat i with
                     | Some e => Ok e
                     | None => Undefined
                     end);
      glBindTexture (ID e);;
      BindGLTextures_from r (i + 1)
  end.

Definition BindGLTextures : M unit := λ s,
  BindGLTextures_from (Z.to_nat (m_loadedTextures s)) 0 s.

(** The loop of [DestroyGLTextures]. *)
Fixpoint DestroyGLTextures_from (remaining : nat) (i : Z) : M unit :=
  match remaining with
  | O => mret tt
  | S r =>
      id ← glGenTextures;
      store_ID i id;;
      DestroyGLTextures_from r (i + 1)
  end.

Definition DestroyGLTextures : M unit := λ s,
  DestroyGLTextures_from (Z.to_nat (m_loadedTextures s)) 0 s.

(** *** Scene preparation *)

Definition LoadSceneTextures : M unit :=
  bReturn ← CreateGLTexture "./textures/wood.jpg" "floor";
  bReturn ← CreateGLTexture "./textures/wall.jpg" "wall";
  bReturn ← CreateGLTexture "./textures/tan.jpg" "vase";
  bReturn ← CreateGLTexture "./textures/red.jpeg" "book";
  bReturn ← CreateGLTexture "./textures/brick.jpeg" "brick";
  bReturn ← CreateGLTexture "./textures/glass.jpg" "window";
  bReturn ← CreateGLTexture "./textures/green.jpg" "book1";
  bReturn ← CreateGLTexture "./textures/blue.jpg" "book2";
  bReturn ← CreateGLTexture "./textures/desk.jpg" "desk";
  bReturn ← CreateGLTexture "./textures/book3.jpg" "book3";
  bReturn ← CreateGLTexture "./textures/fur.jpeg" "cat";
  BindGLTextures.

Definition PrepareScene : M unit :=
  LoadSceneTextures;;
  DefineObjectMaterials;;
  SetupSceneLights;;
  LoadXMesh Plane;;
  LoadXMesh Sphere;;
  LoadXMesh Torus;;
  LoadXMesh TaperedCylinder;;
  LoadXMesh Box;;
  LoadXMesh Cylinder;;
  LoadXMesh Prism.

(** A sequence of [CreateGLTexture] calls, one per (file, tag) pair, as
    [LoadSceneTextures] makes them. *)
Fixpoint load_textures (loads : list (string * string)) : M unit :=
  match loads with
  | [] => mret tt
  | (filename, tag0) :: rest =>
      bReturn ← CreateGLTexture filename tag0;
      load_textures rest
  end.

(** The registered entries, in load order. *)
Definition registered (s : State) : list TEXTURE_INFO :=
  take (Z.to_nat (m_loadedTextures s)) (m_textureIDs s).

(** Whether [CreateGLTexture] accepts a file: it decodes, into three or
    four channels. *)
Definition usableb (filename : string) : bool :=
  match stbi_load true filename with
  | Some image => (img_channels image =? 3) || (img_channels image =? 4)
  | None => false
  end.

(** The loads of a sequence that [CreateGLTexture] accepts. *)
Definition accepted (loads : list (string * string)) : list (string * string) :=
  filter (λ l, usableb l.1 = true) loads.


(** * Properties *)

(** ** Running member functions *)

Lemma bind_Ok {A B} (m : M A) (k : A → M B) (s s' : State) (a : A) :
  m s = Ok (a, s') → (m ≫= k) s = k a s'.
Proof. intros H. unfold mbind, M_bind. now rewrite H. Qed.

Lemma shader_call_attached name v s :
  m_pShaderManager s = true → shader_call name v s = Ok (tt, log [SetUniform name v] s).
Proof. intros H. unfold shader_call. now rewrite H. Qed.

Lemma log_log evs1 evs2 s : log evs2 (log evs1 s) = log (evs1 ++ evs2) s.
Proof. unfold log; simpl. now rewrite <- app_assoc. Qed.

Lemma log_nil s : log [] s = s.
Proof. destruct s; unfold log; simpl. now rewrite app_nil_r. Qed.

Lemma last_upload_app name evs1 evs2 acc :
  last_upload name (evs1 ++ evs2) acc = last_upload name evs2 (last_upload name evs1 acc).
Proof.
  revert acc. induction evs1 as [|e evs1 IH]; intros acc; simpl; [reflexivity|].
  destruct e; apply IH.
Qed.

Lemma uniform_log_last name v evs s :
  uniform name (log (evs ++ [SetUniform name v]) s) = Some v.
Proof.
  unfold uniform, log; simpl. rewrite !last_upload_app. simpl.
  now rewrite String.eqb_refl.
Qed.

(** ** Lookups by tag *)

Section Scan.
Variable ids : list TEXTURE_INFO.
Variable t : string.

Lemma FindTextureSlot_from_miss n k :
  (k + n ≤ length ids)%nat →
  (∀ j e, (k ≤ j < k + n)%nat → ids !! j = Some e → tag e ≠ t) →
  FindTextureSlot_from ids t n (Z.of_nat k) = Ok (-1).
Proof.
  revert k. induction n as [|n IH]; intros k Hlen Hno; simpl; [reflexivity|].
  rewrite Nat2Z.id.
  destruct (ids !! k) as [e|] eqn:He.
  - destruct (String.eqb_spec (tag e) t) as [Heq|Hne].
    + exfalso. apply (Hno k e); [lia|assumption|assumption].
    + replace (Z.of_nat k + 1) with (Z.of_nat (S k)) by lia.
      apply IH; [lia|]. intros j e' Hj. apply Hno. lia.
  - apply lookup_ge_None in He. lia.
Qed.

Lemma FindTextureID_from_miss n k :
  (k + n ≤ length ids)%nat →
  (∀ j e, (k ≤ j < k + n)%nat → ids !! j = Some e → tag e ≠ t) →
  FindTextureID_from ids t n (Z.of_nat k) = Ok (-1).
Proof.
  revert k. induction n as [|n IH]; intros k Hlen Hno; simpl; [reflexivity|].
  rewrite Nat2Z.id.
  destruct (ids !! k) as [e|] eqn:He.
  - destruct (String.eqb_spec (tag e) t) as [Heq|Hne].
    + exfalso. apply (Hno k e); [lia|assumption|assumption].
    + replace (Z.of_nat k + 1) with (Z.of_nat (S k)) by lia.
      apply IH; [lia|]. intros j e' Hj. apply Hno. lia.
  - apply lookup_ge_None in He. lia.
Qed.

Lemma FindTextureSlot_from_hit n k i e :
  (k ≤ i < k + n)%nat → ids !! i = Some e → tag e = t →
  (∀ j e', (k ≤ j < i)%nat → ids !! j = Some e' → tag e' ≠ t) →
  FindTextureSlot_from ids t n (Z.of_nat k) = Ok (Z.of_nat i).
Proof.
  revert k. induction n as [|n IH]; intros k Hi He Ht Hno; simpl; [lia|].
  rewrite Nat2Z.id.
  destruct (decide (k = i)) as [->|Hki].
  - rewrite He. rewrite <- Ht, String.eqb_refl. reflexivity.
  - destruct (ids !! k) as [e'|] eqn:He'.
    + destruct (String.eqb_spec (tag e') t) as [Heq|Hne].
      * exfalso. apply (Hno k e'); [lia|assumption|assumption].
      * replace (Z.of_nat k + 1) with (Z.of_nat (S k)) by lia.
        apply IH; [lia|assumption|assumption|]. intros j e'' Hj. apply Hno. lia.
    + apply lookup_ge_None in He'. apply lookup_lt_Some in He. lia.
Qed.

Lemma FindTextureID_from_hit n k i e :
  (k ≤ i < k + n)%nat → ids !! i = Some e → tag e = t →
  (∀ j e', (k ≤ j < i)%nat → ids !! j = Some e' → tag e' ≠ t) →
  FindTextureID_from ids t n (Z.of_nat k) = Ok (int_of_GLuint (ID e)).
Proof.
  revert k. induction n as [|n IH]; intros k Hi He Ht Hno; simpl; [lia|].
  rewrite Nat2Z.id.
  destruct (decide (k = i)) as [->|Hki].
  - rewrite He. rewrite <- Ht, String.eqb_refl. reflexivity.
  - destruct (ids !! k) as [e'|] eqn:He'.
    + destruct (String.eqb_spec (tag e') t) as [Heq|Hne].
      * exfalso. apply (Hno k e'); [lia|assumption|assumption].
      * replace (Z.of_nat k + 1) with (Z.of_nat (S k)) by lia.
        apply IH; [lia|assumption|assumption|]. intros j e'' Hj. apply Hno. lia.
    + apply lookup_ge_None in He'. apply lookup_lt_Some in He. lia.
Qed.

End Scan.

Lemma registered_lookup s j e :
  registered s !! j = Some e →
  (j < Z.to_nat (m_loadedTextures s))%nat ∧ m_textureIDs s !! j = Some e.
Proof.
  unfold registered. intros H.
  apply lookup_take_Some in H. tauto.
Qed.

Lemma registered_length s :
  m_loadedTextures s ≤ Z.of_nat (length (m_textureIDs s)) →
  length (registered s) = Z.to_nat (m_loadedTextures s).
Proof. intros H. unfold registered. rewrite length_take. lia. Qed.

Lemma FindTextureSlot_absent t s :
  m_loadedTextures s ≤ Z.of_nat (length (m_textureIDs s)) →
  Forall (λ e, tag e ≠ t) (registered s) →
  FindTextureSlot t s = Ok (-1).
Proof.
  intros Hlen Hno. unfold FindTextureSlot.
  apply (FindTextureSlot_from_miss _ _ _ 0%nat); [lia|].
  intros j e Hj He.
  rewrite Forall_lookup in Hno. apply (Hno j).
  unfold registered. rewrite lookup_take_lt by lia. exact He.
Qed.

Lemma FindTextureID_absent t s :
  m_loadedTextures s ≤ Z.of_nat (length (m_textureIDs s)) →
  Forall (λ e, tag e ≠ t) (registered s) →
  FindTextureID t s = Ok (-1).
Proof.
  intros Hlen Hno. unfold FindTextureID.
  apply (FindTextureID_from_miss _ _ _ 0%nat); [lia|].
  intros j e Hj He.
  rewrite Forall_lookup in Hno. apply (Hno j).
  unfold registered. rewrite lookup_take_lt by lia. exact He.
Qed.

Lemma FindMaterial_scan_miss ms t out :
  Forall (λ m, mtag m ≠ t) ms → FindMaterial_scan ms t out = (false, out).
Proof.
  induction 1 as [|m ms Hm _ IH]; simpl; [reflexivity|].
  destruct (String.eqb_spec (mtag m) t); [contradiction|exact IH].
Qed.

Lemma FindMaterial_scan_hit before m after t out :
  mtag m = t → Forall (λ m', mtag m' ≠ t) before →
  FindMaterial_scan (before ++ m :: after) t out =
    (true, set_shininess (shininess m)
             (set_specularColor (specularColor m)
                (set_diffuseColor (diffuseColor m) out))).
Proof.
  intros Ht Hno. induction Hno as [|m' ms Hm' _ IH]; simpl.
  - now rewrite <- Ht, String.eqb_refl.
  - destruct (String.eqb_spec (mtag m') t); [contradiction|exact IH].
Qed.

(** ** Material lookup and upload *)

Lemma FindMaterial_empty t out s :
  m_objectMaterials s = [] → FindMaterial t out s = (false, out).
Proof. intros H. unfold FindMaterial. now rewrite H. Qed.

Lemma FindMaterial_unmatched t out s :
  m_objectMaterials s ≠ [] → Forall (λ m, mtag m ≠ t) (m_objectMaterials s) →
  FindMaterial t out s = (true, out).
Proof.
  intros Hne Hno. unfold FindMaterial.
  destruct (m_objectMaterials s) as [|m ms] eqn:E; [congruence|].
  simpl length. simpl Nat.eqb. cbv iota.
  now rewrite (FindMaterial_scan_miss _ _ _ Hno).
Qed.

Lemma SetShaderMaterial_unmatched t s :
  m_pShaderManager s = true →
  m_objectMaterials s ≠ [] → Forall (λ m, mtag m ≠ t) (m_objectMaterials s) →
  SetShaderMaterial t s =
    Ok (tt, log [SetUniform "material.diffuseColor" (UVec3 Indeterminate);
                 SetUniform "material.specularColor" (UVec3 Indeterminate);
                 SetUniform "material.shininess" (UFloat Indeterminate)] s).
Proof.
  intros Hsh Hne Hno. unfold SetShaderMaterial.
  rewrite (FindMaterial_unmatched _ _ _ Hne Hno).
  destruct (m_objectMaterials s) as [|m ms]; [congruence|].
  simpl length. simpl Nat.ltb. cbv iota.
  unfold setVec3Value, setFloatValue, mbind, M_bind.
  rewrite shader_call_attached by assumption.
  rewrite shader_call_attached by assumption.
  rewrite shader_call_attached by assumption.
  now rewrite !log_log.
Qed.

Lemma DefineObjectMaterials_run s :
  DefineObjectMaterials s =
    Ok (tt, with_materials (m_objectMaterials s ++ materials_defined) s).
Proof.
  unfold DefineObjectMaterials, push_material, modify, mbind, M_bind; simpl.
  unfold with_materials; simpl. rewrite <- !app_assoc. reflexivity.
Qed.

Lemma materials_defined_no_tag t :
  t ≠ "clay" → t ≠ "wood" → t ≠ "glass" → t ≠ EmptyString →
  Forall (λ m, mtag m ≠ t) materials_defined.
Proof.
  intros. unfold materials_defined. repeat constructor; simpl; congruence.
Qed.

(** C8.  Run on a scene manager with no material defined,
    [DefineObjectMaterials] leaves exactly four entries, tagged "clay",
    "wood", "glass" and the empty string, in that order.  No entry is tagged
    "cloth": the loop of [FindMaterial "cloth"] matches nothing and leaves
    the out-parameter alone.  The third entry keeps the glass values
    (diffuse (0.2,0.2,0.2), specular (1,1,1), shininess 95) and the fourth
    is a default-constructed material. *)
Theorem DefineObjectMaterials_four_entries (s : State) :
  m_objectMaterials s = [] →
  ∃ s', DefineObjectMaterials s = Ok (tt, s') ∧
    mtag <$> m_objectMaterials s' = ["clay"; "wood"; "glass"; EmptyString] ∧
    Forall (λ m, mtag m ≠ "cloth") (m_objectMaterials s') ∧
    (∀ out, FindMaterial_scan (m_objectMaterials s') "cloth" out = (false, out)) ∧
    (∀ out, snd (FindMaterial "cloth" out s') = out) ∧
    (∃ glass, m_objectMaterials s' !! 2%nat = Some glass ∧ mtag glass = "glass" ∧
       diffuseColor glass = Holds (glm.Vec3 0.2 0.2 0.2) ∧
       specularColor glass = Holds (glm.Vec3 1.0 1.0 1.0) ∧
       shininess glass = Holds 95.0%R) ∧
    m_objectMaterials s' !! 3%nat = Some OBJECT_MATERIAL_default.
Proof.
  intros Hempty. eexists. split; [apply DefineObjectMaterials_run|].
  rewrite Hempty. simpl m_objectMaterials.
  assert (Hno : Forall (λ m, mtag m ≠ "cloth") materials_defined)
    by (apply materials_defined_no_tag; discriminate).
  split; [reflexivity|].
  split; [exact Hno|].
  split; [intros out; apply FindMaterial_scan_miss, Hno|].
  split.
  - intros out. rewrite FindMaterial_unmatched; [reflexivity|discriminate|exact Hno].
  - split; [|reflexivity].
    eexists. split; [reflexivity|]. repeat split.
Qed.

(** C2 (the code departs from it).  On the registry that
    [DefineObjectMaterials] builds, [FindMaterial] called with a tag that no
    entry bears still returns [true], and the out-parameter is what the
    caller passed in.  *)
Theorem FindMaterial_unmatched_returns_true (out : OBJECT_MATERIAL) :
  ∃ s, DefineObjectMaterials new_scene = Ok (tt, s) ∧
    Forall (λ m, mtag m ≠ "nonexistent") (m_objectMaterials s) ∧
    FindMaterial_scan (m_objectMaterials s) "nonexistent" out = (false, out) ∧
    FindMaterial "nonexistent" out s = (true, out).
Proof.
  eexists. split; [apply DefineObjectMaterials_run|].
  simpl m_objectMaterials.
  assert (Hno : Forall (λ m, mtag m ≠ "nonexistent") materials_defined)
    by (apply materials_defined_no_tag; discriminate).
  split; [exact Hno|].
  split; [apply FindMaterial_scan_miss, Hno|].
  apply FindMaterial_unmatched; [discriminate|exact Hno].
Qed.

(** C1 (the code departs from it).  After the materials are defined and
    "wood" has been uploaded, [SetShaderMaterial "nonexistent"] makes three
    more uploads, of the members of its never-assigned local [material]:
    the three material uniforms no longer hold the wood values. *)
Theorem SetShaderMaterial_unknown_tag_uploads :
  ∃ s1 s2 s3,
    DefineObjectMaterials new_scene = Ok (tt, s1) ∧
    SetShaderMaterial "wood" s1 = Ok (tt, s2) ∧
    uniform "material.diffuseColor" s2 = Some (UVec3 (Holds (glm.Vec3 0.2 0.2 0.3))) ∧
    uniform "material.specularColor" s2 = Some (UVec3 (Holds (glm.Vec3 0.0 0.0 0.0))) ∧
    uniform "material.shininess" s2 = Some (UFloat (Holds 0.1%R)) ∧
    SetShaderMaterial "nonexistent" s2 = Ok (tt, s3) ∧
    calls s3 = calls s2 ++
      [SetUniform "material.diffuseColor" (UVec3 Indeterminate);
       SetUniform "material.specularColor" (UVec3 Indeterminate);
       SetUniform "material.shininess" (UFloat Indeterminate)] ∧
    uniform "material.diffuseColor" s3 = Some (UVec3 Indeterminate) ∧
    uniform "material.specularColor" s3 = Some (UVec3 Indeterminate) ∧
    uniform "material.shininess" s3 = Some (UFloat Indeterminate).
Proof.
  eexists. eexists. eexists.
  split; [apply DefineObjectMaterials_run|].
  split; [reflexivity|].
  split; [reflexivity|]. split; [reflexivity|]. split; [reflexivity|].
  split.
  - apply SetShaderMaterial_unmatched; [reflexivity|discriminate|].
    apply materials_defined_no_tag; discriminate.
  - split; [reflexivity|]. repeat split.
Qed.

(** ** Texture lookup *)

(** C6.  Lookup stops at the first entry bearing the tag, whatever follows
    it.  When the registered textures are [before ++ e :: after] with no
    entry of [before] tagged [t] and [e] tagged [t], [FindTextureSlot t] is
    the position of [e] and [FindTextureID t] its handle (as an [int]);
    when the materials are [mbefore ++ m :: mafter] in the same way,
    [FindMaterial t] copies the diffuse colour, specular colour and
    shininess of [m] into the out-parameter.  [after] and [mafter] are free
    to repeat the tag. *)
Theorem lookup_returns_first_match (s : State) (t : string) :
  (∀ before e after,
     registered s = before ++ e :: after →
     tag e = t → Forall (λ e', tag e' ≠ t) before →
     FindTextureSlot t s = Ok (Z.of_nat (length before)) ∧
     FindTextureID t s = Ok (int_of_GLuint (ID e))) ∧
  (∀ mbefore m mafter out,
     m_objectMaterials s = mbefore ++ m :: mafter →
     mtag m = t → Forall (λ m', mtag m' ≠ t) mbefore →
     FindMaterial t out s =
       (true, set_shininess (shininess m)
                (set_specularColor (specularColor m)
                   (set_diffuseColor (diffuseColor m) out)))).
Proof.
  split.
  - intros before e after Hreg Ht Hno.
    assert (He : registered s !! length before = Some e).
    { rewrite Hreg. rewrite lookup_app_r by lia.
      now rewrite Nat.sub_diag. }
    destruct (registered_lookup _ _ _ He) as [Hlt Hid].
    assert (Hbefore : ∀ j e', (0 ≤ j < length before)%nat →
                        m_textureIDs s !! j = Some e' → tag e' ≠ t).
    { intros j e' Hj Hj'. rewrite Forall_lookup in Hno. apply (Hno j).
      assert (Hr : registered s !! j = Some e').
      { unfold registered. rewrite lookup_take_lt by lia. exact Hj'. }
      rewrite Hreg in Hr. rewrite lookup_app_l in Hr by lia. exact Hr. }
    split.
    + unfold FindTextureSlot.
      apply (FindTextureSlot_from_hit _ _ _ 0%nat _ e); auto. lia.
    + unfold FindTextureID.
      apply (FindTextureID_from_hit _ _ _ 0%nat (length before) e); auto. lia.
  - intros mbefore m mafter out Hms Ht Hno. unfold FindMaterial.
    rewrite Hms at 1.
    rewrite length_app. simpl length.
    replace (length mbefore + S (length mafter))%nat
      with (S (length mbefore + length mafter)) by lia.
    simpl Nat.eqb. cbv iota.
    rewrite Hms. now rewrite (FindMaterial_scan_hit _ _ _ _ _ Ht Hno).
Qed.

Lemma SetShaderTexture_attached t s slot :
  m_pShaderManager s = true → FindTextureSlot t s = Ok slot →
  SetShaderTexture t s =
    Ok (tt, log [SetUniform g_UseTextureName (UInt 1);
                 SetUniform g_TextureValueName (USampler2D slot)] s).
Proof.
  intros Hsh Hslot. unfold SetShaderTexture, if_shader. rewrite Hsh.
  unfold setIntValue, setSampler2DValue, mbind, M_bind.
  rewrite shader_call_attached by assumption.
  unfold read. change (FindTextureSlot t (log _ s)) with (FindTextureSlot t s).
  rewrite Hslot. rewrite shader_call_attached by assumption.
  now rewrite log_log.
Qed.

Lemma SetShaderTexture_detached t s :
  m_pShaderManager s = false → SetShaderTexture t s = Ok (tt, s).
Proof. intros Hsh. unfold SetShaderTexture, if_shader. now rewrite Hsh. Qed.

(** C5.  A tag that no registered texture bears is answered with the
    sentinel -1 by both lookups, and [SetShaderTexture] completes; with a
    shader manager attached it sets the use-texture flag to true and
    uploads -1 as the sampler (without one it does nothing at all). *)
Theorem SetShaderTexture_unknown_tag (s : State) (t : string) :
  m_loadedTextures s ≤ Z.of_nat (length (m_textureIDs s)) →
  Forall (λ e, tag e ≠ t) (registered s) →
  FindTextureID t s = Ok (-1) ∧
  FindTextureSlot t s = Ok (-1) ∧
  ∃ s', SetShaderTexture t s = Ok (tt, s') ∧
    (m_pShaderManager s = true →
       calls s' = calls s ++ [SetUniform "bUseTexture" (UInt 1);
                              SetUniform "objectTexture" (USampler2D (-1))] ∧
       uniform "bUseTexture" s' = Some (UInt 1) ∧
       uniform "objectTexture" s' = Some (USampler2D (-1))) ∧
    (m_pShaderManager s = false → s' = s).
Proof.
  intros Hlen Hno.
  pose proof (FindTextureSlot_absent _ _ Hlen Hno) as Hslot.
  split; [apply FindTextureID_absent; assumption|].
  split; [exact Hslot|].
  destruct (m_pShaderManager s) eqn:Hsh.
  - eexists. split; [apply SetShaderTexture_attached; eassumption|].
    split; [|discriminate]. intros _.
    split; [reflexivity|].
    split.
    + unfold uniform, log; simpl. rewrite !last_upload_app. reflexivity.
    + apply (uniform_log_last "objectTexture" _ [_]).
  - exists s. split; [apply SetShaderTexture_detached; exact Hsh|].
    split; [discriminate|reflexivity].
Qed.

(** ** Transform composition *)

Section Matrices.
Local Open Scope R_scope.

Ltac vec_ring :=
  unfold glm.mulv, glm.vadd, glm.vscale;
  cbn [glm.x4 glm.y4 glm.z4 glm.w4 glm.col0 glm.col1 glm.col2 glm.col3];
  f_equal; ring.

Lemma mulv_vadd a u w :
  glm.mulv a (glm.vadd u w) = glm.vadd (glm.mulv a u) (glm.mulv a w).
Proof. destruct a as [[] [] [] []], u, w. vec_ring. Qed.

Lemma mulv_vscale a u k :
  glm.mulv a (glm.vscale u k) = glm.vscale (glm.mulv a u) k.
Proof. destruct a as [[] [] [] []], u. vec_ring. Qed.

(** A product of matrices acts as the composition of its factors. *)
Lemma mulv_mul (a b : glm.mat4) (v : glm.vec4) :
  glm.mulv (a * b)%mat v = glm.mulv a (glm.mulv b v).
Proof.
  unfold glm.mul. unfold glm.mulv at 1.
  cbn [glm.col0 glm.col1 glm.col2 glm.col3].
  unfold glm.mulv at 6.
  now rewrite !mulv_vadd, !mulv_vscale.
Qed.

Lemma mulv_columns c0 c1 c2 c3 x y z w :
  glm.mulv (glm.Mat4 c0 c1 c2 c3) (glm.Vec4 x y z w) =
    glm.vadd (glm.vadd (glm.vadd (glm.vscale c0 x) (glm.vscale c1 y)) (glm.vscale c2 z))
             (glm.vscale c3 w).
Proof. reflexivity. Qed.

Lemma normalize_X : glm.normalize (glm.Vec3 1 0 0) = glm.Vec3 1 0 0.
Proof.
  unfold glm.normalize; cbn [glm.x3 glm.y3 glm.z3].
  replace (1 * 1 + 0 * 0 + 0 * 0) with 1 by ring. rewrite sqrt_1.
  f_equal; field.
Qed.

Lemma normalize_Y : glm.normalize (glm.Vec3 0 1 0) = glm.Vec3 0 1 0.
Proof.
  unfold glm.normalize; cbn [glm.x3 glm.y3 glm.z3].
  replace (0 * 0 + 1 * 1 + 0 * 0) with 1 by ring. rewrite sqrt_1.
  f_equal; field.
Qed.

Lemma normalize_Z : glm.normalize (glm.Vec3 0 0 1) = glm.Vec3 0 0 1.
Proof.
  unfold glm.normalize; cbn [glm.x3 glm.y3 glm.z3].
  replace (0 * 0 + 0 * 0 + 1 * 1) with 1 by ring. rewrite sqrt_1.
  f_equal; field.
Qed.

(** The three axis rotations, column by column. *)
Lemma rotate_X a :
  glm.rotate a (glm.Vec3 1 0 0) =
    glm.Mat4 (glm.Vec4 1 0 0 0) (glm.Vec4 0 (cos a) (sin a) 0)
             (glm.Vec4 0 (- sin a) (cos a) 0) (glm.Vec4 0 0 0 1).
Proof.
  unfold glm.rotate. rewrite normalize_X.
  unfold glm.identity, glm.vadd, glm.vscale.
  cbn [glm.x4 glm.y4 glm.z4 glm.w4 glm.col0 glm.col1 glm.col2 glm.col3
       glm.x3 glm.y3 glm.z3].
  f_equal; f_equal; ring.
Qed.

Lemma rotate_Y a :
  glm.rotate a (glm.Vec3 0 1 0) =
    glm.Mat4 (glm.Vec4 (cos a) 0 (- sin a) 0) (glm.Vec4 0 1 0 0)
             (glm.Vec4 (sin a) 0 (cos a) 0) (glm.Vec4 0 0 0 1).
Proof.
  unfold glm.rotate. rewrite normalize_Y.
  unfold glm.identity, glm.vadd, glm.vscale.
  cbn [glm.x4 glm.y4 glm.z4 glm.w4 glm.col0 glm.col1 glm.col2 glm.col3
       glm.x3 glm.y3 glm.z3].
  f_equal; f_equal; ring.
Qed.

Lemma rotate_Z a :
  glm.rotate a (glm.Vec3 0 0 1) =
    glm.Mat4 (glm.Vec4 (cos a) (sin a) 0 0) (glm.Vec4 (- sin a) (cos a) 0 0)
             (glm.Vec4 0 0 1 0) (glm.Vec4 0 0 0 1).
Proof.
  unfold glm.rotate. rewrite normalize_Z.
  unfold glm.identity, glm.vadd, glm.vscale.
  cbn [glm.x4 glm.y4 glm.z4 glm.w4 glm.col0 glm.col1 glm.col2 glm.col3
       glm.x3 glm.y3 glm.z3].
  f_equal; f_equal; ring.
Qed.

Lemma scale_point sc x y z w :
  glm.mulv (glm.scale sc) (glm.Vec4 x y z w) =
    glm.Vec4 (glm.x3 sc * x) (glm.y3 sc * y) (glm.z3 sc * z) w.
Proof.
  unfold glm.scale, glm.identity.
  cbn [glm.col0 glm.col1 glm.col2 glm.col3]. vec_ring.
Qed.

Lemma translate_point p x y z :
  glm.mulv (glm.translate p) (glm.Vec4 x y z 1) =
    glm.Vec4 (x + glm.x3 p) (y + glm.y3 p) (z + glm.z3 p) 1.
Proof.
  unfold glm.translate, glm.identity.
  cbn [glm.col0 glm.col1 glm.col2 glm.col3]. vec_ring.
Qed.

Lemma radians_90 : glm.radians 90 = PI / 2.
Proof. unfold glm.radians. field. Qed.

Lemma radians_0 : glm.radians 0 = 0.
Proof. unfold glm.radians. field. Qed.

End Matrices.

Lemma SetTransformations_attached sc rx ry rz pos s :
  m_pShaderManager s = true →
  SetTransformations sc rx ry rz pos s =
    Ok (tt, log [SetUniform g_ModelName
                   (UMat4 (glm.translate pos
                           * glm.rotate (glm.radians rz) (glm.Vec3 0 0 1)
                           * glm.rotate (glm.radians ry) (glm.Vec3 0 1 0)
                           * glm.rotate (glm.radians rx) (glm.Vec3 1 0 0)
                           * glm.scale sc)%mat)] s).
Proof.
  intros Hsh. unfold SetTransformations, if_shader. rewrite Hsh.
  unfold setMat4Value. now rewrite shader_call_attached.
Qed.

Lemma SetTransformations_detached sc rx ry rz pos s :
  m_pShaderManager s = false → SetTransformations sc rx ry rz pos s = Ok (tt, s).
Proof. intros Hsh. unfold SetTransformations, if_shader. now rewrite Hsh. Qed.

Lemma model_matrix_acts (t rz ry rx sc : glm.mat4) (v : glm.vec4) :
  glm.mulv (t * rz * ry * rx * sc)%mat v =
    glm.mulv t (glm.mulv rz (glm.mulv ry (glm.mulv rx (glm.mulv sc v)))).
Proof. now rewrite !mulv_mul. Qed.

(** The worked example of the transform composer: scale (2,1,1), a quarter
    turn about Y, translation (5,0,0) send the unit X point to (5,0,-2). *)
Lemma compose_example (s : State) :
  m_pShaderManager s = true →
  ∃ s' model,
    SetTransformations (glm.Vec3 2 1 1) 0 90 0 (glm.Vec3 5 0 0) s = Ok (tt, s') ∧
    uniform "model" s' = Some (UMat4 model) ∧
    glm.mulv model (glm.Vec4 1 0 0 1) = glm.Vec4 5 0 (-2) 1.
Proof.
  intros Hsh.
  eexists _, _. split; [apply SetTransformations_attached; exact Hsh|].
  split; [apply (uniform_log_last "model" _ [])|].
  rewrite model_matrix_acts. rewrite scale_point, rotate_X, rotate_Y, rotate_Z.
  rewrite radians_90, radians_0, cos_PI2, sin_PI2, cos_0, sin_0.
  unfold glm.translate, glm.identity.
  cbn [glm.col0 glm.col1 glm.col2 glm.col3 glm.x3 glm.y3 glm.z3].
  repeat (rewrite mulv_columns; unfold glm.vadd, glm.vscale;
          cbn [glm.x4 glm.y4 glm.z4 glm.w4]).
  f_equal; ring.
Qed.

(** C3.  With a shader manager attached, [SetTransformations] makes one
    upload, to the uniform "model", of the matrix
    Translate * RotateZ * RotateY * RotateX * Scale, each rotation built
    from its angle converted to radians.  Applied to a vector, that matrix
    scales first, then rotates about X, about Y, about Z, and translates
    last.  (Only this last part uses a law of real arithmetic; the rest
    holds by unfolding, however the scalar operations round.) *)
Theorem SetTransformations_model_matrix (s : State) (scaleXYZ : glm.vec3)
    (XrotationDegrees YrotationDegrees ZrotationDegrees : R) (positionXYZ : glm.vec3) :
  m_pShaderManager s = true →
  let Translate := glm.translate positionXYZ in
  let RotateZ := glm.rotate (glm.radians ZrotationDegrees) (glm.Vec3 0 0 1) in
  let RotateY := glm.rotate (glm.radians YrotationDegrees) (glm.Vec3 0 1 0) in
  let RotateX := glm.rotate (glm.radians XrotationDegrees) (glm.Vec3 1 0 0) in
  let Scale := glm.scale scaleXYZ in
  let model := (Translate * RotateZ * RotateY * RotateX * Scale)%mat in
  ∃ s', SetTransformations scaleXYZ XrotationDegrees YrotationDegrees
          ZrotationDegrees positionXYZ s = Ok (tt, s') ∧
    calls s' = calls s ++ [SetUniform "model" (UMat4 model)] ∧
    uniform "model" s' = Some (UMat4 model) ∧
    ∀ v, glm.mulv model v =
         glm.mulv Translate (glm.mulv RotateZ (glm.mulv RotateY
           (glm.mulv RotateX (glm.mulv Scale v)))).
Proof.
  intros Hsh Translate RotateZ RotateY RotateX Scale model.
  eexists. split; [apply SetTransformations_attached; assumption|].
  split; [reflexivity|].
  split; [apply (uniform_log_last "model" _ [])|].
  intros v. apply model_matrix_acts.
Qed.


(** ** Loading a texture *)

Lemma store_ID_tag (ids : list TEXTURE_INFO) (n : nat) (id : Z) (t : string) :
  alter (λ e, {| ID := ID e; tag := t |}) n
    (alter (λ e, {| ID := id; tag := tag e |}) n ids)
  = <[n := {| ID := id; tag := t |}]> ids.
Proof.
  revert n. induction ids as [|e ids IH]; intros [|n]; simpl; try reflexivity.
  f_equal. apply IH.
Qed.

Lemma gl_call_bind {B} (f : GLState → GLState) (k : unit → M B) s :
  (gl_call f ≫= k) s = k tt (with_gl (f (gl s)) s).
Proof. reflexivity. Qed.

Lemma bound_texture_bind id n o a b :
  bound_texture {| gl_names := n; gl_objects := o; gl_active := a;
                   gl_bound := <[a := id]> b |} = id.
Proof. unfold bound_texture; simpl. now rewrite lookup_insert_eq. Qed.

Lemma update_bound_at f id tex n o a b :
  bound_texture {| gl_names := n; gl_objects := <[id := tex]> o; gl_active := a;
                   gl_bound := b |} = id →
  update_bound f {| gl_names := n; gl_objects := <[id := tex]> o; gl_active := a;
                    gl_bound := b |}
  = {| gl_names := n; gl_objects := <[id := f tex]> o; gl_active := a; gl_bound := b |}.
Proof.
  intros Hb. unfold update_bound. rewrite Hb. simpl.
  now rewrite lookup_insert_eq, insert_insert_eq.
Qed.

Lemma BindTexture_fresh_object id g :
  id ≠ 0 →
  ∃ tex, BindTexture id g =
    {| gl_names := gl_names g; gl_objects := <[id := tex]> (gl_objects g);
       gl_active := gl_active g; gl_bound := <[gl_active g := id]> (gl_bound g) |}.
Proof.
  intros Hnz. unfold BindTexture.
  destruct (gl_objects g !! id) as [tex|] eqn:E.
  - exists tex. now rewrite (insert_id (gl_objects g) id tex E).
  - exists GLTexture_new. destruct (decide (id = 0)); [contradiction|reflexivity].
Qed.

(** The GL side of a successful load, whatever the name held before. *)
Lemma upload_sequence image id g :
  id ≠ 0 → img_channels image = 3 ∨ img_channels image = 4 →
  BindTexture 0
    (GenerateMipmap
       (TexImage2D (if img_channels image =? 3 then GL_RGB8 else GL_RGBA8)
          (img_width image) (img_height image)
          (if img_channels image =? 3 then GL_RGB else GL_RGBA) (img_data image)
          (TexParameteri GL_TEXTURE_MAG_FILTER GL_LINEAR
             (TexParameteri GL_TEXTURE_MIN_FILTER GL_LINEAR
                (TexParameteri GL_TEXTURE_WRAP_T GL_REPEAT
                   (TexParameteri GL_TEXTURE_WRAP_S GL_REPEAT
                      (BindTexture id g)))))))
  = {| gl_names := gl_names g;
       gl_objects := <[id := loaded_texture image]> (gl_objects g);
       gl_active := gl_active g;
       gl_bound := <[gl_active g := 0]> (gl_bound g) |}.
Proof.
  intros Hnz Hch.
  destruct (BindTexture_fresh_object id g Hnz) as [tex ->].
  unfold TexParameteri, TexImage2D, GenerateMipmap.
  rewrite !update_bound_at by apply bound_texture_bind.
  unfold BindTexture; simpl.
  rewrite lookup_insert_ne by congruence.
  rewrite insert_insert_eq. f_equal.
  destruct (gl_objects g !! 0); reflexivity.
Qed.

Lemma ret_bind {A B} (a : A) (k : A → M B) s : (mret a ≫= k) s = k a s.
Proof. reflexivity. Qed.

Lemma bind_bind {A B C} (m : M A) (f : A → M B) (k : B → M C) s :
  ((m ≫= f) ≫= k) s = (m ≫= λ a, f a ≫= k) s.
Proof. unfold mbind, M_bind. destruct (m s) as [[a s']|]; reflexivity. Qed.

Lemma read_bind {A B} (f : State → A) (k : A → M B) s :
  (read (λ s, Ok (f s)) ≫= k) s = k (f s) s.
Proof. reflexivity. Qed.

Lemma modify_bind {B} (f : State → State) (k : unit → M B) s :
  (modify f ≫= k) s = k tt (f s).
Proof. reflexivity. Qed.

Lemma glGenTextures_bind {B} (k : Z → M B) s :
  (glGenTextures ≫= k) s =
    k (gen_name (gl_names (gl s)))
      (with_gl {| gl_names := {[gen_name (gl_names (gl s))]} ∪ gl_names (gl s);
                  gl_objects := gl_objects (gl s); gl_active := gl_active (gl s);
                  gl_bound := gl_bound (gl s) |} s).
Proof. reflexivity. Qed.

Lemma gl_with_gl g s : gl (with_gl g s) = g.
Proof. reflexivity. Qed.

Lemma with_gl_twice g g' s : with_gl g (with_gl g' s) = with_gl g s.
Proof. reflexivity. Qed.

Lemma store_ID_bind {B} i v (k : unit → M B) s :
  0 ≤ i < Z.of_nat (length (m_textureIDs s)) →
  (store_ID i v ≫= k) s =
    k tt (with_textures
            (alter (λ e, {| ID := v; tag := tag e |}) (Z.to_nat i) (m_textureIDs s))
            (m_loadedTextures s) s).
Proof.
  intros Hi. unfold mbind, M_bind, store_ID.
  replace ((0 <=? i) && (i <? Z.of_nat (length (m_textureIDs s)))) with true;
    [reflexivity|].
  symmetry. apply andb_true_intro. split; [apply Z.leb_le|apply Z.ltb_lt]; lia.
Qed.

Lemma store_tag_bind {B} i v (k : unit → M B) s :
  0 ≤ i < Z.of_nat (length (m_textureIDs s)) →
  (store_tag i v ≫= k) s =
    k tt (with_textures
            (alter (λ e, {| ID := ID e; tag := v |}) (Z.to_nat i) (m_textureIDs s))
            (m_loadedTextures s) s).
Proof.
  intros Hi. unfold mbind, M_bind, store_tag.
  replace ((0 <=? i) && (i <? Z.of_nat (length (m_textureIDs s)))) with true;
    [reflexivity|].
  symmetry. apply andb_true_intro. split; [apply Z.leb_le|apply Z.ltb_lt]; lia.
Qed.

Lemma CreateGLTexture_undecoded filename tag0 s :
  stbi_load true filename = None →
  CreateGLTexture filename tag0 s = Ok (false, s).
Proof. intros H. unfold CreateGLTexture. now rewrite H. Qed.

Lemma CreateGLTexture_unsupported filename tag0 s image :
  stbi_load true filename = Some image →
  img_channels image ≠ 3 → img_channels image ≠ 4 →
  ∃ g, CreateGLTexture filename tag0 s = Ok (false, with_gl g s).
Proof.
  intros H H3 H4. unfold CreateGLTexture. rewrite H.
  apply Z.eqb_neq in H3, H4.
  unfold mbind at 1, M_bind at 1, glGenTextures. simpl.
  unfold glBindTexture, glTexParameteri. rewrite !gl_call_bind.
  rewrite H3, H4. unfold mbind, M_bind, mret, M_ret. eexists. reflexivity.
Qed.

Lemma CreateGLTexture_loaded filename tag0 s image :
  usable filename image →
  0 ≤ m_loadedTextures s < Z.of_nat (length (m_textureIDs s)) →
  CreateGLTexture filename tag0 s =
    Ok (true,
        with_textures
          (<[Z.to_nat (m_loadedTextures s) :=
               {| ID := gen_name (gl_names (gl s)); tag := tag0 |}]> (m_textureIDs s))
          (m_loadedTextures s + 1)
          (with_gl (gl_after_load image (gl s)) s)).
Proof.
  intros [Hload Hch] Hroom. unfold CreateGLTexture. rewrite Hload.
  destruct (gen_name_fresh (gl_names (gl s))) as [_ Hnz].
  unfold mbind at 1, M_bind at 1, glGenTextures. simpl.
  unfold glBindTexture, glTexParameteri. rewrite !gl_call_bind.
  rewrite !gl_with_gl, !with_gl_twice.
  set (g1 := {| gl_names := {[gen_name (gl_names (gl s))]} ∪ gl_names (gl s);
                gl_objects := gl_objects (gl s); gl_active := gl_active (gl s);
                gl_bound := gl_bound (gl s) |}).
  pose proof (upload_sequence image _ g1 Hnz Hch) as Hup.
  assert (Hrun : ∀ internal fmt,
    internal = (if img_channels image =? 3 then GL_RGB8 else GL_RGBA8) →
    fmt = (if img_channels image =? 3 then GL_RGB else GL_RGBA) →
    ((glTexImage2D internal (img_width image) (img_height image) fmt (img_data image)
        ≫= λ _, mret true)
       ≫= λ uploaded : bool,
            if uploaded
            then
              glGenerateMipmap ≫= λ _, gl_call (BindTexture 0) ≫= λ _,
              read (λ s0, Ok (m_loadedTextures s0)) ≫= λ i,
              store_ID i (gen_name (gl_names (gl s))) ≫= λ _,
              store_tag i tag0 ≫= λ _,
              modify (λ s0, with_textures (m_textureIDs s0) (m_loadedTextures s0 + 1) s0)
              ≫= λ _, mret true
            else mret false)
      (with_gl
         (TexParameteri GL_TEXTURE_MAG_FILTER GL_LINEAR
            (TexParameteri GL_TEXTURE_MIN_FILTER GL_LINEAR
               (TexParameteri GL_TEXTURE_WRAP_T GL_REPEAT
                  (TexParameteri GL_TEXTURE_WRAP_S GL_REPEAT
                     (BindTexture (gen_name (gl_names (gl s))) g1))))) s)
    = Ok (true,
          with_textures
            (<[Z.to_nat (m_loadedTextures s) :=
                 {| ID := gen_name (gl_names (gl s)); tag := tag0 |}]> (m_textureIDs s))
            (m_loadedTextures s + 1)
            (with_gl (gl_after_load image (gl s)) s))).
  { intros internal fmt -> ->.
    unfold glTexImage2D. rewrite bind_bind, gl_call_bind, ret_bind.
    unfold glGenerateMipmap. rewrite !gl_call_bind.
    rewrite !gl_with_gl, !with_gl_twice. rewrite Hup.
    rewrite read_bind.
    rewrite store_ID_bind by exact Hroom.
    rewrite store_tag_bind by (simpl; rewrite length_alter; exact Hroom).
    rewrite modify_bind. simpl. rewrite store_ID_tag. reflexivity. }
  destruct Hch as [H3|H4].
  - rewrite H3. simpl Z.eqb. cbv iota. apply Hrun; now rewrite H3.
  - rewrite H4. simpl Z.eqb. cbv iota. apply Hrun; now rewrite H4.
Qed.

Lemma registered_after_load s e :
  0 ≤ m_loadedTextures s < Z.of_nat (length (m_textureIDs s)) →
  ∀ s0,
  registered (with_textures (<[Z.to_nat (m_loadedTextures s) := e]> (m_textureIDs s))
                (m_loadedTextures s + 1) s0)
  = registered s ++ [e].
Proof.
  intros Hroom s0. unfold registered; simpl.
  replace (Z.to_nat (m_loadedTextures s + 1)) with (S (Z.to_nat (m_loadedTextures s))) by lia.
  rewrite (take_S_r _ _ e) by (apply list_lookup_insert_eq; lia).
  now rewrite take_insert_ge by lia.
Qed.

(** C7.  [CreateGLTexture] returns [true] exactly when the file decodes
    into three or four channels.  On success (with room left in
    [m_textureIDs]) the registered entries grow by exactly the one entry
    made of the handle [glGenTextures] returned and the tag, and
    [m_loadedTextures] advances by one; on failure it returns [false] and
    the array and the counter are as before. *)
Theorem CreateGLTexture_result (s : State) (filename tag0 : string) :
  ((∃ image, usable filename image) →
   0 ≤ m_loadedTextures s < Z.of_nat (length (m_textureIDs s))) →
  ∃ b s', CreateGLTexture filename tag0 s = Ok (b, s') ∧
    (b = true ↔ ∃ image, usable filename image) ∧
    (b = true →
       registered s' =
         registered s ++ [{| ID := gen_name (gl_names (gl s)); tag := tag0 |}] ∧
       m_loadedTextures s' = m_loadedTextures s + 1 ∧
       length (m_textureIDs s') = length (m_textureIDs s)) ∧
    (b = false →
       m_textureIDs s' = m_textureIDs s ∧
       m_loadedTextures s' = m_loadedTextures s ∧
       registered s' = registered s).
Proof.
  intros Hroom.
  destruct (stbi_load true filename) as [image|] eqn:Hload.
  - destruct (decide (img_channels image = 3 ∨ img_channels image = 4)) as [Hch|Hch].
    + assert (Hus : usable filename image) by (split; assumption).
      specialize (Hroom (ex_intro _ image Hus)).
      exists true. eexists. split; [apply CreateGLTexture_loaded; eassumption|].
      split; [split; [intros _; eauto|reflexivity]|].
      split; [|discriminate]. intros _.
      split; [apply registered_after_load; exact Hroom|].
      split; [reflexivity|]. simpl. apply length_insert.
    + destruct (CreateGLTexture_unsupported filename tag0 s image Hload) as [g Hg];
        [tauto|tauto|].
      exists false. eexists. split; [exact Hg|].
      split.
      { split; [discriminate|]. intros [image' [Hload' Hch']].
        rewrite Hload in Hload'. injection Hload' as <-. contradiction. }
      split; [discriminate|]. intros _. repeat split.
  - exists false, s. split; [apply CreateGLTexture_undecoded; exact Hload|].
    split.
    { split; [discriminate|]. intros [image' [Hload' _]]. congruence. }
    split; [discriminate|]. intros _. repeat split.
Qed.

(** With the array full, a usable image makes [CreateGLTexture] write past
    its end. *)
Lemma CreateGLTexture_full filename tag0 s image :
  usable filename image →
  m_loadedTextures s = Z.of_nat (length (m_textureIDs s)) →
  CreateGLTexture filename tag0 s = Undefined.
Proof.
  intros [Hload Hch] Hfull. unfold CreateGLTexture. rewrite Hload.
  rewrite glGenTextures_bind.
  unfold glBindTexture, glTexParameteri. rewrite !gl_call_bind.
  assert (Hrest : ∀ g,
    (read (λ s0, Ok (m_loadedTextures s0)) ≫= λ i,
     store_ID i (gen_name (gl_names (gl s))) ≫= λ _,
     store_tag i tag0 ≫= λ _,
     modify (λ s0, with_textures (m_textureIDs s0) (m_loadedTextures s0 + 1) s0)
     ≫= λ _, mret true) (with_gl g s) = Undefined).
  { intros g. rewrite read_bind. unfold mbind, M_bind, store_ID. simpl.
    rewrite Hfull, Z.ltb_irrefl, andb_false_r. reflexivity. }
  destruct Hch as [H|H]; rewrite H; simpl Z.eqb; cbv iota;
    unfold glTexImage2D, glGenerateMipmap;
    rewrite bind_bind, gl_call_bind, ret_bind, !gl_call_bind;
    rewrite ?gl_with_gl, ?with_gl_twice; apply Hrest.
Qed.

(** ** Loading a sequence of textures and binding them *)

Lemma load_textures_run loads : ∀ s,
  Forall (λ l, ∃ image, usable l.1 image) loads →
  0 ≤ m_loadedTextures s →
  m_loadedTextures s + Z.of_nat (length loads) ≤ Z.of_nat (length (m_textureIDs s)) →
  ∃ s', load_textures loads s = Ok (tt, s') ∧
    m_loadedTextures s' = m_loadedTextures s + Z.of_nat (length loads) ∧
    length (m_textureIDs s') = length (m_textureIDs s) ∧
    (∀ j, (j < Z.to_nat (m_loadedTextures s))%nat →
          m_textureIDs s' !! j = m_textureIDs s !! j) ∧
    (∀ k f t, loads !! k = Some (f, t) →
       ∃ id image,
         m_textureIDs s' !! (Z.to_nat (m_loadedTextures s) + k)%nat
           = Some {| ID := id; tag := t |} ∧
         usable f image ∧ (id ∉ gl_names (gl s)) ∧ id ≠ 0 ∧
         gl_objects (gl s') !! id = Some (loaded_texture image)) ∧
    gl_names (gl s) ⊆ gl_names (gl s') ∧
    (∀ x, x ∈ gl_names (gl s) → gl_objects (gl s') !! x = gl_objects (gl s) !! x) ∧
    m_pShaderManager s' = m_pShaderManager s ∧
    m_objectMaterials s' = m_objectMaterials s ∧
    calls s' = calls s.
Proof.
  induction loads as [|[f t] loads IH]; intros s Hus Hn Hroom.
  - exists s. simpl. split; [reflexivity|]. split; [lia|].
    repeat split; try reflexivity. intros k f t Hk. discriminate.
  - apply Forall_cons in Hus as [[image Him] Hus]. simpl in Him.
    simpl length in Hroom.
    assert (Hroom1 : 0 ≤ m_loadedTextures s < Z.of_nat (length (m_textureIDs s))) by lia.
    pose proof (CreateGLTexture_loaded f t s image Him Hroom1) as Hrun.
    destruct (gen_name_fresh (gl_names (gl s))) as [Hfresh Hnz].
    set (s1 := with_textures _ _ _) in Hrun.
    destruct (IH s1 Hus) as (s' & Hrest & Hcount & Hlen & Hkeep & Hnew & Hnames
                              & Hobj & Hsh & Hmat & Hcalls).
    { simpl. lia. }
    { simpl. rewrite length_insert. lia. }
    exists s'. split.
    { simpl load_textures. rewrite (bind_Ok _ _ _ _ _ Hrun). exact Hrest. }
    simpl in Hcount, Hlen, Hkeep, Hnew, Hnames, Hobj, Hsh, Hmat, Hcalls.
    rewrite length_insert in Hlen.
    split; [simpl length; lia|]. split; [exact Hlen|].
    split.
    { intros j Hj. rewrite Hkeep by lia. apply list_lookup_insert_ne. lia. }
    split.
    { intros [|k] f' t' Hk.
      - simpl in Hk. injection Hk as <- <-.
        exists (gen_name (gl_names (gl s))), image. rewrite Nat.add_0_r.
        rewrite Hkeep by lia.
        split; [apply list_lookup_insert_eq; lia|].
        split; [exact Him|]. split; [exact Hfresh|]. split; [exact Hnz|].
        rewrite Hobj by (apply elem_of_union_l, elem_of_singleton; reflexivity).
        apply lookup_insert_eq.
      - simpl in Hk. destruct (Hnew k f' t' Hk) as (id' & image' & He & Hu & Hf & Hz & Ho).
        exists id', image'.
        replace (Z.to_nat (m_loadedTextures s) + S k)%nat
          with (Z.to_nat (m_loadedTextures s + 1) + k)%nat by lia.
        split; [exact He|]. split; [exact Hu|].
        split; [|split; [exact Hz|exact Ho]].
        intros Hin. apply Hf. apply elem_of_union_r. exact Hin. }
    split.
    { intros x Hx. apply Hnames. apply elem_of_union_r. exact Hx. }
    split.
    { intros x Hx. rewrite Hobj by (apply elem_of_union_r; exact Hx).
      apply lookup_insert_ne. intros Heq. apply Hfresh. rewrite Heq. exact Hx. }
    repeat split; assumption.
Qed.

Lemma BindTexture_keeps_objects id g x tex :
  gl_objects g !! x = Some tex → gl_objects (BindTexture id g) !! x = Some tex.
Proof.
  intros Hx. unfold BindTexture; simpl.
  destruct (gl_objects g !! id) eqn:E; [exact Hx|].
  destruct (decide (id = 0)); [exact Hx|].
  rewrite lookup_insert_ne; [exact Hx|]. intros ->. congruence.
Qed.

Lemma BindGLTextures_from_run n : ∀ k s,
  (k + n ≤ length (m_textureIDs s))%nat →
  ∃ g, BindGLTextures_from n (Z.of_nat k) s = Ok (tt, with_gl g s) ∧
    gl_names g = gl_names (gl s) ∧
    (∀ j e, (k ≤ j < k + n)%nat → m_textureIDs s !! j = Some e →
            gl_bound g !! Z.of_nat j = Some (ID e)) ∧
    (∀ u, ¬ (Z.of_nat k ≤ u < Z.of_nat (k + n)) →
          gl_bound g !! u = gl_bound (gl s) !! u) ∧
    (∀ x tex, gl_objects (gl s) !! x = Some tex → gl_objects g !! x = Some tex).
Proof.
  induction n as [|n IH]; intros k s Hlen.
  - exists (gl s). split; [destruct s; reflexivity|].
    split; [reflexivity|]. split; [intros; lia|]. split; auto.
  - destruct (m_textureIDs s !! k) as [e|] eqn:He;
      [|apply lookup_ge_None in He; lia].
    set (g1 := BindTexture (ID e) (ActiveTexture (Z.of_nat k) (gl s))).
    destruct (IH (S k) (with_gl g1 s)) as (g & Hrun & Hnames & Hb & Hout & Hobj).
    { simpl. lia. }
    exists g. split.
    { simpl BindGLTextures_from. unfold glActiveTexture, glBindTexture.
      rewrite gl_call_bind. unfold mbind at 1, M_bind at 1, read.
      simpl m_textureIDs. rewrite Nat2Z.id, He. rewrite gl_call_bind.
      rewrite gl_with_gl, with_gl_twice.
      replace (Z.of_nat k + 1) with (Z.of_nat (S k)) by lia.
      fold g1. rewrite Hrun. now rewrite with_gl_twice. }
    simpl in Hnames, Hb, Hout, Hobj.
    split; [exact Hnames|].
    split.
    { intros j e' Hj He'. destruct (decide (j = k)) as [->|Hjk].
      - rewrite Hout by lia. rewrite He in He'. injection He' as <-.
        apply lookup_insert_eq.
      - apply Hb; [lia|exact He']. }
    split.
    { intros u Hu. rewrite Hout by lia. apply lookup_insert_ne. lia. }
    intros x tex Hx. apply Hobj. apply BindTexture_keeps_objects. exact Hx.
Qed.

(** C4.  Start with nothing loaded, load a sequence of usable images under
    pairwise distinct tags (no more than the array holds) and call
    [BindGLTextures].  Then for every [n] the [n]-th entry holds the tag of
    the [n]-th load and the handle of the texture object made from its
    image, that handle is bound to texture unit [n], and [FindTextureSlot]
    of the tag is [n]. *)
Theorem textures_bound_in_load_order (s0 : State) (loads : list (string * string)) :
  m_loadedTextures s0 = 0 →
  length (m_textureIDs s0) = texture_capacity →
  (length loads ≤ texture_capacity)%nat →
  NoDup (loads.*2) →
  Forall (λ l, ∃ image, usable l.1 image) loads →
  ∃ s, (load_textures loads ≫= λ _, BindGLTextures) s0 = Ok (tt, s) ∧
    m_loadedTextures s = Z.of_nat (length loads) ∧
    ∀ n f t, loads !! n = Some (f, t) →
      ∃ id image,
        m_textureIDs s !! n = Some {| ID := id; tag := t |} ∧
        usable f image ∧
        gl_objects (gl s) !! id = Some (loaded_texture image) ∧
        gl_bound (gl s) !! Z.of_nat n = Some id ∧
        FindTextureSlot t s = Ok (Z.of_nat n).
Proof.
  intros Hzero Hcap Hlen Hdup Hus.
  destruct (load_textures_run loads s0 Hus) as
    (s1 & Hload & Hcount & Hlen1 & _ & Hnew & _ & _ & _ & _ & _); [lia|lia|].
  rewrite Hzero in Hcount, Hnew. rewrite Z.add_0_l in Hcount.
  change (Z.to_nat 0) with 0%nat in Hnew. simpl Nat.add in Hnew.
  destruct (BindGLTextures_from_run (length loads) 0%nat s1) as
    (g & Hbind & _ & Hb & _ & Hobj); [lia|].
  exists (with_gl g s1). split.
  { rewrite (bind_Ok _ _ _ _ _ Hload). unfold BindGLTextures.
    rewrite Hcount, Nat2Z.id. exact Hbind. }
  split; [exact Hcount|].
  intros n f t Hn.
  destruct (Hnew n f t Hn) as (id & image & He & Hu & _ & _ & Ho).
  pose proof (lookup_lt_Some _ _ _ Hn) as Hnlt.
  exists id, image. simpl.
  split; [exact He|]. split; [exact Hu|].
  split; [apply Hobj; exact Ho|].
  split; [apply (Hb n {| ID := id; tag := t |}); [lia|exact He]|].
  unfold FindTextureSlot; simpl. rewrite Hcount, Nat2Z.id.
  apply (FindTextureSlot_from_hit _ _ _ 0%nat n {| ID := id; tag := t |});
    [lia|exact He|reflexivity|].
  intros j e' Hj He' Heq.
  destruct (loads !! j) as [[f' t']|] eqn:Hj'; [|apply lookup_ge_None in Hj'; lia].
  destruct (Hnew j f' t' Hj') as (id' & _ & He'' & _).
  rewrite He' in He''. injection He'' as ->. simpl in Heq. subst t'.
  assert (Hjn : j = n); [|lia].
  apply (NoDup_lookup (loads.*2) j n t Hdup).
  - now rewrite list_lookup_fmap, Hj'.
  - now rewrite list_lookup_fmap, Hn.
Qed.

(** The same for a sequence of loads that repeats tags: the lookups answer
    with the first load under the tag. *)
Lemma load_textures_first_wins (s0 : State) (loads : list (string * string))
    (n : nat) (f t : string) :
  m_loadedTextures s0 = 0 →
  (length loads ≤ length (m_textureIDs s0))%nat →
  Forall (λ l, ∃ image, usable l.1 image) loads →
  loads !! n = Some (f, t) →
  (∀ j f' t', (j < n)%nat → loads !! j = Some (f', t') → t' ≠ t) →
  ∃ s id, load_textures loads s0 = Ok (tt, s) ∧
    m_textureIDs s !! n = Some {| ID := id; tag := t |} ∧
    FindTextureSlot t s = Ok (Z.of_nat n) ∧
    FindTextureID t s = Ok (int_of_GLuint id).
Proof.
  intros Hzero Hlen Hus Hn Hfirst.
  destruct (load_textures_run loads s0 Hus) as
    (s & Hload & Hcount & _ & _ & Hnew & _); [lia|lia|].
  rewrite Hzero in Hcount, Hnew. rewrite Z.add_0_l in Hcount.
  change (Z.to_nat 0) with 0%nat in Hnew. simpl Nat.add in Hnew.
  destruct (Hnew n f t Hn) as (id & _ & He & _).
  pose proof (lookup_lt_Some _ _ _ Hn) as Hnlt.
  assert (Hbefore : ∀ j e', (0 ≤ j < n)%nat → m_textureIDs s !! j = Some e' → tag e' ≠ t).
  { intros j e' Hj He'.
    destruct (loads !! j) as [[f' t']|] eqn:Hj'; [|apply lookup_ge_None in Hj'; lia].
    destruct (Hnew j f' t' Hj') as (id' & _ & He'' & _).
    rewrite He' in He''. injection He'' as ->. simpl.
    apply (Hfirst j f' t'); [lia|exact Hj']. }
  exists s, id. split; [exact Hload|]. split; [exact He|].
  unfold FindTextureSlot, FindTextureID. rewrite Hcount, Nat2Z.id. split.
  - apply (FindTextureSlot_from_hit _ _ _ 0%nat n {| ID := id; tag := t |});
      [lia|exact He|reflexivity|exact Hbefore].
  - apply (FindTextureID_from_hit _ _ _ 0%nat n {| ID := id; tag := t |});
      [lia|exact He|reflexivity|exact Hbefore].
Qed.

(** ** Texture teardown *)

Lemma tags_after_store_ID (ids : list TEXTURE_INFO) (k : nat) (v : Z) :
  tag <$> alter (λ e, {| ID := v; tag := tag e |}) k ids = tag <$> ids.
Proof.
  revert k. induction ids as [|e ids IH]; intros [|k]; simpl; try reflexivity.
  f_equal. apply IH.
Qed.

Lemma DestroyGLTextures_from_run n : ∀ k s,
  (k + n ≤ length (m_textureIDs s))%nat →
  ∃ s', DestroyGLTextures_from n (Z.of_nat k) s = Ok (tt, s') ∧
    m_loadedTextures s' = m_loadedTextures s ∧
    tag <$> m_textureIDs s' = tag <$> m_textureIDs s ∧
    (∀ j, ¬ (k ≤ j < k + n)%nat → m_textureIDs s' !! j = m_textureIDs s !! j) ∧
    (∀ j e, (k ≤ j < k + n)%nat → m_textureIDs s' !! j = Some e →
       (ID e ∉ gl_names (gl s)) ∧ ID e ∈ gl_names (gl s') ∧ ID e ≠ 0) ∧
    (∀ i j e1 e2, (k ≤ i < k + n)%nat → (k ≤ j < k + n)%nat → i ≠ j →
       m_textureIDs s' !! i = Some e1 → m_textureIDs s' !! j = Some e2 →
       ID e1 ≠ ID e2) ∧
    gl_names (gl s) ⊆ gl_names (gl s') ∧
    gl_objects (gl s') = gl_objects (gl s) ∧
    gl_bound (gl s') = gl_bound (gl s) ∧
    gl_active (gl s') = gl_active (gl s) ∧
    m_pShaderManager s' = m_pShaderManager s ∧
    m_objectMaterials s' = m_objectMaterials s ∧
    calls s' = calls s.
Proof.
  induction n as [|n IH]; intros k s Hlen.
  - exists s. split; [reflexivity|]. repeat split; try reflexivity; intros; lia.
  - destruct (gen_name_fresh (gl_names (gl s))) as [Hfresh Hnz].
    set (g1 := {| gl_names := {[gen_name (gl_names (gl s))]} ∪ gl_names (gl s);
                  gl_objects := gl_objects (gl s); gl_active := gl_active (gl s);
                  gl_bound := gl_bound (gl s) |}).
    set (s2 := with_textures
                 (alter (λ e, {| ID := gen_name (gl_names (gl s)); tag := tag e |})
                    k (m_textureIDs s))
                 (m_loadedTextures s) (with_gl g1 s)).
    destruct (IH (S k) s2) as
      (s' & Hrun & Hcount & Htags & Hout & Hin & Hdiff & Hnames & Hobj & Hbound
          & Hact & Hsh & Hmat & Hcalls).
    { simpl. rewrite length_alter. lia. }
    simpl in Hcount, Htags, Hout, Hin, Hdiff, Hnames, Hobj, Hbound, Hact, Hsh, Hmat, Hcalls.
    assert (Hk : ∀ e, m_textureIDs s' !! k = Some e → ID e = gen_name (gl_names (gl s))).
    { intros e He. rewrite Hout in He by lia.
      rewrite list_lookup_alter_eq in He.
      destruct (m_textureIDs s !! k); simpl in He; [|discriminate].
      injection He as <-. reflexivity. }
    exists s'. split.
    { simpl DestroyGLTextures_from.
      rewrite glGenTextures_bind.
      rewrite store_ID_bind by (simpl; lia).
      rewrite Nat2Z.id. simpl m_textureIDs. simpl m_loadedTextures.
      replace (Z.of_nat k + 1) with (Z.of_nat (S k)) by lia.
      exact Hrun. }
    split; [exact Hcount|].
    split; [rewrite Htags; apply tags_after_store_ID|].
    split.
    { intros j Hj. rewrite Hout by lia. apply list_lookup_alter_ne. lia. }
    split.
    { intros j e Hj He. destruct (decide (j = k)) as [->|Hjk].
      - rewrite (Hk e He). split; [exact Hfresh|]. split; [|exact Hnz].
        apply Hnames, elem_of_union_l, elem_of_singleton. reflexivity.
      - destruct (Hin j e) as (Hf & Hi & Hz); [lia|exact He|].
        split; [|split; assumption].
        intros Hx. apply Hf, elem_of_union_r. exact Hx. }
    split.
    { intros i j e1 e2 Hi Hj Hij He1 He2.
      destruct (decide (i = k)) as [->|Hik]; destruct (decide (j = k)) as [->|Hjk].
      - contradiction.
      - rewrite (Hk e1 He1). intros Heq.
        destruct (Hin j e2) as (Hf & _); [lia|exact He2|].
        apply Hf. rewrite <- Heq. apply elem_of_union_l, elem_of_singleton. reflexivity.
      - rewrite (Hk e2 He2). intros Heq.
        destruct (Hin i e1) as (Hf & _); [lia|exact He1|].
        apply Hf. rewrite Heq. apply elem_of_union_l, elem_of_singleton. reflexivity.
      - apply (Hdiff i j); [lia|lia|assumption|assumption|assumption]. }
    split.
    { intros x Hx. apply Hnames, elem_of_union_r. exact Hx. }
    repeat split; assumption.
Qed.

(** C10.  [DestroyGLTextures] deletes nothing.  It leaves the count, the
    tags, every texture object and every binding as they were, and no name
    in use stops being in use; each of the [m_loadedTextures] registered
    entries gets a name that was not in use before the call, all different,
    while the entries beyond the count are untouched. *)
Theorem DestroyGLTextures_regenerates (s : State) :
  m_loadedTextures s ≤ Z.of_nat (length (m_textureIDs s)) →
  ∃ s', DestroyGLTextures s = Ok (tt, s') ∧
    m_loadedTextures s' = m_loadedTextures s ∧
    length (m_textureIDs s') = length (m_textureIDs s) ∧
    tag <$> m_textureIDs s' = tag <$> m_textureIDs s ∧
    gl_objects (gl s') = gl_objects (gl s) ∧
    gl_bound (gl s') = gl_bound (gl s) ∧
    gl_names (gl s) ⊆ gl_names (gl s') ∧
    (∀ i e, registered s' !! i = Some e →
       (ID e ∉ gl_names (gl s)) ∧ ID e ∈ gl_names (gl s') ∧ ID e ≠ 0) ∧
    NoDup (ID <$> registered s') ∧
    (∀ i, (Z.to_nat (m_loadedTextures s) ≤ i)%nat →
       m_textureIDs s' !! i = m_textureIDs s !! i).
Proof.
  intros Hn.
  destruct (DestroyGLTextures_from_run (Z.to_nat (m_loadedTextures s)) 0%nat s) as
    (s' & Hrun & Hcount & Htags & Hout & Hin & Hdiff & Hnames & Hobj & Hbound & _);
    [lia|].
  exists s'. split; [exact Hrun|].
  split; [exact Hcount|].
  split.
  { rewrite <- (length_fmap tag (m_textureIDs s')), Htags. apply length_fmap. }
  split; [exact Htags|]. split; [exact Hobj|]. split; [exact Hbound|].
  split; [exact Hnames|].
  split.
  { intros i e He. apply registered_lookup in He as [Hi He].
    rewrite Hcount in Hi. apply (Hin i e); [lia|exact He]. }
  split.
  { apply NoDup_alt. intros i j x Hi Hj.
    rewrite list_lookup_fmap in Hi, Hj.
    destruct (registered s' !! i) as [e1|] eqn:E1; [|discriminate].
    destruct (registered s' !! j) as [e2|] eqn:E2; [|discriminate].
    simpl in Hi, Hj. injection Hi as Hi. injection Hj as Hj.
    apply registered_lookup in E1 as [Hi1 E1].
    apply registered_lookup in E2 as [Hj1 E2].
    rewrite Hcount in Hi1, Hj1.
    destruct (decide (i = j)) as [|Hij]; [assumption|].
    exfalso. apply (Hdiff i j e1 e2); [lia|lia|assumption|assumption|assumption|].
    congruence. }
  intros i Hi. apply Hout. lia.
Qed.

(** ** Rendering a frame *)

Lemma scene_ok_log evs s : scene_ok s → scene_ok (log evs s).
Proof. intros H. exact H. Qed.

Lemma emits_bind m k e1 e2 :
  emits m e1 → emits k e2 → emits (m ≫= λ _, k) (λ s, e1 s ++ e2 s).
Proof.
  intros [Hm Hm'] [Hk Hk']. split.
  - intros s Hs. rewrite (bind_Ok _ _ _ _ _ (Hm s Hs)).
    rewrite (Hk _ (scene_ok_log _ _ Hs)). now rewrite Hk', log_log.
  - intros s evs. now rewrite Hm', Hk'.
Qed.

Lemma FindTextureSlot_from_defined ids t n : ∀ k,
  (k + n ≤ length ids)%nat → ∃ slot, FindTextureSlot_from ids t n (Z.of_nat k) = Ok slot.
Proof.
  induction n as [|n IH]; intros k Hlen; simpl; [eauto|].
  rewrite Nat2Z.id.
  destruct (ids !! k) as [e|] eqn:He; [|apply lookup_ge_None in He; lia].
  destruct (String.eqb (tag e) t); [eauto|].
  replace (Z.of_nat k + 1) with (Z.of_nat (S k)) by lia. apply IH. lia.
Qed.

Lemma FindTextureSlot_slot_of t s :
  m_loadedTextures s ≤ Z.of_nat (length (m_textureIDs s)) →
  FindTextureSlot t s = Ok (slot_of t s).
Proof.
  intros Hlen. unfold slot_of.
  destruct (FindTextureSlot_from_defined (m_textureIDs s) t
              (Z.to_nat (m_loadedTextures s)) 0%nat) as [slot Hslot]; [lia|].
  unfold FindTextureSlot. change (Z.of_nat 0) with 0 in Hslot. now rewrite Hslot.
Qed.

Lemma emits_DrawXMesh k : emits (DrawXMesh k) (λ _, [DrawMesh k]).
Proof. split; reflexivity. Qed.

Lemma emits_SetTransformations sc rx ry rz pos :
  emits (SetTransformations sc rx ry rz pos)
        (λ _, [SetUniform g_ModelName
                 (UMat4 (glm.translate pos
                         * glm.rotate (glm.radians rz) (glm.Vec3 0 0 1)
                         * glm.rotate (glm.radians ry) (glm.Vec3 0 1 0)
                         * glm.rotate (glm.radians rx) (glm.Vec3 1 0 0)
                         * glm.scale sc)%mat)]).
Proof.
  split; [|reflexivity]. intros s [Hsh _].
  now apply SetTransformations_attached.
Qed.

Lemma emits_SetShaderColor r g b a :
  emits (SetShaderColor r g b a)
        (λ _, [SetUniform g_UseTextureName (UInt 0);
               SetUniform g_ColorValueName (UVec4 (glm.Vec4 r g b a))]).
Proof.
  split; [|reflexivity]. intros s [Hsh _].
  unfold SetShaderColor, if_shader. rewrite Hsh.
  unfold setIntValue, setVec4Value, mbind, M_bind.
  rewrite shader_call_attached by assumption.
  rewrite shader_call_attached by assumption.
  now rewrite log_log.
Qed.

Lemma emits_SetShaderTexture t :
  emits (SetShaderTexture t)
        (λ s, [SetUniform g_UseTextureName (UInt 1);
               SetUniform g_TextureValueName (USampler2D (slot_of t s))]).
Proof.
  split; [|reflexivity]. intros s [Hsh Hlen].
  apply SetShaderTexture_attached; [assumption|].
  now apply FindTextureSlot_slot_of.
Qed.

Lemma emits_SetTextureUVScale u v :
  emits (SetTextureUVScale u v) (λ _, [SetUniform "UVscale" (UVec2 (glm.Vec2 u v))]).
Proof.
  split; [|reflexivity]. intros s [Hsh _].
  unfold SetTextureUVScale, if_shader. rewrite Hsh.
  unfold setVec2Value. now rewrite shader_call_attached.
Qed.

Lemma emits_SetShaderMaterial t :
  emits (SetShaderMaterial t) (material_uploads t).
Proof.
  split; [|reflexivity]. intros s [Hsh _].
  unfold SetShaderMaterial, material_uploads.
  destruct (0 <? length (m_objectMaterials s))%nat; [|now rewrite log_nil].
  destruct (FindMaterial t OBJECT_MATERIAL_default s) as [[] material];
    [|now rewrite log_nil].
  unfold setVec3Value, setFloatValue, mbind, M_bind.
  rewrite shader_call_attached by assumption.
  rewrite shader_call_attached by assumption.
  rewrite shader_call_attached by assumption.
  now rewrite !log_log.
Qed.

Lemma drawn_app l1 l2 : drawn (l1 ++ l2) = drawn l1 ++ drawn l2.
Proof. apply omap_app. Qed.

Lemma drawn_material_uploads t s : drawn (material_uploads t s) = [].
Proof.
  unfold material_uploads.
  destruct (0 <? length (m_objectMaterials s))%nat; [|reflexivity].
  destruct (FindMaterial t OBJECT_MATERIAL_default s) as [[] material]; reflexivity.
Qed.

Create HintDb scene.

#[local] Hint Resolve emits_DrawXMesh emits_SetTransformations
  emits_SetShaderColor emits_SetShaderTexture emits_SetTextureUVScale
  emits_SetShaderMaterial : scene.

(** An object routine is a chain of the steps above. *)
Ltac emits_chain :=
  cbv zeta;
  unfold DrawPlaneMesh, DrawSphereMesh, DrawTorusMesh, DrawTaperedCylinderMesh,
    DrawBoxMesh, DrawCylinderMesh, DrawPrismMesh;
  repeat (eapply emits_bind; [solve [eauto with scene]|]);
  solve [eauto with scene].

Ltac frame_summary :=
  intros s; cbv beta;
  rewrite ?drawn_app, ?drawn_material_uploads;
  reflexivity.

Lemma RenderFloor_emits :
  ∃ ev, emits RenderFloor ev ∧ ∀ s, drawn (ev s) = [Plane].
Proof.
  eexists. split; [unfold RenderFloor; emits_chain|frame_summary].
Qed.

Lemma RenderWall_emits :
  ∃ ev, emits RenderWall ev ∧ ∀ s, drawn (ev s) = [Plane; Plane; Plane].
Proof.
  eexists. split; [unfold RenderWall; emits_chain|frame_summary].
Qed.

Lemma RenderBookcase_emits :
  ∃ ev, emits RenderBookcase ev ∧ ∀ s, drawn (ev s) = [Box; Box; Box; Box; Box].
Proof.
  eexists. split; [unfold RenderBookcase; emits_chain|frame_summary].
Qed.

Lemma RenderWindow_emits :
  ∃ ev, emits RenderWindow ev ∧ ∀ s, drawn (ev s) = [Box].
Proof.
  eexists. split; [unfold RenderWindow; emits_chain|frame_summary].
Qed.

Lemma RenderVase_emits :
  ∃ ev, emits RenderVase ev ∧ ∀ s, drawn (ev s) = [Sphere; TaperedCylinder; TaperedCylinder].
Proof.
  eexists. split; [unfold RenderVase; emits_chain|frame_summary].
Qed.

Lemma RenderBook_emits :
  ∃ ev, emits RenderBook ev ∧ ∀ s, drawn (ev s) = [Box; Box; Box; Box; Box; Box; Box; Box].
Proof.
  eexists. split; [unfold RenderBook; emits_chain|frame_summary].
Qed.

Lemma RenderDesk_emits :
  ∃ ev, emits RenderDesk ev ∧ ∀ s, drawn (ev s) = [Box; Box; Box].
Proof.
  eexists. split; [unfold RenderDesk; emits_chain|frame_summary].
Qed.

Lemma RenderCat_emits :
  ∃ ev, emits RenderCat ev ∧ ∀ s, drawn (ev s) = [Cylinder; Cylinder; Sphere; TaperedCylinder; Prism; TaperedCylinder;
     Prism; Cylinder; Cylinder; Cylinder; Cylinder; Cylinder].
Proof.
  eexists. split; [unfold RenderCat; emits_chain|frame_summary].
Qed.

Lemma RenderScene_emits :
  ∃ floor wall bookcase window vase book desk cat,
    emits RenderFloor floor ∧ emits RenderWall wall ∧
    emits RenderBookcase bookcase ∧ emits RenderWindow window ∧
    emits RenderVase vase ∧ emits RenderBook book ∧
    emits RenderDesk desk ∧ emits RenderCat cat ∧
    emits RenderScene
      (λ s, floor s ++ wall s ++ bookcase s ++ window s ++ vase s ++ book s
            ++ desk s ++ cat s) ∧
    ∀ s, drawn (floor s ++ wall s ++ bookcase s ++ window s ++ vase s ++ book s
                ++ desk s ++ cat s) = frame_meshes.
Proof.
  destruct RenderFloor_emits as (e1 & H1 & S1), RenderWall_emits as (e2 & H2 & S2),
    RenderBookcase_emits as (e3 & H3 & S3), RenderWindow_emits as (e4 & H4 & S4),
    RenderVase_emits as (e5 & H5 & S5), RenderBook_emits as (e6 & H6 & S6),
    RenderDesk_emits as (e7 & H7 & S7), RenderCat_emits as (e8 & H8 & S8).
  exists e1, e2, e3, e4, e5, e6, e7, e8.
  repeat (split; [assumption|]). split.
  - unfold RenderScene. repeat (eapply emits_bind; [eassumption|]). eassumption.
  - intros s. rewrite !drawn_app.
    rewrite S1, S2, S3, S4, S5, S6, S7, S8. reflexivity.
Qed.

Lemma render_frames_emits ev :
  emits RenderScene ev →
  ∀ n s, scene_ok s → render_frames n s = Ok (tt, log (concat (replicate n (ev s))) s).
Proof.
  intros [Hrun Hinv] n. induction n as [|n IH]; intros s Hs.
  - simpl. now rewrite log_nil.
  - simpl render_frames. rewrite (bind_Ok _ _ _ _ _ (Hrun s Hs)).
    rewrite (IH _ (scene_ok_log _ _ Hs)). rewrite Hinv, log_log. reflexivity.
Qed.

(** ** Scene preparation *)

Lemma CreateGLTexture_step filename tag0 s :
  0 ≤ m_loadedTextures s < Z.of_nat (length (m_textureIDs s)) →
  ∃ b s', CreateGLTexture filename tag0 s = Ok (b, s') ∧
    m_pShaderManager s' = m_pShaderManager s ∧
    length (m_textureIDs s') = length (m_textureIDs s) ∧
    m_loadedTextures s ≤ m_loadedTextures s' ≤ m_loadedTextures s + 1 ∧
    m_objectMaterials s' = m_objectMaterials s ∧
    calls s' = calls s.
Proof.
  intros Hroom.
  destruct (stbi_load true filename) as [image|] eqn:Hload.
  - destruct (decide (img_channels image = 3 ∨ img_channels image = 4)) as [Hch|Hch].
    + exists true. eexists.
      split; [apply (CreateGLTexture_loaded _ _ _ image); [split|]; assumption|].
      simpl. rewrite length_insert. repeat split; lia.
    + destruct (CreateGLTexture_unsupported filename tag0 s image Hload) as [g Hg];
        [tauto|tauto|].
      exists false. eexists. split; [exact Hg|]. simpl. repeat split; lia.
  - exists false, s. split; [apply CreateGLTexture_undecoded; exact Hload|].
    repeat split; lia.
Qed.

Lemma LoadSceneTextures_run s :
  m_loadedTextures s = 0 → length (m_textureIDs s) = texture_capacity →
  ∃ s', LoadSceneTextures s = Ok (tt, s') ∧
    m_pShaderManager s' = m_pShaderManager s ∧
    m_loadedTextures s' ≤ Z.of_nat (length (m_textureIDs s')) ∧
    m_objectMaterials s' = m_objectMaterials s ∧
    calls s' = calls s.
Proof.
  intros Hzero Hcap. unfold LoadSceneTextures, texture_capacity in *.
  repeat match goal with
  | |- ∃ s', (CreateGLTexture ?f ?t ≫= _) ?s0 = _ ∧ _ =>
      let b := fresh "b" in let s1 := fresh "s" in
      let Hrun := fresh "Hrun" in let Hsh := fresh "Hsh" in
      let Hlen := fresh "Hlen" in let Hn := fresh "Hn" in
      let Hmat := fresh "Hmat" in let Hcalls := fresh "Hcalls" in
      destruct (CreateGLTexture_step f t s0) as
        (b & s1 & Hrun & Hsh & Hlen & Hn & Hmat & Hcalls); [lia|];
      rewrite (bind_Ok _ _ _ _ _ Hrun)
  end.
  match goal with
  | |- ∃ s', BindGLTextures ?s0 = _ ∧ _ =>
      destruct (BindGLTextures_from_run (Z.to_nat (m_loadedTextures s0)) 0%nat s0)
        as (g & Hbind & _); [lia|];
      exists (with_gl g s0); split; [exact Hbind|]
  end.
  simpl. repeat split; try congruence; lia.
Qed.

Lemma emits_shader_call name v : emits (shader_call name v) (λ _, [SetUniform name v]).
Proof.
  split; [|reflexivity]. intros s [Hsh _]. now apply shader_call_attached.
Qed.

Lemma emits_LoadXMesh k : emits (LoadXMesh k) (λ _, [LoadMesh k]).
Proof. split; reflexivity. Qed.

Lemma PrepareScene_run s :
  m_pShaderManager s = true →
  m_loadedTextures s = 0 → length (m_textureIDs s) = texture_capacity →
  ∃ s', PrepareScene s = Ok (tt, s') ∧ scene_ok s' ∧
    m_objectMaterials s' = m_objectMaterials s ++ materials_defined.
Proof.
  intros Hsh Hzero Hcap.
  destruct (LoadSceneTextures_run s Hzero Hcap) as (s1 & Hload & Hsh1 & Hlen1 & Hmat1 & _).
  assert (Hrest : ∃ ev, emits
    (SetupSceneLights;; LoadXMesh Plane;; LoadXMesh Sphere;; LoadXMesh Torus;;
     LoadXMesh TaperedCylinder;; LoadXMesh Box;; LoadXMesh Cylinder;; LoadXMesh Prism) ev).
  { eexists. unfold SetupSceneLights, setVec3Value3, setBoolValue, setVec3Value,
      setFloatValue.
    eapply emits_bind.
    - repeat (eapply emits_bind; [apply emits_shader_call|]).
      apply emits_shader_call.
    - repeat (eapply emits_bind; [apply emits_LoadXMesh|]).
      apply emits_LoadXMesh. }
  destruct Hrest as (ev & Hrest & _).
  set (s2 := with_materials (m_objectMaterials s1 ++ materials_defined) s1).
  assert (Hok : scene_ok s2) by (split; simpl; [congruence|exact Hlen1]).
  exists (log (ev s2) s2). split.
  { unfold PrepareScene. rewrite (bind_Ok _ _ _ _ _ Hload).
    rewrite (bind_Ok _ _ _ _ _ (DefineObjectMaterials_run s1)).
    apply Hrest. exact Hok. }
  split; [exact Hok|]. simpl. now rewrite Hmat1.
Qed.

(** C9.  After [PrepareScene], every call of [RenderScene] completes and
    does nothing but extend the call log, each time by the same events
    [frame]: after [n] frames the state is the prepared one with [n] copies
    of [frame] logged.
    [frame] is what the eight object routines log, one after the other in
    the order floor, wall, bookcase, window, vase, book, desk, cat, and it
    draws the same thirty-six meshes in the same order each time. *)
Theorem RenderScene_same_every_frame (s0 : State) :
  m_pShaderManager s0 = true →
  m_loadedTextures s0 = 0 →
  length (m_textureIDs s0) = texture_capacity →
  ∃ s1 frame,
    PrepareScene s0 = Ok (tt, s1) ∧ scene_ok s1 ∧
    (∀ n, render_frames n s1 = Ok (tt, log (concat (replicate n frame)) s1)) ∧
    (∃ floor wall bookcase window vase book desk cat,
       emits RenderFloor floor ∧ emits RenderWall wall ∧
       emits RenderBookcase bookcase ∧ emits RenderWindow window ∧
       emits RenderVase vase ∧ emits RenderBook book ∧
       emits RenderDesk desk ∧ emits RenderCat cat ∧
       frame = floor s1 ++ wall s1 ++ bookcase s1 ++ window s1 ++ vase s1
               ++ book s1 ++ desk s1 ++ cat s1) ∧
    drawn frame = frame_meshes ∧
    length (drawn frame) = 36%nat.
Proof.
  intros Hsh Hzero Hcap.
  destruct (PrepareScene_run s0 Hsh Hzero Hcap) as (s1 & Hprep & Hok & _).
  destruct RenderScene_emits as
    (e1 & e2 & e3 & e4 & e5 & e6 & e7 & e8 & H1 & H2 & H3 & H4 & H5 & H6 & H7 & H8
        & Hem & Hsum).
  eexists s1, _. split; [exact Hprep|]. split; [exact Hok|].
  split.
  - intros n. apply (render_frames_emits _ Hem). exact Hok.
  - split; [exists e1, e2, e3, e4, e5, e6, e7, e8; repeat (split; [assumption|]);
            reflexivity|].
    cbv beta. rewrite Hsum. split; reflexivity.
Qed.

(** * Further properties *)

(** ** Shading binder *)

Lemma last_upload_none name evs acc :
  name ∉ uploaded_names evs → last_upload name evs acc = acc.
Proof.
  revert acc. induction evs as [|e evs IH]; intros acc Hno; simpl; [reflexivity|].
  destruct e as [n v| |]; simpl in Hno; try (apply IH; exact Hno).
  rewrite not_elem_of_cons in Hno. destruct Hno as [Hne Hno].
  rewrite IH by exact Hno.
  destruct (String.eqb_spec n name); [congruence|reflexivity].
Qed.

Lemma uniform_log_other name evs s :
  name ∉ uploaded_names evs → uniform name (log evs s) = uniform name s.
Proof.
  intros Hno. unfold uniform, log; simpl.
  rewrite last_upload_app. now apply last_upload_none.
Qed.

Lemma SetShaderColor_attached r g b a s :
  m_pShaderManager s = true →
  SetShaderColor r g b a s =
    Ok (tt, log [SetUniform g_UseTextureName (UInt 0);
                 SetUniform g_ColorValueName (UVec4 (glm.Vec4 r g b a))] s).
Proof.
  intros Hsh. unfold SetShaderColor, if_shader. rewrite Hsh.
  unfold setIntValue, setVec4Value, mbind, M_bind.
  rewrite shader_call_attached by assumption.
  rewrite shader_call_attached by assumption.
  now rewrite log_log.
Qed.

Lemma SetTextureUVScale_attached u v s :
  m_pShaderManager s = true →
  SetTextureUVScale u v s = Ok (tt, log [SetUniform "UVscale" (UVec2 (glm.Vec2 u v))] s).
Proof.
  intros Hsh. unfold SetTextureUVScale, if_shader. rewrite Hsh.
  unfold setVec2Value. now rewrite shader_call_attached.
Qed.

Lemma SetShaderMaterial_attached t s :
  m_pShaderManager s = true →
  SetShaderMaterial t s = Ok (tt, log (material_uploads t s) s).
Proof.
  intros Hsh. unfold SetShaderMaterial, material_uploads.
  destruct (0 <? length (m_objectMaterials s))%nat; [|now rewrite log_nil].
  destruct (FindMaterial t OBJECT_MATERIAL_default s) as [[] material];
    [|now rewrite log_nil].
  unfold setVec3Value, setFloatValue, mbind, M_bind.
  rewrite shader_call_attached by assumption.
  rewrite shader_call_attached by assumption.
  rewrite shader_call_attached by assumption.
  now rewrite !log_log.
Qed.

Lemma SetShaderTexture_inv t s s' :
  SetShaderTexture t s = Ok (tt, s') →
  s' = s ∨ ∃ slot, s' = log [SetUniform g_UseTextureName (UInt 1);
                             SetUniform g_TextureValueName (USampler2D slot)] s.
Proof.
  intros Hrun. destruct (m_pShaderManager s) eqn:Hsh.
  - destruct (FindTextureSlot t s) as [slot|] eqn:Hslot.
    + rewrite (SetShaderTexture_attached _ _ _ Hsh Hslot) in Hrun.
      injection Hrun as <-. right. eauto.
    + exfalso. revert Hrun. unfold SetShaderTexture, if_shader. rewrite Hsh.
      unfold setIntValue, mbind, M_bind.
      rewrite shader_call_attached by assumption.
      unfold read. change (FindTextureSlot t (log _ s)) with (FindTextureSlot t s).
      rewrite Hslot. discriminate.
  - rewrite (SetShaderTexture_detached _ _ Hsh) in Hrun. injection Hrun as <-. now left.
Qed.

Lemma uploaded_names_material_uploads t s :
  uploaded_names (material_uploads t s) ⊆
    ["material.diffuseColor"; "material.specularColor"; "material.shininess"].
Proof.
  unfold material_uploads.
  destruct (0 <? length (m_objectMaterials s))%nat; [|apply list_subseteq_nil].
  destruct (FindMaterial t OBJECT_MATERIAL_default s) as [[] material];
    [reflexivity|apply list_subseteq_nil].
Qed.

(** X1.  Each function of the shading binder, and [SetTransformations],
    changes no uniform but its own: whenever the call completes, every
    uniform under another name holds what it held before. *)
Theorem binder_leaves_other_uniforms (s s' : State) (name : string) :
  (∀ sc rx ry rz p, SetTransformations sc rx ry rz p s = Ok (tt, s') →
     name ≠ "model" → uniform name s' = uniform name s) ∧
  (∀ r g b a, SetShaderColor r g b a s = Ok (tt, s') →
     name ≠ "bUseTexture" → name ≠ "objectColor" → uniform name s' = uniform name s) ∧
  (∀ t, SetShaderTexture t s = Ok (tt, s') →
     name ≠ "bUseTexture" → name ≠ "objectTexture" → uniform name s' = uniform name s) ∧
  (∀ u v, SetTextureUVScale u v s = Ok (tt, s') →
     name ≠ "UVscale" → uniform name s' = uniform name s) ∧
  (∀ t, SetShaderMaterial t s = Ok (tt, s') →
     name ≠ "material.diffuseColor" → name ≠ "material.specularColor" →
     name ≠ "material.shininess" → uniform name s' = uniform name s).
Proof.
  repeat split.
  - intros sc rx ry rz p Hrun Hne. destruct (m_pShaderManager s) eqn:Hsh.
    + rewrite (SetTransformations_attached _ _ _ _ _ _ Hsh) in Hrun.
      injection Hrun as <-. apply uniform_log_other. simpl.
      rewrite list_elem_of_singleton. exact Hne.
    + rewrite (SetTransformations_detached _ _ _ _ _ _ Hsh) in Hrun.
      now injection Hrun as <-.
  - intros r g b a Hrun Hne1 Hne2. destruct (m_pShaderManager s) eqn:Hsh.
    + rewrite (SetShaderColor_attached _ _ _ _ _ Hsh) in Hrun.
      injection Hrun as <-. apply uniform_log_other. simpl.
      rewrite !not_elem_of_cons. repeat split; try assumption. apply not_elem_of_nil.
    + unfold SetShaderColor, if_shader in Hrun. rewrite Hsh in Hrun.
      now injection Hrun as <-.
  - intros t Hrun Hne1 Hne2.
    destruct (SetShaderTexture_inv _ _ _ Hrun) as [->|[slot ->]]; [reflexivity|].
    apply uniform_log_other. simpl.
    rewrite !not_elem_of_cons. repeat split; try assumption. apply not_elem_of_nil.
  - intros u v Hrun Hne. destruct (m_pShaderManager s) eqn:Hsh.
    + rewrite (SetTextureUVScale_attached _ _ _ Hsh) in Hrun.
      injection Hrun as <-. apply uniform_log_other. simpl.
      rewrite list_elem_of_singleton. exact Hne.
    + unfold SetTextureUVScale, if_shader in Hrun. rewrite Hsh in Hrun.
      now injection Hrun as <-.
  - intros t Hrun Hne1 Hne2 Hne3. destruct (m_pShaderManager s) eqn:Hsh.
    + rewrite (SetShaderMaterial_attached _ _ Hsh) in Hrun.
      injection Hrun as <-. apply uniform_log_other.
      intros Hin. apply uploaded_names_material_uploads in Hin.
      rewrite !elem_of_cons in Hin.
      destruct Hin as [?|[?|[?|Hin]]]; try contradiction.
      now apply not_elem_of_nil in Hin.
    + revert Hrun. unfold SetShaderMaterial.
      destruct (0 <? length (m_objectMaterials s))%nat;
        [|intros Hrun; now injection Hrun as <-].
      destruct (FindMaterial t OBJECT_MATERIAL_default s) as [[] material];
        [|intros Hrun; now injection Hrun as <-].
      unfold setVec3Value, mbind, M_bind, shader_call. rewrite Hsh. discriminate.
Qed.

(** X2.  The shading mode is the one of the later call.  With a shader
    manager attached and the tag's slot found, [SetShaderTexture] followed
    by [SetShaderColor] leaves texturing off, the colour uploaded and the
    sampler still in place; in the other order texturing is on, the sampler
    uploaded and the colour still in place. *)
Theorem shading_mode_last_call_wins (s : State) (t : string) (slot : Z) (r g b a : R) :
  m_pShaderManager s = true →
  FindTextureSlot t s = Ok slot →
  (∃ s', (SetShaderTexture t ≫= λ _, SetShaderColor r g b a) s = Ok (tt, s') ∧
     uniform "bUseTexture" s' = Some (UInt 0) ∧
     uniform "objectColor" s' = Some (UVec4 (glm.Vec4 r g b a)) ∧
     uniform "objectTexture" s' = Some (USampler2D slot)) ∧
  (∃ s', (SetShaderColor r g b a ≫= λ _, SetShaderTexture t) s = Ok (tt, s') ∧
     uniform "bUseTexture" s' = Some (UInt 1) ∧
     uniform "objectTexture" s' = Some (USampler2D slot) ∧
     uniform "objectColor" s' = Some (UVec4 (glm.Vec4 r g b a))).
Proof.
  intros Hsh Hslot. split.
  - eexists. split.
    { rewrite (bind_Ok _ _ _ _ _ (SetShaderTexture_attached _ _ _ Hsh Hslot)).
      rewrite SetShaderColor_attached by exact Hsh. rewrite log_log. reflexivity. }
    unfold uniform, log; simpl. rewrite !last_upload_app. repeat split.
  - eexists. split.
    { rewrite (bind_Ok _ _ _ _ _ (SetShaderColor_attached _ _ _ _ _ Hsh)).
      rewrite (SetShaderTexture_attached _ _ slot) by assumption.
      rewrite log_log. reflexivity. }
    unfold uniform, log; simpl. rewrite !last_upload_app. repeat split.
Qed.

(** X3.  Without a shader manager the four guarded functions return and
    change nothing.  [SetShaderMaterial] has no such guard: it returns
    untouched only while no material is defined, and calls through the null
    pointer as soon as one is; [SetupSceneLights] always does. *)
Theorem null_shader_manager (s : State) :
  m_pShaderManager s = false →
  (∀ sc rx ry rz p, SetTransformations sc rx ry rz p s = Ok (tt, s)) ∧
  (∀ r g b a, SetShaderColor r g b a s = Ok (tt, s)) ∧
  (∀ t, SetShaderTexture t s = Ok (tt, s)) ∧
  (∀ u v, SetTextureUVScale u v s = Ok (tt, s)) ∧
  (∀ t, m_objectMaterials s = [] → SetShaderMaterial t s = Ok (tt, s)) ∧
  (∀ t, m_objectMaterials s ≠ [] → SetShaderMaterial t s = Undefined) ∧
  SetupSceneLights s = Undefined.
Proof.
  intros Hsh.
  split; [intros; now apply SetTransformations_detached|].
  split; [intros; unfold SetShaderColor, if_shader; now rewrite Hsh|].
  split; [intros; now apply SetShaderTexture_detached|].
  split; [intros; unfold SetTextureUVScale, if_shader; now rewrite Hsh|].
  split; [intros t Hempty; unfold SetShaderMaterial; now rewrite Hempty|].
  split.
  - intros t Hne. unfold SetShaderMaterial, FindMaterial.
    destruct (m_objectMaterials s) as [|m ms]; [congruence|].
    simpl length. simpl Nat.ltb. simpl Nat.eqb. cbv iota.
    destruct (FindMaterial_scan (m :: ms) t OBJECT_MATERIAL_default) as [bFound material].
    unfold setVec3Value, mbind, M_bind, shader_call. now rewrite Hsh.
  - unfold SetupSceneLights, setBoolValue, mbind, M_bind, shader_call. now rewrite Hsh.
Qed.

(** X4.  With a shader manager attached, [SetShaderMaterial] with a tag
    some material bears uploads the diffuse colour, specular colour and
    shininess of the first such material, in this order, and nothing else:
    the ambient members are never sent. *)
Theorem SetShaderMaterial_uploads_first_match (s : State) (t : string)
    (before : list OBJECT_MATERIAL) (m : OBJECT_MATERIAL)
    (after : list OBJECT_MATERIAL) :
  m_pShaderManager s = true →
  m_objectMaterials s = before ++ m :: after →
  mtag m = t → Forall (λ m', mtag m' ≠ t) before →
  ∃ s', SetShaderMaterial t s = Ok (tt, s') ∧
    s' = log [SetUniform "material.diffuseColor" (UVec3 (diffuseColor m));
              SetUniform "material.specularColor" (UVec3 (specularColor m));
              SetUniform "material.shininess" (UFloat (shininess m))] s ∧
    uniform "material.diffuseColor" s' = Some (UVec3 (diffuseColor m)) ∧
    uniform "material.specularColor" s' = Some (UVec3 (specularColor m)) ∧
    uniform "material.shininess" s' = Some (UFloat (shininess m)).
Proof.
  intros Hsh Hms Ht Hno.
  assert (Hup : material_uploads t s =
    [SetUniform "material.diffuseColor" (UVec3 (diffuseColor m));
     SetUniform "material.specularColor" (UVec3 (specularColor m));
     SetUniform "material.shininess" (UFloat (shininess m))]).
  { unfold material_uploads, FindMaterial. rewrite Hms.
    rewrite length_app. simpl length.
    replace (length before + S (length after))%nat
      with (S (length before + length after)) by lia.
    simpl Nat.ltb. simpl Nat.eqb. cbv iota.
    now rewrite (FindMaterial_scan_hit _ _ _ _ _ Ht Hno). }
  eexists. split; [apply SetShaderMaterial_attached; exact Hsh|].
  rewrite Hup. split; [reflexivity|].
  unfold uniform, log; simpl. rewrite !last_upload_app. repeat split.
Qed.

Lemma FindMaterial_scan_keeps ms t out :
  let r := (FindMaterial_scan ms t out).2 in
  ambientColor r = ambientColor out ∧ ambientStrength r = ambientStrength out ∧
  mtag r = mtag out.
Proof.
  induction ms as [|e ms IH]; simpl; [repeat split|].
  destruct (String.eqb (mtag e) t); [repeat split|exact IH].
Qed.

(** X5.  What [FindMaterial] does to its out-parameter and what it returns,
    for every registry and tag: the ambient colour, ambient strength and
    tag of the out-parameter are never written; the flag returned is [true]
    exactly when the registry is not empty; and when no material bears the
    tag the out-parameter comes back as passed. *)
Theorem FindMaterial_out_parameter (s : State) (t : string) (out : OBJECT_MATERIAL) :
  let r := FindMaterial t out s in
  ambientColor r.2 = ambientColor out ∧
  ambientStrength r.2 = ambientStrength out ∧
  mtag r.2 = mtag out ∧
  (r.1 = true ↔ m_objectMaterials s ≠ []) ∧
  (Forall (λ m, mtag m ≠ t) (m_objectMaterials s) → r.2 = out).
Proof.
  unfold FindMaterial.
  destruct (m_objectMaterials s) as [|m ms] eqn:Hms.
  - simpl. repeat split; try reflexivity; try discriminate. congruence.
  - simpl length. simpl Nat.eqb. cbv iota.
    pose proof (FindMaterial_scan_keeps (m :: ms) t out) as Hkeep.
    destruct (FindMaterial_scan (m :: ms) t out) as [bFound material] eqn:Hscan.
    simpl in Hkeep. simpl.
    destruct Hkeep as (H1 & H2 & H3).
    repeat split; try assumption; try discriminate.
    intros Hno. rewrite (FindMaterial_scan_miss _ _ _ Hno) in Hscan. congruence.
Qed.

(** ** Texture lookups *)

Lemma first_tagged_None t l i :
  first_tagged t l i = None ↔ Forall (λ e, tag e ≠ t) l.
Proof.
  revert i. induction l as [|e l IH]; intros i; simpl.
  - split; [constructor|reflexivity].
  - destruct (String.eqb_spec (tag e) t) as [Heq|Hne].
    + split; [discriminate|]. intros H. apply Forall_cons in H as [H _]. contradiction.
    + rewrite IH. split; [intros H; constructor; assumption|].
      intros H. now apply Forall_cons in H as [_ H].
Qed.

Lemma first_tagged_Some t l i j e :
  first_tagged t l i = Some (j, e) →
  ∃ n : nat, j = i + Z.of_nat n ∧ l !! n = Some e ∧ tag e = t ∧
    ∀ m e', (m < n)%nat → l !! m = Some e' → tag e' ≠ t.
Proof.
  revert i. induction l as [|x l IH]; intros i; simpl; [discriminate|].
  destruct (String.eqb_spec (tag x) t) as [Heq|Hne].
  - intros H. injection H as <- <-. exists 0%nat.
    split; [lia|]. split; [reflexivity|]. split; [exact Heq|]. intros; lia.
  - intros H. destruct (IH _ H) as (n & Hj & Hn & Ht & Hfirst).
    exists (S n). split; [lia|]. split; [exact Hn|]. split; [exact Ht|].
    intros [|m] e' Hm He'; simpl in He'.
    + injection He' as <-. exact Hne.
    + apply (Hfirst m); [lia|exact He'].
Qed.

Lemma FindTextureSlot_from_first_tagged ids t n : ∀ k,
  (k + n ≤ length ids)%nat →
  FindTextureSlot_from ids t n (Z.of_nat k) =
    Ok (match first_tagged t (take n (drop k ids)) (Z.of_nat k) with
        | Some (i, _) => i
        | None => -1
        end).
Proof.
  induction n as [|n IH]; intros k Hlen; simpl.
  - reflexivity.
  - rewrite Nat2Z.id.
    destruct (ids !! k) as [e|] eqn:He; [|apply lookup_ge_None in He; lia].
    rewrite (drop_S _ _ _ He). simpl.
    destruct (String.eqb (tag e) t); [reflexivity|].
    replace (Z.of_nat k + 1) with (Z.of_nat (S k)) by lia. apply IH. lia.
Qed.

Lemma FindTextureID_from_first_tagged ids t n : ∀ k,
  (k + n ≤ length ids)%nat →
  FindTextureID_from ids t n (Z.of_nat k) =
    Ok (match first_tagged t (take n (drop k ids)) (Z.of_nat k) with
        | Some (_, e) => int_of_GLuint (ID e)
        | None => -1
        end).
Proof.
  induction n as [|n IH]; intros k Hlen; simpl.
  - reflexivity.
  - rewrite Nat2Z.id.
    destruct (ids !! k) as [e|] eqn:He; [|apply lookup_ge_None in He; lia].
    rewrite (drop_S _ _ _ He). simpl.
    destruct (String.eqb (tag e) t); [reflexivity|].
    replace (Z.of_nat k + 1) with (Z.of_nat (S k)) by lia. apply IH. lia.
Qed.

Lemma FindTextureSlot_registered t s :
  m_loadedTextures s ≤ Z.of_nat (length (m_textureIDs s)) →
  FindTextureSlot t s =
    Ok (match first_tagged t (registered s) 0 with Some (i, _) => i | None => -1 end).
Proof.
  intros Hlen. unfold FindTextureSlot, registered.
  rewrite (FindTextureSlot_from_first_tagged _ _ _ 0%nat) by lia. reflexivity.
Qed.

Lemma FindTextureID_registered t s :
  m_loadedTextures s ≤ Z.of_nat (length (m_textureIDs s)) →
  FindTextureID t s =
    Ok (match first_tagged t (registered s) 0 with
        | Some (_, e) => int_of_GLuint (ID e)
        | None => -1
        end).
Proof.
  intros Hlen. unfold FindTextureID, registered.
  rewrite (FindTextureID_from_first_tagged _ _ _ 0%nat) by lia. reflexivity.
Qed.

(** X6.  With the count within the array, [FindTextureSlot] always answers,
    and its answer is -1 exactly when no registered entry bears the tag;
    any other answer is a position below the count whose entry bears the
    tag, and no earlier entry does. *)
Theorem FindTextureSlot_answer (s : State) (t : string) :
  m_loadedTextures s ≤ Z.of_nat (length (m_textureIDs s)) →
  ∃ slot, FindTextureSlot t s = Ok slot ∧
    (slot = -1 ↔ Forall (λ e, tag e ≠ t) (registered s)) ∧
    (slot ≠ -1 →
       0 ≤ slot < m_loadedTextures s ∧
       ∃ e, m_textureIDs s !! Z.to_nat slot = Some e ∧ tag e = t ∧
         ∀ j e', (j < Z.to_nat slot)%nat → m_textureIDs s !! j = Some e' → tag e' ≠ t).
Proof.
  intros Hlen. rewrite (FindTextureSlot_registered _ _ Hlen).
  destruct (first_tagged t (registered s) 0) as [[i e]|] eqn:Hfind.
  - destruct (first_tagged_Some _ _ _ _ _ Hfind) as (n & Hi & Hn & Ht & Hfirst).
    apply registered_lookup in Hn as [Hlt Hn].
    exists i. split; [reflexivity|]. split.
    + split; [lia|]. intros Hno. apply first_tagged_None with (i := 0) in Hno. congruence.
    + intros _. split; [lia|]. exists e.
      replace (Z.to_nat i) with n by lia.
      split; [exact Hn|]. split; [exact Ht|].
      intros j e' Hj He'. apply (Hfirst j); [exact Hj|].
      unfold registered. rewrite lookup_take_lt by lia. exact He'.
  - exists (-1). split; [reflexivity|]. split; [|congruence].
    split; [intros _; now apply (first_tagged_None t _ 0)|reflexivity].
Qed.

Lemma int_of_GLuint_small u : 0 ≤ u < 2 ^ 31 → int_of_GLuint u = u.
Proof.
  intros Hu. unfold int_of_GLuint.
  rewrite Z.mod_small by lia. lia.
Qed.

Lemma int_of_GLuint_large u : 2 ^ 31 ≤ u < 2 ^ 32 → int_of_GLuint u = u - 2 ^ 32.
Proof.
  intros Hu. unfold int_of_GLuint.
  replace (u + 2 ^ 31) with (u - 2 ^ 31 + 1 * 2 ^ 32) by lia.
  rewrite Z.mod_add by lia. rewrite Z.mod_small by lia. lia.
Qed.

(** X7.  [FindTextureID] agrees with [FindTextureSlot]: it answers -1 when
    the slot is -1, and otherwise with the handle stored at the slot,
    converted from [GLuint] to [int].  A handle below 2^31 comes back as it
    is; a larger one comes back negative, and 4294967295 comes back as -1,
    the answer for a tag that is not registered. *)
Theorem FindTextureID_matches_slot (s : State) (t : string) (slot : Z) :
  m_loadedTextures s ≤ Z.of_nat (length (m_textureIDs s)) →
  FindTextureSlot t s = Ok slot →
  (slot = -1 → FindTextureID t s = Ok (-1)) ∧
  (slot ≠ -1 →
     ∃ e, m_textureIDs s !! Z.to_nat slot = Some e ∧
       FindTextureID t s = Ok (int_of_GLuint (ID e)) ∧
       (0 ≤ ID e < 2 ^ 31 → FindTextureID t s = Ok (ID e)) ∧
       (2 ^ 31 ≤ ID e < 2 ^ 32 → FindTextureID t s = Ok (ID e - 2 ^ 32)) ∧
       (ID e = 4294967295 → FindTextureID t s = Ok (-1))).
Proof.
  intros Hlen Hslot.
  rewrite (FindTextureSlot_registered _ _ Hlen) in Hslot.
  rewrite (FindTextureID_registered _ _ Hlen).
  destruct (first_tagged t (registered s) 0) as [[i e]|] eqn:Hfind.
  - injection Hslot as <-.
    destruct (first_tagged_Some _ _ _ _ _ Hfind) as (n & Hi & Hn & _).
    apply registered_lookup in Hn as [_ Hn].
    split; [lia|]. intros _. exists e.
    replace (Z.to_nat i) with n by lia.
    split; [exact Hn|]. split; [reflexivity|].
    split; [intros Hu; now rewrite int_of_GLuint_small|].
    split; [intros Hu; now rewrite int_of_GLuint_large|].
    intros ->. reflexivity.
  - injection Hslot as <-. split; [reflexivity|contradiction].
Qed.

(** ** A count beyond the array *)

Lemma FindTextureSlot_from_overrun ids t n : ∀ k,
  (k ≤ length ids < k + n)%nat → Forall (λ e, tag e ≠ t) ids →
  FindTextureSlot_from ids t n (Z.of_nat k) = Undefined.
Proof.
  induction n as [|n IH]; intros k Hk Hno; [lia|]. simpl. rewrite Nat2Z.id.
  destruct (ids !! k) as [e|] eqn:He; [|reflexivity].
  pose proof (lookup_lt_Some _ _ _ He) as Hlt.
  rewrite Forall_lookup in Hno. pose proof (Hno k e He) as Hne.
  destruct (String.eqb_spec (tag e) t); [contradiction|].
  replace (Z.of_nat k + 1) with (Z.of_nat (S k)) by lia.
  apply IH; [lia|]. now rewrite Forall_lookup.
Qed.

Lemma FindTextureID_from_overrun ids t n : ∀ k,
  (k ≤ length ids < k + n)%nat → Forall (λ e, tag e ≠ t) ids →
  FindTextureID_from ids t n (Z.of_nat k) = Undefined.
Proof.
  induction n as [|n IH]; intros k Hk Hno; [lia|]. simpl. rewrite Nat2Z.id.
  destruct (ids !! k) as [e|] eqn:He; [|reflexivity].
  pose proof (lookup_lt_Some _ _ _ He) as Hlt.
  rewrite Forall_lookup in Hno. pose proof (Hno k e He) as Hne.
  destruct (String.eqb_spec (tag e) t); [contradiction|].
  replace (Z.of_nat k + 1) with (Z.of_nat (S k)) by lia.
  apply IH; [lia|]. now rewrite Forall_lookup.
Qed.

Lemma BindGLTextures_from_overrun n : ∀ k s,
  (k ≤ length (m_textureIDs s) < k + n)%nat →
  BindGLTextures_from n (Z.of_nat k) s = Undefined.
Proof.
  induction n as [|n IH]; intros k s Hk; [lia|].
  simpl BindGLTextures_from. unfold glActiveTexture, glBindTexture.
  rewrite gl_call_bind. unfold mbind at 1, M_bind at 1, read.
  simpl m_textureIDs. rewrite Nat2Z.id.
  destruct (m_textureIDs s !! k) as [e|] eqn:He; [|reflexivity].
  pose proof (lookup_lt_Some _ _ _ He) as Hlt.
  rewrite gl_call_bind.
  replace (Z.of_nat k + 1) with (Z.of_nat (S k)) by lia.
  apply IH. simpl. lia.
Qed.

Lemma DestroyGLTextures_from_overrun n : ∀ k s,
  (k ≤ length (m_textureIDs s) < k + n)%nat →
  DestroyGLTextures_from n (Z.of_nat k) s = Undefined.
Proof.
  induction n as [|n IH]; intros k s Hk; [lia|].
  simpl DestroyGLTextures_from. rewrite glGenTextures_bind.
  destruct (decide (k < length (m_textureIDs s))%nat) as [Hlt|Hge].
  - rewrite store_ID_bind by (simpl; lia).
    replace (Z.of_nat k + 1) with (Z.of_nat (S k)) by lia.
    apply IH. simpl. rewrite length_alter. lia.
  - unfold mbind, M_bind, store_ID. simpl m_textureIDs.
    replace (Z.of_nat k <? Z.of_nat (length (m_textureIDs s))) with false
      by (symmetry; apply Z.ltb_ge; lia).
    now rewrite andb_false_r.
Qed.

(** X8.  When [m_loadedTextures] exceeds the length of [m_textureIDs],
    [BindGLTextures] and [DestroyGLTextures] run past the end of the array,
    and so do both lookups for a tag that no element of the array bears. *)
Theorem count_beyond_array (s : State) (t : string) :
  Z.of_nat (length (m_textureIDs s)) < m_loadedTextures s →
  BindGLTextures s = Undefined ∧
  DestroyGLTextures s = Undefined ∧
  (Forall (λ e, tag e ≠ t) (m_textureIDs s) →
     FindTextureSlot t s = Undefined ∧ FindTextureID t s = Undefined).
Proof.
  intros Hover.
  split; [apply (BindGLTextures_from_overrun _ 0%nat); lia|].
  split; [apply (DestroyGLTextures_from_overrun _ 0%nat); lia|].
  intros Hno. split.
  - apply (FindTextureSlot_from_overrun _ _ _ 0%nat); [lia|exact Hno].
  - apply (FindTextureID_from_overrun _ _ _ 0%nat); [lia|exact Hno].
Qed.

(** ** Loads and lookups *)

Lemma first_tagged_app t l e : ∀ i,
  first_tagged t (l ++ [e]) i =
    match first_tagged t l i with
    | Some r => Some r
    | None => if String.eqb (tag e) t then Some (i + Z.of_nat (length l), e) else None
    end.
Proof.
  induction l as [|x l IH]; intros i; simpl.
  - rewrite Z.add_0_r. reflexivity.
  - destruct (String.eqb (tag x) t); [reflexivity|].
    rewrite IH. destruct (first_tagged t l (i + 1)); [reflexivity|].
    destruct (String.eqb (tag e) t); [|reflexivity]. do 2 f_equal. lia.
Qed.

(** What a completed [CreateGLTexture] did to the registry. *)
Lemma CreateGLTexture_registry filename tag0 s b s' :
  0 ≤ m_loadedTextures s ≤ Z.of_nat (length (m_textureIDs s)) →
  CreateGLTexture filename tag0 s = Ok (b, s') →
  length (m_textureIDs s') = length (m_textureIDs s) ∧
  m_loadedTextures s' ≤ Z.of_nat (length (m_textureIDs s')) ∧
  ((b = false ∧ m_loadedTextures s' = m_loadedTextures s ∧ registered s' = registered s) ∨
   (b = true ∧ m_loadedTextures s' = m_loadedTextures s + 1 ∧
    registered s' =
      registered s ++ [{| ID := gen_name (gl_names (gl s)); tag := tag0 |}])).
Proof.
  intros Hn Hrun.
  destruct (stbi_load true filename) as [image|] eqn:Hload.
  - destruct (decide (img_channels image = 3 ∨ img_channels image = 4)) as [Hch|Hch].
    + assert (Hus : usable filename image) by (split; assumption).
      destruct (decide (m_loadedTextures s = Z.of_nat (length (m_textureIDs s))))
        as [Hfull|Hroom].
      { rewrite (CreateGLTexture_full _ _ _ _ Hus Hfull) in Hrun. discriminate. }
      assert (Hroom' : 0 ≤ m_loadedTextures s < Z.of_nat (length (m_textureIDs s)))
        by lia.
      rewrite (CreateGLTexture_loaded _ _ _ _ Hus Hroom') in Hrun.
      injection Hrun as <- <-. simpl. rewrite length_insert.
      split; [reflexivity|]. split; [lia|]. right.
      split; [reflexivity|]. split; [reflexivity|].
      apply registered_after_load. exact Hroom'.
    + destruct (CreateGLTexture_unsupported filename tag0 s image Hload) as [g Hg];
        [tauto|tauto|].
      rewrite Hg in Hrun. injection Hrun as <- <-. simpl.
      split; [reflexivity|]. split; [lia|]. left. repeat split.
  - rewrite (CreateGLTexture_undecoded _ _ _ Hload) in Hrun.
    injection Hrun as <- <-. split; [reflexivity|]. split; [lia|]. left. repeat split.
Qed.

(** X9.  Load, then look up.  After [CreateGLTexture] has returned [true]
    for a tag that was not registered, [FindTextureSlot] of the tag is the
    count before the load and [FindTextureID] of the tag is the handle
    [glGenTextures] gave (as an [int]). *)
Theorem CreateGLTexture_then_find (s s' : State) (filename tag0 : string) :
  0 ≤ m_loadedTextures s ≤ Z.of_nat (length (m_textureIDs s)) →
  Forall (λ e, tag e ≠ tag0) (registered s) →
  CreateGLTexture filename tag0 s = Ok (true, s') →
  FindTextureSlot tag0 s' = Ok (m_loadedTextures s) ∧
  FindTextureID tag0 s' = Ok (int_of_GLuint (gen_name (gl_names (gl s)))).
Proof.
  intros Hn Hno Hrun.
  destruct (CreateGLTexture_registry _ _ _ _ _ Hn Hrun) as (_ & Hlen' & [[? _]|(_ & _ & Hreg)]);
    [discriminate|].
  rewrite (FindTextureSlot_registered _ _ Hlen'), (FindTextureID_registered _ _ Hlen').
  rewrite Hreg, first_tagged_app.
  apply (first_tagged_None tag0 _ 0) in Hno. rewrite Hno.
  simpl tag. rewrite String.eqb_refl.
  rewrite registered_length by lia. split; [f_equal; lia|reflexivity].
Qed.

(** X10.  A load never changes what the lookups answer for a tag that is
    already registered, nor for any tag other than the one it loads under:
    a second load under a tag in use is registered but cannot be found. *)
Theorem CreateGLTexture_keeps_lookups (s s' : State) (filename tag0 t : string)
    (b : bool) :
  0 ≤ m_loadedTextures s ≤ Z.of_nat (length (m_textureIDs s)) →
  CreateGLTexture filename tag0 s = Ok (b, s') →
  t ≠ tag0 ∨ ¬ Forall (λ e, tag e ≠ t) (registered s) →
  FindTextureSlot t s' = FindTextureSlot t s ∧
  FindTextureID t s' = FindTextureID t s.
Proof.
  intros Hn Hrun Ht.
  destruct (CreateGLTexture_registry _ _ _ _ _ Hn Hrun) as (_ & Hlen' & Hreg).
  rewrite (FindTextureSlot_registered t s'), (FindTextureID_registered t s') by exact Hlen'.
  rewrite (FindTextureSlot_registered t s), (FindTextureID_registered t s) by lia.
  destruct Hreg as [(_ & _ & ->)|(_ & _ & ->)]; [split; reflexivity|].
  rewrite first_tagged_app.
  destruct (first_tagged t (registered s) 0) as [[i e]|] eqn:Hfind; [split; reflexivity|].
  simpl tag. destruct (String.eqb_spec tag0 t) as [Heq|Hne]; [|split; reflexivity].
  exfalso. destruct Ht as [Ht|Ht]; [congruence|].
  apply Ht. now apply (first_tagged_None t _ 0).
Qed.

(** X11.  When the image decodes but has neither three nor four channels,
    [CreateGLTexture] returns [false] with the registry as it was, but not
    the GL state: the texture name it generated stays in use, with its
    texture object, and stays bound to the active unit. *)
Theorem CreateGLTexture_unsupported_leaves_texture (s : State)
    (filename tag0 : string) (image : Image) :
  stbi_load true filename = Some image →
  img_channels image ≠ 3 → img_channels image ≠ 4 →
  ∃ s', CreateGLTexture filename tag0 s = Ok (false, s') ∧
    m_textureIDs s' = m_textureIDs s ∧
    m_loadedTextures s' = m_loadedTextures s ∧
    let id := gen_name (gl_names (gl s)) in
    (id ∉ gl_names (gl s)) ∧
    gl_names (gl s') = {[id]} ∪ gl_names (gl s) ∧
    gl_active (gl s') = gl_active (gl s) ∧
    gl_bound (gl s') !! gl_active (gl s) = Some id ∧
    ∃ tex, gl_objects (gl s') !! id = Some tex ∧
      wrap_s tex = GL_REPEAT ∧ wrap_t tex = GL_REPEAT ∧
      min_filter tex = GL_LINEAR ∧ mag_filter tex = GL_LINEAR.
Proof.
  intros Hload H3 H4.
  destruct (gen_name_fresh (gl_names (gl s))) as [Hfresh Hnz].
  set (g1 := {| gl_names := {[gen_name (gl_names (gl s))]} ∪ gl_names (gl s);
                gl_objects := gl_objects (gl s); gl_active := gl_active (gl s);
                gl_bound := gl_bound (gl s) |}).
  destruct (BindTexture_fresh_object (gen_name (gl_names (gl s))) g1 Hnz) as [tex Hbind].
  eexists. split.
  { unfold CreateGLTexture. rewrite Hload. rewrite glGenTextures_bind.
    unfold glBindTexture, glTexParameteri. rewrite !gl_call_bind.
    rewrite !gl_with_gl, !with_gl_twice. fold g1.
    apply Z.eqb_neq in H3, H4. rewrite H3, H4.
    rewrite ret_bind. unfold mret, M_ret. reflexivity. }
  rewrite Hbind. unfold TexParameteri.
  rewrite !update_bound_at by apply bound_texture_bind.
  simpl. split; [reflexivity|]. split; [reflexivity|].
  split; [exact Hfresh|]. split; [reflexivity|]. split; [reflexivity|].
  split; [apply lookup_insert_eq|].
  eexists. split; [apply lookup_insert_eq|].
  destruct tex; repeat split.
Qed.

(** X12.  A successful load keeps clear of everything loaded before: the
    handle it registers was not in use, the names in use grow by that one
    handle, every other texture object is as it was, and so is the binding
    of every unit but the active one, which is left bound to 0.  Shader
    manager, materials and call log are untouched. *)
Theorem CreateGLTexture_loaded_frame (s : State) (filename tag0 : string)
    (image : Image) :
  usable filename image →
  0 ≤ m_loadedTextures s < Z.of_nat (length (m_textureIDs s)) →
  ∃ s', CreateGLTexture filename tag0 s = Ok (true, s') ∧
    let id := gen_name (gl_names (gl s)) in
    (id ∉ gl_names (gl s)) ∧ id ≠ 0 ∧
    gl_names (gl s') = {[id]} ∪ gl_names (gl s) ∧
    gl_objects (gl s') !! id = Some (loaded_texture image) ∧
    (∀ x, x ≠ id → gl_objects (gl s') !! x = gl_objects (gl s) !! x) ∧
    gl_active (gl s') = gl_active (gl s) ∧
    gl_bound (gl s') !! gl_active (gl s) = Some 0 ∧
    (∀ u, u ≠ gl_active (gl s) → gl_bound (gl s') !! u = gl_bound (gl s) !! u) ∧
    (∀ j, j ≠ Z.to_nat (m_loadedTextures s) →
          m_textureIDs s' !! j = m_textureIDs s !! j) ∧
    m_pShaderManager s' = m_pShaderManager s ∧
    m_objectMaterials s' = m_objectMaterials s ∧
    calls s' = calls s.
Proof.
  intros Hus Hroom.
  destruct (gen_name_fresh (gl_names (gl s))) as [Hfresh Hnz].
  eexists. split; [apply CreateGLTexture_loaded; eassumption|].
  simpl. split; [exact Hfresh|]. split; [exact Hnz|].
  split; [reflexivity|]. split; [apply lookup_insert_eq|].
  split; [intros x Hx; now apply lookup_insert_ne|].
  split; [reflexivity|]. split; [apply lookup_insert_eq|].
  split; [intros u Hu; now apply lookup_insert_ne|].
  split; [intros j Hj; now apply list_lookup_insert_ne|].
  repeat split.
Qed.

(** X13.  The array bounds the loads: a sequence of usable images with more
    elements than [m_textureIDs] has free entries runs past the end of the
    array (the seventeenth load into an empty registry does). *)
Theorem load_textures_overflow (s : State) (loads : list (string * string)) :
  Forall (λ l, ∃ image, usable l.1 image) loads →
  0 ≤ m_loadedTextures s ≤ Z.of_nat (length (m_textureIDs s)) →
  Z.of_nat (length (m_textureIDs s)) < m_loadedTextures s + Z.of_nat (length loads) →
  load_textures loads s = Undefined.
Proof.
  revert s. induction loads as [|[f t] loads IH]; intros s Hus Hn Hover.
  - simpl in Hover. lia.
  - apply Forall_cons in Hus as [[image Him] Hus]. simpl in Him.
    simpl load_textures.
    destruct (decide (m_loadedTextures s = Z.of_nat (length (m_textureIDs s))))
      as [Hfull|Hroom].
    + unfold mbind, M_bind. now rewrite (CreateGLTexture_full _ _ _ _ Him Hfull).
    + assert (Hroom' : 0 ≤ m_loadedTextures s < Z.of_nat (length (m_textureIDs s)))
        by lia.
      rewrite (bind_Ok _ _ _ _ _ (CreateGLTexture_loaded f t s image Him Hroom')).
      apply IH; [exact Hus| |]; simpl; rewrite length_insert; simpl length in Hover; lia.
Qed.

(** ** Binding and teardown *)

Lemma BindGLTextures_from_bound n : ∀ k s,
  (k + n ≤ length (m_textureIDs s))%nat →
  (∀ j e, (k ≤ j < k + n)%nat → m_textureIDs s !! j = Some e →
     gl_bound (gl s) !! Z.of_nat j = Some (ID e) ∧
     (ID e = 0 ∨ is_Some (gl_objects (gl s) !! ID e))) →
  BindGLTextures_from n (Z.of_nat k) s =
    Ok (tt, with_gl {| gl_names := gl_names (gl s); gl_objects := gl_objects (gl s);
                       gl_active := match n with
                                    | O => gl_active (gl s)
                                    | S m => Z.of_nat (k + m)
                                    end;
                       gl_bound := gl_bound (gl s) |} s).
Proof.
  induction n as [|n IH]; intros k s Hlen Hb.
  - simpl. destruct s as [? ? ? ? [] ?]. reflexivity.
  - destruct (m_textureIDs s !! k) as [e|] eqn:He;
      [|apply lookup_ge_None in He; lia].
    destruct (Hb k e) as [Hbk Hobj]; [lia|exact He|].
    simpl BindGLTextures_from. unfold glActiveTexture, glBindTexture.
    rewrite gl_call_bind. unfold mbind at 1, M_bind at 1, read.
    simpl m_textureIDs. rewrite Nat2Z.id, He. rewrite gl_call_bind.
    rewrite gl_with_gl, with_gl_twice.
    assert (Hstep : BindTexture (ID e) (ActiveTexture (Z.of_nat k) (gl s)) =
      {| gl_names := gl_names (gl s); gl_objects := gl_objects (gl s);
         gl_active := Z.of_nat k; gl_bound := gl_bound (gl s) |}).
    { unfold BindTexture, ActiveTexture; simpl. f_equal.
      - destruct (gl_objects (gl s) !! ID e) eqn:E; [reflexivity|].
        destruct Hobj as [Hz|[tex Hs]]; [|congruence].
        destruct (decide (ID e = 0)); [reflexivity|contradiction].
      - now apply insert_id. }
    rewrite Hstep.
    replace (Z.of_nat k + 1) with (Z.of_nat (S k)) by lia.
    rewrite IH.
    + simpl. rewrite with_gl_twice. do 3 f_equal.
      destruct n; simpl; f_equal; lia.
    + simpl. lia.
    + simpl. intros j e' Hj He'. apply Hb; [lia|exact He'].
Qed.

Lemma BindTexture_object id g :
  id = 0 ∨ is_Some (gl_objects (BindTexture id g) !! id).
Proof.
  unfold BindTexture; simpl.
  destruct (gl_objects g !! id) as [tex|] eqn:E; [right; rewrite E; eauto|].
  destruct (decide (id = 0)); [now left|right].
  rewrite lookup_insert_eq. eauto.
Qed.

Lemma BindGLTextures_from_state n : ∀ k s,
  (k + n ≤ length (m_textureIDs s))%nat →
  ∃ g, BindGLTextures_from n (Z.of_nat k) s = Ok (tt, with_gl g s) ∧
    gl_active g = match n with
                  | O => gl_active (gl s)
                  | S m => Z.of_nat (k + m)
                  end ∧
    (∀ j e, (k ≤ j < k + n)%nat → m_textureIDs s !! j = Some e →
            gl_bound g !! Z.of_nat j = Some (ID e) ∧
            (ID e = 0 ∨ is_Some (gl_objects g !! ID e))) ∧
    (∀ u, ¬ (Z.of_nat k ≤ u < Z.of_nat (k + n)) →
          gl_bound g !! u = gl_bound (gl s) !! u) ∧
    (∀ x tex, gl_objects (gl s) !! x = Some tex → gl_objects g !! x = Some tex).
Proof.
  induction n as [|n IH]; intros k s Hlen.
  - exists (gl s). split; [destruct s; reflexivity|].
    split; [reflexivity|]. split; [intros; lia|]. split; auto.
  - destruct (m_textureIDs s !! k) as [e|] eqn:He;
      [|apply lookup_ge_None in He; lia].
    set (g1 := BindTexture (ID e) (ActiveTexture (Z.of_nat k) (gl s))).
    destruct (IH (S k) (with_gl g1 s)) as (g & Hrun & Hact & Hb & Hout & Hobj).
    { simpl. lia. }
    exists g. split.
    { simpl BindGLTextures_from. unfold glActiveTexture, glBindTexture.
      rewrite gl_call_bind. unfold mbind at 1, M_bind at 1, read.
      simpl m_textureIDs. rewrite Nat2Z.id, He. rewrite gl_call_bind.
      rewrite gl_with_gl, with_gl_twice.
      replace (Z.of_nat k + 1) with (Z.of_nat (S k)) by lia.
      fold g1. rewrite Hrun. now rewrite with_gl_twice. }
    simpl in Hact, Hb, Hout, Hobj.
    split.
    { rewrite Hact. destruct n; simpl; f_equal; lia. }
    split.
    { intros j e' Hj He'. destruct (decide (j = k)) as [->|Hjk].
      - rewrite He in He'. injection He' as <-. split.
        + rewrite Hout by lia. apply lookup_insert_eq.
        + destruct (BindTexture_object (ID e) (ActiveTexture (Z.of_nat k) (gl s)))
            as [Hz|[tex Htex]]; [now left|right].
          exists tex. apply Hobj. exact Htex.
      - apply Hb; [lia|exact He']. }
    split.
    { intros u Hu. rewrite Hout by lia. apply lookup_insert_ne. lia. }
    intros x tex Hx. apply Hobj. apply BindTexture_keeps_objects. exact Hx.
Qed.

(** X14.  Binding twice is binding once: a second [BindGLTextures] right
    after the first leaves the state exactly as the first left it. *)
Theorem BindGLTextures_idempotent (s : State) :
  m_loadedTextures s ≤ Z.of_nat (length (m_textureIDs s)) →
  ∃ s', BindGLTextures s = Ok (tt, s') ∧ BindGLTextures s' = Ok (tt, s').
Proof.
  intros Hlen.
  destruct (BindGLTextures_from_state (Z.to_nat (m_loadedTextures s)) 0%nat s) as
    (g & Hrun & Hact & Hb & _); [lia|].
  exists (with_gl g s). split; [exact Hrun|].
  unfold BindGLTextures. simpl m_loadedTextures.
  rewrite (BindGLTextures_from_bound _ 0%nat).
  - simpl. rewrite with_gl_twice. do 3 f_equal.
    destruct g as [names objects active bound]. simpl in *. f_equal.
    rewrite Hact. destruct (Z.to_nat (m_loadedTextures s)); reflexivity.
  - simpl. lia.
  - simpl. exact Hb.
Qed.



(** ** Scene preparation with files that fail *)

Lemma usableb_true filename :
  usableb filename = true ↔ ∃ image, usable filename image.
Proof.
  unfold usableb, usable. destruct (stbi_load true filename) as [image|].
  - rewrite orb_true_iff, !Z.eqb_eq. split; [eauto|].
    intros (image' & Heq & Hch). now injection Heq as ->.
  - split; [discriminate|]. intros (image' & Heq & _). discriminate.
Qed.

Lemma CreateGLTexture_flag filename tag0 s b s' :
  0 ≤ m_loadedTextures s < Z.of_nat (length (m_textureIDs s)) →
  CreateGLTexture filename tag0 s = Ok (b, s') → b = usableb filename.
Proof.
  intros Hroom Hrun. unfold usableb.
  destruct (stbi_load true filename) as [image|] eqn:Hload.
  - destruct (decide (img_channels image = 3 ∨ img_channels image = 4)) as [Hch|Hch].
    + assert (Hus : usable filename image) by (split; assumption).
      rewrite (CreateGLTexture_loaded _ _ _ _ Hus Hroom) in Hrun.
      injection Hrun as <- _. symmetry. apply orb_true_iff.
      rewrite !Z.eqb_eq. exact Hch.
    + destruct (CreateGLTexture_unsupported filename tag0 s image Hload) as [g Hg];
        [tauto|tauto|].
      rewrite Hg in Hrun. injection Hrun as <- _. symmetry. apply orb_false_iff.
      rewrite !Z.eqb_neq. tauto.
  - rewrite (CreateGLTexture_undecoded _ _ _ Hload) in Hrun. now injection Hrun as <- _.
Qed.

Lemma load_textures_accepted (loads : list (string * string)) (s : State) :
  0 ≤ m_loadedTextures s →
  m_loadedTextures s + Z.of_nat (length loads) ≤ Z.of_nat (length (m_textureIDs s)) →
  ∃ s', load_textures loads s = Ok (tt, s') ∧
    tag <$> registered s' = (tag <$> registered s) ++ (accepted loads).*2 ∧
    m_loadedTextures s' = m_loadedTextures s + Z.of_nat (length (accepted loads)) ∧
    length (m_textureIDs s') = length (m_textureIDs s) ∧
    m_pShaderManager s' = m_pShaderManager s ∧
    m_objectMaterials s' = m_objectMaterials s ∧
    calls s' = calls s.
Proof.
  revert s. induction loads as [|[f t] loads IH]; intros s Hn Hroom.
  - exists s. simpl. rewrite app_nil_r, Z.add_0_r. repeat split.
  - simpl length in Hroom.
    destruct (CreateGLTexture_step f t s) as (b & s1 & Hrun & Hsh & Hlen & Hcnt & Hmat & Hcalls);
      [lia|].
    assert (Hn' : 0 ≤ m_loadedTextures s ≤ Z.of_nat (length (m_textureIDs s))) by lia.
    destruct (CreateGLTexture_registry _ _ _ _ _ Hn' Hrun) as (_ & _ & Hreg).
    assert (Hroom1 : 0 ≤ m_loadedTextures s < Z.of_nat (length (m_textureIDs s))) by lia.
    pose proof (CreateGLTexture_flag _ _ _ _ _ Hroom1 Hrun) as Hb.
    destruct (IH s1) as (s' & Hrest & Htags & Hcount & Hlen' & Hsh' & Hmat' & Hcalls');
      [lia|lia|].
    exists s'. split; [simpl load_textures; now rewrite (bind_Ok _ _ _ _ _ Hrun)|].
    unfold accepted in *. rewrite filter_cons. simpl fst.
    destruct Hreg as [(Hf & Hc & Hr)|(Ht & Hc & Hr)]; subst b.
    + destruct (decide (usableb f = true)) as [Hy|_]; [congruence|].
      rewrite Htags, Hcount, Hr, Hc.
      repeat split; congruence.
    + destruct (decide (usableb f = true)) as [_|Hy]; [|congruence].
      rewrite Htags, Hcount, Hr, Hc, fmap_app. simpl.
      rewrite <- app_assoc. simpl.
      repeat split; try congruence. lia.
Qed.

(** X16.  A file that fails to load does not stop the ones after it.  A
    sequence of loads that fits the array, followed by [BindGLTextures],
    always completes, whichever files decode.  It registers exactly the
    accepted loads, in order (the tags of the registered entries are the old
    ones followed by the tags of the accepted loads), and it binds every
    registered texture to the unit of its position.  Shader manager,
    materials and call log are untouched. *)
Theorem loads_then_bind (loads : list (string * string)) (s : State) :
  0 ≤ m_loadedTextures s →
  m_loadedTextures s + Z.of_nat (length loads) ≤ Z.of_nat (length (m_textureIDs s)) →
  ∃ s', (load_textures loads ≫= λ _, BindGLTextures) s = Ok (tt, s') ∧
    tag <$> registered s' = (tag <$> registered s) ++ (accepted loads).*2 ∧
    m_loadedTextures s' = m_loadedTextures s + Z.of_nat (length (accepted loads)) ∧
    (∀ i e, registered s' !! i = Some e → gl_bound (gl s') !! Z.of_nat i = Some (ID e)) ∧
    m_pShaderManager s' = m_pShaderManager s ∧
    m_objectMaterials s' = m_objectMaterials s ∧
    calls s' = calls s.
Proof.
  intros Hn Hroom.
  destruct (load_textures_accepted loads s Hn Hroom) as
    (s1 & Hload & Htags & Hcount & Hlen & Hsh & Hmat & Hcalls).
  assert (Hle : (length (accepted loads) ≤ length loads)%nat)
    by apply length_filter.
  destruct (BindGLTextures_from_run (Z.to_nat (m_loadedTextures s1)) 0%nat s1) as
    (g & Hbind & _ & Hb & _); [lia|].
  exists (with_gl g s1). split.
  { rewrite (bind_Ok _ _ _ _ _ Hload). exact Hbind. }
  split; [exact Htags|]. split; [exact Hcount|].
  split.
  { intros i e He. apply registered_lookup in He as [Hi He].
    simpl in Hi, He. simpl. apply Hb; [lia|exact He]. }
  repeat split; assumption.
Qed.

Lemma LoadSceneTextures_as_loads s :
  LoadSceneTextures s = (load_textures scene_loads ≫= λ _, BindGLTextures) s.
Proof.
  unfold LoadSceneTextures, scene_loads. cbn [load_textures].
  unfold mbind, M_bind.
  repeat match goal with
  | |- context [CreateGLTexture ?f ?t ?s0] =>
      destruct (CreateGLTexture f t s0) as [[? ?]|]; [|reflexivity]
  end.
  reflexivity.
Qed.

Lemma lights_and_meshes_emits :
  ∃ ev, emits
    (SetupSceneLights;; LoadXMesh Plane;; LoadXMesh Sphere;; LoadXMesh Torus;;
     LoadXMesh TaperedCylinder;; LoadXMesh Box;; LoadXMesh Cylinder;; LoadXMesh Prism) ev ∧
    ∀ s, loaded_meshes (ev s) =
           [Plane; Sphere; Torus; TaperedCylinder; Box; Cylinder; Prism] ∧
         drawn (ev s) = [] ∧
         (∀ acc, last_upload "bUseLighting" (ev s) acc = Some (UBool true)) ∧
         Forall definite (ev s).
Proof.
  eexists. split.
  - unfold SetupSceneLights, setVec3Value3, setBoolValue, setVec3Value, setFloatValue.
    eapply emits_bind.
    + repeat (eapply emits_bind; [apply emits_shader_call|]).
      apply emits_shader_call.
    + repeat (eapply emits_bind; [apply emits_LoadXMesh|]).
      apply emits_LoadXMesh.
  - intros s. cbv beta. split; [reflexivity|]. split; [reflexivity|].
    split; [intros acc; reflexivity|]. simpl. repeat constructor.
Qed.

(** The state [PrepareScene] leaves, in terms of what the loads left. *)
Lemma PrepareScene_state (s : State) :
  m_pShaderManager s = true →
  m_loadedTextures s = 0 → length (m_textureIDs s) = texture_capacity →
  ∃ sL ev,
    PrepareScene s =
      Ok (tt, log ev (with_materials (m_objectMaterials s ++ materials_defined) sL)) ∧
    tag <$> registered sL = (accepted scene_loads).*2 ∧
    m_loadedTextures sL = Z.of_nat (length (accepted scene_loads)) ∧
    length (m_textureIDs sL) = texture_capacity ∧
    m_pShaderManager sL = true ∧
    calls sL = calls s ∧
    loaded_meshes ev = [Plane; Sphere; Torus; TaperedCylinder; Box; Cylinder; Prism] ∧
    drawn ev = [] ∧
    (∀ acc, last_upload "bUseLighting" ev acc = Some (UBool true)) ∧
    Forall definite ev.
Proof.
  intros Hsh Hzero Hcap.
  assert (Hle : (length (accepted scene_loads) ≤ 11)%nat)
    by apply (length_filter _ scene_loads).
  destruct (load_textures_accepted scene_loads s) as
    (s1 & Hload & Htags & Hcount & Hlen & Hsh1 & Hmat1 & Hcalls1).
  { lia. }
  { rewrite Hzero, Hcap. unfold texture_capacity. simpl. lia. }
  destruct (BindGLTextures_from_run (Z.to_nat (m_loadedTextures s1)) 0%nat s1) as
    (g & Hbind & _); [unfold texture_capacity in *; lia|].
  assert (Hreg0 : registered s = []) by (unfold registered; now rewrite Hzero).
  rewrite Hreg0 in Htags. simpl in Htags. rewrite Hzero, Z.add_0_l in Hcount.
  destruct lights_and_meshes_emits as (ev & Hem & Hsum).
  set (s2 := with_materials (m_objectMaterials s ++ materials_defined) (with_gl g s1)).
  assert (Hok : scene_ok s2).
  { unfold s2. split; simpl; [congruence|]. unfold texture_capacity in *. lia. }
  destruct (Hsum s2) as (Hm & Hd & Hl & Hdef).
  exists (with_gl g s1), (ev s2). split.
  { assert (HL : LoadSceneTextures s = Ok (tt, with_gl g s1)).
    { rewrite LoadSceneTextures_as_loads. rewrite (bind_Ok _ _ _ _ _ Hload).
      exact Hbind. }
    unfold PrepareScene. rewrite (bind_Ok _ _ _ _ _ HL).
    rewrite (bind_Ok _ _ _ _ _ (DefineObjectMaterials_run (with_gl g s1))).
    simpl m_objectMaterials. rewrite Hmat1. apply Hem. exact Hok. }
  split; [exact Htags|]. split; [exact Hcount|].
  split; [simpl; congruence|]. split; [simpl; congruence|].
  split; [exact Hcalls1|]. repeat split; assumption.
Qed.

(** X17.  [PrepareScene] always completes when a shader manager is attached
    and the texture count starts at 0, whichever of its eleven files
    decode.  Afterwards the registered tags are those of the accepted
    files, in load order, at most eleven; the four materials are appended
    to the ones defined before; each of the seven meshes has been loaded
    once, in the order plane, sphere, torus, tapered cylinder, box,
    cylinder, prism; nothing has been drawn; and lighting is switched on. *)
Theorem PrepareScene_completes (s : State) :
  m_pShaderManager s = true →
  m_loadedTextures s = 0 → length (m_textureIDs s) = texture_capacity →
  ∃ s', PrepareScene s = Ok (tt, s') ∧
    tag <$> registered s' = (accepted scene_loads).*2 ∧
    0 ≤ m_loadedTextures s' ≤ 11 ∧
    length (m_textureIDs s') = texture_capacity ∧
    m_objectMaterials s' = m_objectMaterials s ++ materials_defined ∧
    loaded_meshes (calls s') =
      loaded_meshes (calls s)
      ++ [Plane; Sphere; Torus; TaperedCylinder; Box; Cylinder; Prism] ∧
    drawn (calls s') = drawn (calls s) ∧
    uniform "bUseLighting" s' = Some (UBool true).
Proof.
  intros Hsh Hzero Hcap.
  destruct (PrepareScene_state s Hsh Hzero Hcap) as
    (sL & ev & Hrun & Htags & Hcount & Hlen & _ & Hcalls & Hm & Hd & Hl & _).
  assert (Hle : (length (accepted scene_loads) ≤ 11)%nat)
    by apply (length_filter _ scene_loads).
  eexists. split; [exact Hrun|].
  split; [exact Htags|]. split; [simpl; lia|]. split; [exact Hlen|].
  split; [reflexivity|]. simpl calls. rewrite Hcalls.
  split; [unfold loaded_meshes; rewrite omap_app; f_equal; exact Hm|].
  split; [rewrite drawn_app, Hd; apply app_nil_r|].
  unfold uniform. simpl calls. rewrite Hcalls, last_upload_app. apply Hl.
Qed.

(** ** What the frame uploads *)

Ltac pick_event := first [reflexivity | left; pick_event | right; pick_event].

Lemma RenderVase_samples_tan :
  ∃ ev, emits RenderVase ev ∧
    ∀ s, SetUniform g_TextureValueName (USampler2D (slot_of "tan" s)) ∈ ev s.
Proof.
  eexists. split; [unfold RenderVase; emits_chain|].
  intros s. cbv beta. rewrite !elem_of_app, !elem_of_cons. pick_event.
Qed.

(** X18.  The vase asks for a texture that is never there.  After
    [PrepareScene], whichever files decoded, no tag outside the eleven that
    [LoadSceneTextures] loads under has a slot; "tan", which [RenderVase]
    passes to [SetShaderTexture], is such a tag (the file tan.jpg is loaded
    under "vase"), so [RenderVase] uploads the sampler -1. *)
Theorem RenderVase_uploads_missing_sampler (s : State) :
  m_pShaderManager s = true →
  m_loadedTextures s = 0 → length (m_textureIDs s) = texture_capacity →
  ∃ s1 evs, PrepareScene s = Ok (tt, s1) ∧
    (∀ t, t ∉ scene_loads.*2 → FindTextureSlot t s1 = Ok (-1)) ∧
    FindTextureSlot "tan" s1 = Ok (-1) ∧
    RenderVase s1 = Ok (tt, log evs s1) ∧
    SetUniform "objectTexture" (USampler2D (-1)) ∈ evs.
Proof.
  intros Hsh Hzero Hcap.
  destruct (PrepareScene_state s Hsh Hzero Hcap) as
    (sL & ev & Hrun & Htags & Hcount & Hlen & HshL & _).
  assert (Hle : (length (accepted scene_loads) ≤ 11)%nat)
    by apply (length_filter _ scene_loads).
  set (s1 := log ev (with_materials (m_objectMaterials s ++ materials_defined) sL)) in *.
  assert (Hok : scene_ok s1).
  { unfold s1. split; simpl; [exact HshL|]. unfold texture_capacity in *. lia. }
  assert (Hmiss : ∀ t, t ∉ scene_loads.*2 → FindTextureSlot t s1 = Ok (-1)).
  { intros t Ht. apply FindTextureSlot_absent; [apply Hok|].
    change (registered s1) with (registered sL).
    rewrite Forall_lookup. intros j e He Heq. apply Ht.
    assert (Hin : tag e ∈ tag <$> registered sL).
    { apply list_elem_of_fmap. exists e. split; [reflexivity|].
      apply list_elem_of_lookup. eauto. }
    rewrite Htags, Heq in Hin.
    apply list_elem_of_fmap in Hin as (l & Hl & Hin).
    apply list_elem_of_fmap. exists l. split; [exact Hl|].
    unfold accepted in Hin. apply list_elem_of_filter in Hin. tauto. }
  assert (Htan : FindTextureSlot "tan" s1 = Ok (-1)).
  { apply Hmiss. unfold scene_loads. simpl. intros Hin.
    repeat (apply elem_of_cons in Hin as [Hin|Hin]; [discriminate|]).
    now apply not_elem_of_nil in Hin. }
  destruct RenderVase_samples_tan as (evV & [HemV _] & Hin).
  exists s1, (evV s1). split; [exact Hrun|].
  split; [exact Hmiss|]. split; [exact Htan|].
  split; [apply HemV; exact Hok|].
  specialize (Hin s1). unfold slot_of in Hin. rewrite Htan in Hin. exact Hin.
Qed.

Lemma material_uploads_definite t s :
  m_objectMaterials s = materials_defined →
  t = "wood"%string ∨ t = "glass"%string ∨ t = "clay"%string →
  Forall definite (material_uploads t s).
Proof.
  intros Hm Ht. unfold material_uploads, FindMaterial. rewrite Hm.
  destruct Ht as [ -> | [ -> | -> ] ]; simpl; repeat constructor.
Qed.

Ltac definite_summary :=
  intros s Hm; cbv beta; rewrite ?Forall_app;
  repeat split;
  first [ apply material_uploads_definite; [exact Hm|auto]
        | repeat constructor ].

Lemma RenderFloor_definite :
  ∃ ev, emits RenderFloor ev ∧
    ∀ s, m_objectMaterials s = materials_defined → Forall definite (ev s).
Proof. eexists. split; [unfold RenderFloor; emits_chain|definite_summary]. Qed.

Lemma RenderWall_definite :
  ∃ ev, emits RenderWall ev ∧
    ∀ s, m_objectMaterials s = materials_defined → Forall definite (ev s).
Proof. eexists. split; [unfold RenderWall; emits_chain|definite_summary]. Qed.

Lemma RenderBookcase_definite :
  ∃ ev, emits RenderBookcase ev ∧
    ∀ s, m_objectMaterials s = materials_defined → Forall definite (ev s).
Proof. eexists. split; [unfold RenderBookcase; emits_chain|definite_summary]. Qed.

Lemma RenderWindow_definite :
  ∃ ev, emits RenderWindow ev ∧
    ∀ s, m_objectMaterials s = materials_defined → Forall definite (ev s).
Proof. eexists. split; [unfold RenderWindow; emits_chain|definite_summary]. Qed.

Lemma RenderVase_definite :
  ∃ ev, emits RenderVase ev ∧
    ∀ s, m_objectMaterials s = materials_defined → Forall definite (ev s).
Proof. eexists. split; [unfold RenderVase; emits_chain|definite_summary]. Qed.

Lemma RenderBook_definite :
  ∃ ev, emits RenderBook ev ∧
    ∀ s, m_objectMaterials s = materials_defined → Forall definite (ev s).
Proof. eexists. split; [unfold RenderBook; emits_chain|definite_summary]. Qed.

Lemma RenderDesk_definite :
  ∃ ev, emits RenderDesk ev ∧
    ∀ s, m_objectMaterials s = materials_defined → Forall definite (ev s).
Proof. eexists. split; [unfold RenderDesk; emits_chain|definite_summary]. Qed.

Lemma RenderCat_definite :
  ∃ ev, emits RenderCat ev ∧
    ∀ s, m_objectMaterials s = materials_defined → Forall definite (ev s).
Proof. eexists. split; [unfold RenderCat; emits_chain|definite_summary]. Qed.

Lemma RenderScene_definite :
  ∃ ev, emits RenderScene ev ∧
    ∀ s, m_objectMaterials s = materials_defined → Forall definite (ev s).
Proof.
  destruct RenderFloor_definite as (e1 & H1 & S1), RenderWall_definite as (e2 & H2 & S2),
    RenderBookcase_definite as (e3 & H3 & S3), RenderWindow_definite as (e4 & H4 & S4),
    RenderVase_definite as (e5 & H5 & S5), RenderBook_definite as (e6 & H6 & S6),
    RenderDesk_definite as (e7 & H7 & S7), RenderCat_definite as (e8 & H8 & S8).
  eexists. split.
  - unfold RenderScene. repeat (eapply emits_bind; [eassumption|]). eassumption.
  - intros s Hm. cbv beta. rewrite !Forall_app. repeat split; auto.
Qed.

(** X19.  In the scene as it is written, the never-assigned local of
    [SetShaderMaterial] is never sent.  Prepared from a scene manager with
    no material defined, a frame uploads only definite values: each of the
    tags the object routines pass ("wood", "glass", "clay") is found, and
    so is every value the preparation uploads. *)
Theorem frame_uploads_are_definite (s : State) :
  m_pShaderManager s = true →
  m_loadedTextures s = 0 → length (m_textureIDs s) = texture_capacity →
  m_objectMaterials s = [] →
  ∃ s1 s2 evs, PrepareScene s = Ok (tt, s1) ∧ RenderScene s1 = Ok (tt, s2) ∧
    calls s2 = calls s ++ evs ∧ Forall definite evs.
Proof.
  intros Hsh Hzero Hcap Hempty.
  destruct (PrepareScene_state s Hsh Hzero Hcap) as
    (sL & ev & Hrun & _ & Hcount & Hlen & HshL & Hcalls & _ & _ & _ & Hdef).
  assert (Hle : (length (accepted scene_loads) ≤ 11)%nat)
    by apply (length_filter _ scene_loads).
  set (s1 := log ev (with_materials (m_objectMaterials s ++ materials_defined) sL)) in *.
  assert (Hok : scene_ok s1).
  { unfold s1. split; simpl; [exact HshL|]. unfold texture_capacity in *. lia. }
  assert (Hmat : m_objectMaterials s1 = materials_defined)
    by (unfold s1; simpl; now rewrite Hempty).
  destruct RenderScene_definite as (frame & [Hem _] & Hframe).
  exists s1, (log (frame s1) s1), (ev ++ frame s1).
  split; [exact Hrun|]. split; [apply Hem; exact Hok|].
  split; [unfold s1; simpl; now rewrite Hcalls, app_assoc|].
  apply Forall_app. split; [exact Hdef|apply Hframe; exact Hmat].
Qed.

(** ** Where the model matrix puts things *)

Section Placement.
Local Open Scope R_scope.

Lemma model_on_point sc rx ry rz p x y z w :
  glm.mulv (glm.translate p
            * glm.rotate (glm.radians rz) (glm.Vec3 0 0 1)
            * glm.rotate (glm.radians ry) (glm.Vec3 0 1 0)
            * glm.rotate (glm.radians rx) (glm.Vec3 1 0 0)
            * glm.scale sc)%mat (glm.Vec4 x y z w) =
  let cx := cos (glm.radians rx) in let sx := sin (glm.radians rx) in
  let cy := cos (glm.radians ry) in let sy := sin (glm.radians ry) in
  let cz := cos (glm.radians rz) in let sz := sin (glm.radians rz) in
  let x0 := glm.x3 sc * x in let y0 := glm.y3 sc * y in let z0 := glm.z3 sc * z in
  let y1 := cx * y0 - sx * z0 in let z1 := sx * y0 + cx * z0 in
  let x2 := cy * x0 + sy * z1 in let z2 := - sy * x0 + cy * z1 in
  let x3 := cz * x2 - sz * y1 in let y3 := sz * x2 + cz * y1 in
  glm.Vec4 (x3 + glm.x3 p * w) (y3 + glm.y3 p * w) (z2 + glm.z3 p * w) w.
Proof.
  rewrite model_matrix_acts. rewrite scale_point, rotate_X, rotate_Y, rotate_Z.
  unfold glm.translate, glm.identity.
  cbn [glm.col0 glm.col1 glm.col2 glm.col3 glm.x3 glm.y3 glm.z3].
  repeat (rewrite mulv_columns; unfold glm.vadd, glm.vscale;
          cbn [glm.x4 glm.y4 glm.z4 glm.w4]).
  cbv zeta. f_equal; ring.
Qed.

End Placement.

(** X20.  Where [SetTransformations] puts an object.  With a shader manager
    attached, the matrix it uploads sends the mesh origin to [positionXYZ]
    whatever the scale and the angles, keeps the fourth coordinate of every
    vector, and, when the three angles are 0, sends a point to its
    coordinates times the scale plus the position. *)
Theorem SetTransformations_places (s : State) (scaleXYZ : glm.vec3)
    (XrotationDegrees YrotationDegrees ZrotationDegrees : R) (positionXYZ : glm.vec3) :
  m_pShaderManager s = true →
  ∃ s' model,
    SetTransformations scaleXYZ XrotationDegrees YrotationDegrees ZrotationDegrees
      positionXYZ s = Ok (tt, s') ∧
    uniform "model" s' = Some (UMat4 model) ∧
    glm.mulv model (glm.Vec4 0 0 0 1) =
      glm.Vec4 (glm.x3 positionXYZ) (glm.y3 positionXYZ) (glm.z3 positionXYZ) 1 ∧
    (∀ x y z w, glm.w4 (glm.mulv model (glm.Vec4 x y z w)) = w) ∧
    (XrotationDegrees = 0%R → YrotationDegrees = 0%R → ZrotationDegrees = 0%R →
     ∀ x y z, glm.mulv model (glm.Vec4 x y z 1) =
       glm.Vec4 (glm.x3 scaleXYZ * x + glm.x3 positionXYZ)
                (glm.y3 scaleXYZ * y + glm.y3 positionXYZ)
                (glm.z3 scaleXYZ * z + glm.z3 positionXYZ) 1).
Proof.
  intros Hsh. eexists _, _.
  split; [apply SetTransformations_attached; exact Hsh|].
  split; [apply (uniform_log_last "model" _ [])|].
  split; [|split].
  - rewrite model_on_point. cbv zeta. f_equal; ring.
  - intros x y z w. rewrite model_on_point. reflexivity.
  - intros -> -> -> x y z. rewrite model_on_point. cbv zeta.
    rewrite radians_0, cos_0, sin_0. f_equal; ring.
Qed.

(** ** The scene without a shader manager *)

(** X21.  The guard of the four binder functions does not carry the scene:
    without a shader manager [PrepareScene], once its loads are through,
    calls through the null pointer in [SetupSceneLights], and [RenderScene]
    does so in the first [SetShaderMaterial] as soon as a material is
    defined. *)
Theorem scene_without_shader_manager (s : State) :
  m_pShaderManager s = false →
  (m_loadedTextures s = 0 → length (m_textureIDs s) = texture_capacity →
     PrepareScene s = Undefined) ∧
  (m_objectMaterials s ≠ [] → RenderScene s = Undefined).
Proof.
  intros Hsh. split.
  - intros Hzero Hcap.
    destruct (LoadSceneTextures_run s Hzero Hcap) as (s1 & Hload & Hsh1 & _).
    unfold PrepareScene. rewrite (bind_Ok _ _ _ _ _ Hload).
    rewrite (bind_Ok _ _ _ _ _ (DefineObjectMaterials_run s1)).
    unfold SetupSceneLights, setBoolValue.
    unfold mbind at 1, M_bind at 1. unfold mbind at 1, M_bind at 1.
    unfold shader_call. simpl m_pShaderManager. now rewrite Hsh1, Hsh.
  - intros Hne.
    assert (Huv : SetTextureUVScale 1.0 1.0 s = Ok (tt, s))
      by (unfold SetTextureUVScale, if_shader; now rewrite Hsh).
    assert (Hmat : SetShaderMaterial "wood" s = Undefined).
    { unfold SetShaderMaterial, FindMaterial.
      destruct (m_objectMaterials s) as [|m ms]; [congruence|].
      simpl length. simpl Nat.ltb. simpl Nat.eqb. cbv iota.
      destruct (FindMaterial_scan (m :: ms) "wood" OBJECT_MATERIAL_default)
        as [bFound material].
      unfold setVec3Value, mbind, M_bind, shader_call. now rewrite Hsh. }
    assert (Hfloor : RenderFloor s = Undefined).
    { unfold RenderFloor. cbv zeta.
      rewrite (bind_Ok _ _ _ _ _ (SetTransformations_detached _ _ _ _ _ _ Hsh)).
      rewrite (bind_Ok _ _ _ _ _ (SetShaderTexture_detached _ _ Hsh)).
      rewrite (bind_Ok _ _ _ _ _ Huv).
      unfold mbind at 1, M_bind at 1. now rewrite Hmat. }
    unfold RenderScene. unfold mbind at 1, M_bind at 1. now rewrite Hfloor.
Qed.

End Textures.

(** * Instances

    Each property above that rests on assumptions is applied here to a
    concrete scene, with the sample decoder and name generator. *)

Lemma next_name_fresh (used : gset Z) : (next_name used ∉ used) ∧ next_name used ≠ 0.
Proof.
  unfold next_name. pose proof (is_fresh ({[0]} ∪ used)) as H. split.
  - intros Hin. apply H, elem_of_union_r, Hin.
  - intros Hz. apply H, elem_of_union_l, elem_of_singleton. exact Hz.
Qed.

Lemma SetTransformations_model_matrix_witness :
  m_pShaderManager new_scene = true ∧
  let Translate := glm.translate (glm.Vec3 5 0 0) in
  let RotateZ := glm.rotate (glm.radians 0) (glm.Vec3 0 0 1) in
  let RotateY := glm.rotate (glm.radians 90) (glm.Vec3 0 1 0) in
  let RotateX := glm.rotate (glm.radians 0) (glm.Vec3 1 0 0) in
  let Scale := glm.scale (glm.Vec3 2 1 1) in
  let model := (Translate * RotateZ * RotateY * RotateX * Scale)%mat in
  ∃ s', SetTransformations (glm.Vec3 2 1 1) 0 90 0 (glm.Vec3 5 0 0) new_scene
          = Ok (tt, s') ∧
    calls s' = calls new_scene ++ [SetUniform "model" (UMat4 model)] ∧
    uniform "model" s' = Some (UMat4 model) ∧
    ∀ v, glm.mulv model v =
         glm.mulv Translate (glm.mulv RotateZ (glm.mulv RotateY
           (glm.mulv RotateX (glm.mulv Scale v)))).
Proof.
  split; [reflexivity|].
  apply (SetTransformations_model_matrix new_scene (glm.Vec3 2 1 1) 0 90 0
           (glm.Vec3 5 0 0)).
  reflexivity.
Defined.

Lemma textures_bound_in_load_order_witness :
  let loads := [("wood.jpg", "floor"); ("wall.jpg", "wall")]%string in
  m_loadedTextures new_scene = 0 ∧
  length (m_textureIDs new_scene) = texture_capacity ∧
  (length loads ≤ texture_capacity)%nat ∧
  NoDup (loads.*2) ∧
  Forall (λ l, ∃ image, usable sample_decoder l.1 image) loads ∧
  ∃ s, (load_textures sample_decoder next_name loads
          ≫= λ _, BindGLTextures) new_scene = Ok (tt, s) ∧
    m_loadedTextures s = Z.of_nat (length loads) ∧
    ∀ n f t, loads !! n = Some (f, t) →
      ∃ id image,
        m_textureIDs s !! n = Some {| ID := id; tag := t |} ∧
        usable sample_decoder f image ∧
        gl_objects (gl s) !! id = Some (loaded_texture image) ∧
        gl_bound (gl s) !! Z.of_nat n = Some id ∧
        FindTextureSlot t s = Ok (Z.of_nat n).
Proof.
  intros loads.
  assert (H1 : m_loadedTextures new_scene = 0) by reflexivity.
  assert (H2 : length (m_textureIDs new_scene) = texture_capacity) by reflexivity.
  assert (H3 : (length loads ≤ texture_capacity)%nat) by (simpl; unfold texture_capacity; lia).
  assert (H4 : NoDup (loads.*2)).
  { simpl. apply NoDup_cons. split; [|apply NoDup_singleton].
    intros H. apply list_elem_of_singleton in H. discriminate H. }
  assert (H5 : Forall (λ l, ∃ image, usable sample_decoder l.1 image) loads).
  { repeat constructor; eexists; (split; [reflexivity|left; reflexivity]). }
  repeat (split; [assumption|]).
  exact (textures_bound_in_load_order sample_decoder next_name next_name_fresh
           new_scene loads H1 H2 H3 H4 H5).
Defined.

Lemma SetShaderTexture_unknown_tag_witness :
  m_loadedTextures sample_scene ≤ Z.of_nat (length (m_textureIDs sample_scene)) ∧
  Forall (λ e, tag e ≠ "nonexistent") (registered sample_scene) ∧
  FindTextureID "nonexistent" sample_scene = Ok (-1) ∧
  FindTextureSlot "nonexistent" sample_scene = Ok (-1) ∧
  ∃ s', SetShaderTexture "nonexistent" sample_scene = Ok (tt, s') ∧
    (m_pShaderManager sample_scene = true →
       calls s' = calls sample_scene ++ [SetUniform "bUseTexture" (UInt 1);
                                         SetUniform "objectTexture" (USampler2D (-1))] ∧
       uniform "bUseTexture" s' = Some (UInt 1) ∧
       uniform "objectTexture" s' = Some (USampler2D (-1))) ∧
    (m_pShaderManager sample_scene = false → s' = sample_scene).
Proof.
  assert (H2 : m_loadedTextures sample_scene
               ≤ Z.of_nat (length (m_textureIDs sample_scene))) by (simpl; lia).
  assert (H3 : Forall (λ e, tag e ≠ "nonexistent") (registered sample_scene))
    by (repeat constructor; discriminate).
  repeat (split; [assumption|]).
  exact (SetShaderTexture_unknown_tag sample_scene "nonexistent" H2 H3).
Defined.

Lemma lookup_returns_first_match_witness :
  FindTextureSlot "floor" sample_scene = Ok 1 ∧
  FindTextureID "floor" sample_scene = Ok 7 ∧
  FindMaterial "wood" OBJECT_MATERIAL_default sample_scene =
    (true, {| ambientColor := Indeterminate; ambientStrength := Indeterminate;
              diffuseColor := Holds (glm.Vec3 0.2 0.2 0.3);
              specularColor := Holds (glm.Vec3 0.0 0.0 0.0);
              shininess := Holds 0.1%R; mtag := EmptyString |}).
Proof.
  destruct (lookup_returns_first_match sample_scene "floor") as [Htex _].
  destruct (lookup_returns_first_match sample_scene "wood") as [_ Hmat].
  destruct (Htex [ {| ID := 8; tag := "wall" |} ] {| ID := 7; tag := "floor" |}
                 [ {| ID := 9; tag := "floor" |} ]) as [Hslot Hid];
    [reflexivity|reflexivity|repeat constructor; discriminate|].
  split; [exact Hslot|]. split; [exact Hid|].
  pose proof (Hmat [_] _ [_; _; _] OBJECT_MATERIAL_default eq_refl eq_refl) as Hwood.
  apply Hwood. repeat constructor; discriminate.
Defined.

Lemma CreateGLTexture_result_witness :
  ((∃ image, usable sample_decoder "wood.jpg" image) →
   0 ≤ m_loadedTextures new_scene < Z.of_nat (length (m_textureIDs new_scene))) ∧
  ∃ b s', CreateGLTexture sample_decoder next_name "wood.jpg" "floor" new_scene
            = Ok (b, s') ∧
    (b = true ↔ ∃ image, usable sample_decoder "wood.jpg" image) ∧
    (b = true →
       registered s' =
         registered new_scene
         ++ [{| ID := next_name (gl_names (gl new_scene)); tag := "floor" |}] ∧
       m_loadedTextures s' = m_loadedTextures new_scene + 1 ∧
       length (m_textureIDs s') = length (m_textureIDs new_scene)) ∧
    (b = false →
       m_textureIDs s' = m_textureIDs new_scene ∧
       m_loadedTextures s' = m_loadedTextures new_scene ∧
       registered s' = registered new_scene).
Proof.
  assert (H : (∃ image, usable sample_decoder "wood.jpg" image) →
              0 ≤ m_loadedTextures new_scene
                < Z.of_nat (length (m_textureIDs new_scene)))
    by (intros _; simpl; lia).
  split; [exact H|].
  exact (CreateGLTexture_result sample_decoder next_name next_name_fresh
           new_scene "wood.jpg" "floor" H).
Defined.

Lemma DefineObjectMaterials_four_entries_witness :
  m_objectMaterials new_scene = [] ∧
  ∃ s', DefineObjectMaterials new_scene = Ok (tt, s') ∧
    mtag <$> m_objectMaterials s' = ["clay"; "wood"; "glass"; EmptyString] ∧
    Forall (λ m, mtag m ≠ "cloth") (m_objectMaterials s') ∧
    (∀ out, FindMaterial_scan (m_objectMaterials s') "cloth" out = (false, out)) ∧
    (∀ out, snd (FindMaterial "cloth" out s') = out) ∧
    (∃ glass, m_objectMaterials s' !! 2%nat = Some glass ∧ mtag glass = "glass" ∧
       diffuseColor glass = Holds (glm.Vec3 0.2 0.2 0.2) ∧
       specularColor glass = Holds (glm.Vec3 1.0 1.0 1.0) ∧
       shininess glass = Holds 95.0%R) ∧
    m_objectMaterials s' !! 3%nat = Some OBJECT_MATERIAL_default.
Proof.
  split; [reflexivity|].
  apply (DefineObjectMaterials_four_entries new_scene). reflexivity.
Defined.

Lemma RenderScene_same_every_frame_witness :
  m_pShaderManager new_scene = true ∧
  m_loadedTextures new_scene = 0 ∧
  length (m_textureIDs new_scene) = texture_capacity ∧
  ∃ s1 frame,
    PrepareScene sample_decoder next_name new_scene = Ok (tt, s1) ∧ scene_ok s1 ∧
    (∀ n, render_frames n s1 = Ok (tt, log (concat (replicate n frame)) s1)) ∧
    (∃ floor wall bookcase window vase book desk cat,
       emits RenderFloor floor ∧ emits RenderWall wall ∧
       emits RenderBookcase bookcase ∧ emits RenderWindow window ∧
       emits RenderVase vase ∧ emits RenderBook book ∧
       emits RenderDesk desk ∧ emits RenderCat cat ∧
       frame = floor s1 ++ wall s1 ++ bookcase s1 ++ window s1 ++ vase s1
               ++ book s1 ++ desk s1 ++ cat s1) ∧
    drawn frame = frame_meshes ∧
    length (drawn frame) = 36%nat.
Proof.
  assert (H1 : m_pShaderManager new_scene = true) by reflexivity.
  assert (H2 : m_loadedTextures new_scene = 0) by reflexivity.
  assert (H3 : length (m_textureIDs new_scene) = texture_capacity) by reflexivity.
  repeat (split; [assumption|]).
  exact (RenderScene_same_every_frame sample_decoder next_name next_name_fresh
           new_scene H1 H2 H3).
Defined.

Lemma DestroyGLTextures_regenerates_witness :
  m_loadedTextures sample_scene ≤ Z.of_nat (length (m_textureIDs sample_scene)) ∧
  ∃ s', DestroyGLTextures next_name sample_scene = Ok (tt, s') ∧
    m_loadedTextures s' = m_loadedTextures sample_scene ∧
    length (m_textureIDs s') = length (m_textureIDs sample_scene) ∧
    tag <$> m_textureIDs s' = tag <$> m_textureIDs sample_scene ∧
    gl_objects (gl s') = gl_objects (gl sample_scene) ∧
    gl_bound (gl s') = gl_bound (gl sample_scene) ∧
    gl_names (gl sample_scene) ⊆ gl_names (gl s') ∧
    (∀ i e, registered s' !! i = Some e →
       (ID e ∉ gl_names (gl sample_scene)) ∧ ID e ∈ gl_names (gl s') ∧ ID e ≠ 0) ∧
    NoDup (ID <$> registered s') ∧
    (∀ i, (Z.to_nat (m_loadedTextures sample_scene) ≤ i)%nat →
       m_textureIDs s' !! i = m_textureIDs sample_scene !! i).
Proof.
  assert (H : m_loadedTextures sample_scene
              ≤ Z.of_nat (length (m_textureIDs sample_scene))) by (simpl; lia).
  split; [exact H|].
  exact (DestroyGLTextures_regenerates next_name next_name_fresh sample_scene H).
Defined.

(** ** Instances of the further properties *)

Lemma binder_leaves_other_uniforms_witness :
  ∃ s', SetTextureUVScale 2 3 sample_scene = Ok (tt, s') ∧
    "model"%string ≠ "UVscale"%string ∧
    uniform "model" s' = uniform "model" sample_scene.
Proof.
  pose proof (SetTextureUVScale_attached 2 3 sample_scene eq_refl) as Hrun.
  assert (Hne : "model"%string ≠ "UVscale"%string) by discriminate.
  eexists. split; [exact Hrun|]. split; [exact Hne|].
  exact (proj1 (proj2 (proj2 (proj2
           (binder_leaves_other_uniforms sample_scene _ "model")))) 2%R 3%R Hrun Hne).
Defined.

Lemma shading_mode_last_call_wins_witness :
  m_pShaderManager sample_scene = true ∧
  FindTextureSlot "floor" sample_scene = Ok 1 ∧
  (∃ s', (SetShaderTexture "floor" ≫= λ _, SetShaderColor 1 0 0 1) sample_scene
           = Ok (tt, s') ∧
     uniform "bUseTexture" s' = Some (UInt 0) ∧
     uniform "objectColor" s' = Some (UVec4 (glm.Vec4 1 0 0 1)) ∧
     uniform "objectTexture" s' = Some (USampler2D 1)) ∧
  (∃ s', (SetShaderColor 1 0 0 1 ≫= λ _, SetShaderTexture "floor") sample_scene
           = Ok (tt, s') ∧
     uniform "bUseTexture" s' = Some (UInt 1) ∧
     uniform "objectTexture" s' = Some (USampler2D 1) ∧
     uniform "objectColor" s' = Some (UVec4 (glm.Vec4 1 0 0 1))).
Proof.
  assert (H1 : m_pShaderManager sample_scene = true) by reflexivity.
  assert (H2 : FindTextureSlot "floor" sample_scene = Ok 1) by reflexivity.
  repeat (split; [assumption|]).
  exact (shading_mode_last_call_wins sample_scene "floor" 1 1 0 0 1 H1 H2).
Defined.

Lemma null_shader_manager_witness :
  m_pShaderManager detached_scene = false ∧
  (∀ sc rx ry rz p, SetTransformations sc rx ry rz p detached_scene
                      = Ok (tt, detached_scene)) ∧
  (∀ r g b a, SetShaderColor r g b a detached_scene = Ok (tt, detached_scene)) ∧
  (∀ t, SetShaderTexture t detached_scene = Ok (tt, detached_scene)) ∧
  (∀ u v, SetTextureUVScale u v detached_scene = Ok (tt, detached_scene)) ∧
  (∀ t, m_objectMaterials detached_scene = [] →
        SetShaderMaterial t detached_scene = Ok (tt, detached_scene)) ∧
  (∀ t, m_objectMaterials detached_scene ≠ [] →
        SetShaderMaterial t detached_scene = Undefined) ∧
  SetupSceneLights detached_scene = Undefined.
Proof.
  split; [reflexivity|].
  apply (null_shader_manager detached_scene). reflexivity.
Defined.

Lemma SetShaderMaterial_uploads_first_match_witness :
  m_pShaderManager sample_scene = true ∧
  ∃ s', SetShaderMaterial "wood" sample_scene = Ok (tt, s') ∧
    uniform "material.diffuseColor" s' = Some (UVec3 (Holds (glm.Vec3 0.2 0.2 0.3))) ∧
    uniform "material.specularColor" s' = Some (UVec3 (Holds (glm.Vec3 0.0 0.0 0.0))) ∧
    uniform "material.shininess" s' = Some (UFloat (Holds 0.1%R)).
Proof.
  assert (H1 : m_pShaderManager sample_scene = true) by reflexivity.
  split; [exact H1|].
  destruct (SetShaderMaterial_uploads_first_match sample_scene "wood"
              [_] _ [_; _; _] H1 eq_refl eq_refl)
    as (s' & Hrun & _ & Hd & Hs & Hn).
  - repeat constructor; discriminate.
  - exists s'. repeat split; assumption.
Defined.

Lemma FindTextureSlot_answer_witness :
  m_loadedTextures sample_scene ≤ Z.of_nat (length (m_textureIDs sample_scene)) ∧
  ∃ slot, FindTextureSlot "floor" sample_scene = Ok slot ∧
    (slot = -1 ↔ Forall (λ e, tag e ≠ "floor") (registered sample_scene)) ∧
    (slot ≠ -1 →
       0 ≤ slot < m_loadedTextures sample_scene ∧
       ∃ e, m_textureIDs sample_scene !! Z.to_nat slot = Some e ∧ tag e = "floor" ∧
         ∀ j e', (j < Z.to_nat slot)%nat →
           m_textureIDs sample_scene !! j = Some e' → tag e' ≠ "floor").
Proof.
  assert (H : m_loadedTextures sample_scene
              ≤ Z.of_nat (length (m_textureIDs sample_scene))) by (simpl; lia).
  split; [exact H|].
  exact (FindTextureSlot_answer sample_scene "floor" H).
Defined.

Lemma FindTextureID_matches_slot_witness :
  m_loadedTextures sample_scene ≤ Z.of_nat (length (m_textureIDs sample_scene)) ∧
  FindTextureSlot "floor" sample_scene = Ok 1 ∧
  (1 = -1 → FindTextureID "floor" sample_scene = Ok (-1)) ∧
  (1 ≠ -1 →
     ∃ e, m_textureIDs sample_scene !! Z.to_nat 1 = Some e ∧
       FindTextureID "floor" sample_scene = Ok (int_of_GLuint (ID e)) ∧
       (0 ≤ ID e < 2 ^ 31 → FindTextureID "floor" sample_scene = Ok (ID e)) ∧
       (2 ^ 31 ≤ ID e < 2 ^ 32 → FindTextureID "floor" sample_scene = Ok (ID e - 2 ^ 32)) ∧
       (ID e = 4294967295 → FindTextureID "floor" sample_scene = Ok (-1))).
Proof.
  assert (H1 : m_loadedTextures sample_scene
               ≤ Z.of_nat (length (m_textureIDs sample_scene))) by (simpl; lia).
  assert (H2 : FindTextureSlot "floor" sample_scene = Ok 1) by reflexivity.
  repeat (split; [assumption|]).
  exact (FindTextureID_matches_slot sample_scene "floor" 1 H1 H2).
Defined.

Lemma count_beyond_array_witness :
  Z.of_nat (length (m_textureIDs overrun_scene)) < m_loadedTextures overrun_scene ∧
  BindGLTextures overrun_scene = Undefined ∧
  DestroyGLTextures next_name overrun_scene = Undefined ∧
  (Forall (λ e, tag e ≠ "wall") (m_textureIDs overrun_scene) →
     FindTextureSlot "wall" overrun_scene = Undefined ∧
     FindTextureID "wall" overrun_scene = Undefined).
Proof.
  assert (H : Z.of_nat (length (m_textureIDs overrun_scene))
              < m_loadedTextures overrun_scene) by (simpl; lia).
  split; [exact H|].
  exact (count_beyond_array next_name overrun_scene "wall" H).
Defined.

Lemma CreateGLTexture_then_find_witness :
  0 ≤ m_loadedTextures sample_scene ≤ Z.of_nat (length (m_textureIDs sample_scene)) ∧
  Forall (λ e, tag e ≠ "desk") (registered sample_scene) ∧
  ∃ s', CreateGLTexture sample_decoder next_name "desk.jpg" "desk" sample_scene
          = Ok (true, s') ∧
    FindTextureSlot "desk" s' = Ok (m_loadedTextures sample_scene) ∧
    FindTextureID "desk" s' =
      Ok (int_of_GLuint (next_name (gl_names (gl sample_scene)))).
Proof.
  assert (H1 : 0 ≤ m_loadedTextures sample_scene
               ≤ Z.of_nat (length (m_textureIDs sample_scene))) by (simpl; lia).
  assert (H2 : Forall (λ e, tag e ≠ "desk") (registered sample_scene))
    by (repeat constructor; discriminate).
  assert (Hus : usable sample_decoder "desk.jpg"
                  {| img_width := 1; img_height := 1; img_channels := 3;
                     img_data := [10; 20; 30] |})
    by (split; [reflexivity|left; reflexivity]).
  assert (Hroom : 0 ≤ m_loadedTextures sample_scene
                  < Z.of_nat (length (m_textureIDs sample_scene))) by (simpl; lia).
  pose proof (CreateGLTexture_loaded sample_decoder next_name next_name_fresh "desk.jpg" "desk"
                sample_scene _ Hus Hroom) as Hrun.
  repeat (split; [assumption|]).
  eexists. split; [exact Hrun|].
  exact (CreateGLTexture_then_find sample_decoder next_name next_name_fresh
           sample_scene _ "desk.jpg" "desk" H1 H2 Hrun).
Defined.

Lemma CreateGLTexture_keeps_lookups_witness :
  0 ≤ m_loadedTextures sample_scene ≤ Z.of_nat (length (m_textureIDs sample_scene)) ∧
  ("floor"%string ≠ "floor"%string
   ∨ ¬ Forall (λ e, tag e ≠ "floor") (registered sample_scene)) ∧
  ∃ s', CreateGLTexture sample_decoder next_name "tiles.jpg" "floor" sample_scene
          = Ok (true, s') ∧
    FindTextureSlot "floor" s' = FindTextureSlot "floor" sample_scene ∧
    FindTextureID "floor" s' = FindTextureID "floor" sample_scene.
Proof.
  assert (H1 : 0 ≤ m_loadedTextures sample_scene
               ≤ Z.of_nat (length (m_textureIDs sample_scene))) by (simpl; lia).
  assert (H2 : "floor"%string ≠ "floor"%string
               ∨ ¬ Forall (λ e, tag e ≠ "floor") (registered sample_scene)).
  { right. intros H. apply Forall_cons in H as [_ H].
    apply Forall_cons in H as [H _]. now apply H. }
  assert (Hus : usable sample_decoder "tiles.jpg"
                  {| img_width := 1; img_height := 1; img_channels := 3;
                     img_data := [10; 20; 30] |})
    by (split; [reflexivity|left; reflexivity]).
  assert (Hroom : 0 ≤ m_loadedTextures sample_scene
                  < Z.of_nat (length (m_textureIDs sample_scene))) by (simpl; lia).
  pose proof (CreateGLTexture_loaded sample_decoder next_name next_name_fresh "tiles.jpg" "floor"
                sample_scene _ Hus Hroom) as Hrun.
  repeat (split; [assumption|]).
  eexists. split; [exact Hrun|].
  exact (CreateGLTexture_keeps_lookups sample_decoder next_name next_name_fresh
           sample_scene _ "tiles.jpg" "floor" "floor" true H1 Hrun H2).
Defined.

Lemma CreateGLTexture_unsupported_leaves_texture_witness :
  let image := {| img_width := 1; img_height := 1; img_channels := 1;
                  img_data := [128] |} in
  sample_decoder true "gray.png" = Some image ∧
  img_channels image ≠ 3 ∧ img_channels image ≠ 4 ∧
  ∃ s', CreateGLTexture sample_decoder next_name "gray.png" "gray" new_scene
          = Ok (false, s') ∧
    m_textureIDs s' = m_textureIDs new_scene ∧
    m_loadedTextures s' = m_loadedTextures new_scene ∧
    let id := next_name (gl_names (gl new_scene)) in
    (id ∉ gl_names (gl new_scene)) ∧
    gl_names (gl s') = {[id]} ∪ gl_names (gl new_scene) ∧
    gl_active (gl s') = gl_active (gl new_scene) ∧
    gl_bound (gl s') !! gl_active (gl new_scene) = Some id ∧
    ∃ tex, gl_objects (gl s') !! id = Some tex ∧
      wrap_s tex = GL_REPEAT ∧ wrap_t tex = GL_REPEAT ∧
      min_filter tex = GL_LINEAR ∧ mag_filter tex = GL_LINEAR.
Proof.
  intros image.
  assert (H1 : sample_decoder true "gray.png" = Some image) by reflexivity.
  assert (H2 : img_channels image ≠ 3) by (simpl; lia).
  assert (H3 : img_channels image ≠ 4) by (simpl; lia).
  repeat (split; [assumption|]).
  exact (CreateGLTexture_unsupported_leaves_texture sample_decoder next_name
           next_name_fresh new_scene "gray.png" "gray" image H1 H2 H3).
Defined.

Lemma CreateGLTexture_loaded_frame_witness :
  let image := {| img_width := 1; img_height := 1; img_channels := 3;
                  img_data := [10; 20; 30] |} in
  usable sample_decoder "wood.jpg" image ∧
  0 ≤ m_loadedTextures sample_scene < Z.of_nat (length (m_textureIDs sample_scene)) ∧
  ∃ s', CreateGLTexture sample_decoder next_name "wood.jpg" "desk" sample_scene
          = Ok (true, s') ∧
    let id := next_name (gl_names (gl sample_scene)) in
    (id ∉ gl_names (gl sample_scene)) ∧ id ≠ 0 ∧
    gl_names (gl s') = {[id]} ∪ gl_names (gl sample_scene) ∧
    gl_objects (gl s') !! id = Some (loaded_texture image) ∧
    (∀ x, x ≠ id → gl_objects (gl s') !! x = gl_objects (gl sample_scene) !! x) ∧
    gl_active (gl s') = gl_active (gl sample_scene) ∧
    gl_bound (gl s') !! gl_active (gl sample_scene) = Some 0 ∧
    (∀ u, u ≠ gl_active (gl sample_scene) →
          gl_bound (gl s') !! u = gl_bound (gl sample_scene) !! u) ∧
    (∀ j, j ≠ Z.to_nat (m_loadedTextures sample_scene) →
          m_textureIDs s' !! j = m_textureIDs sample_scene !! j) ∧
    m_pShaderManager s' = m_pShaderManager sample_scene ∧
    m_objectMaterials s' = m_objectMaterials sample_scene ∧
    calls s' = calls sample_scene.
Proof.
  intros image.
  assert (H1 : usable sample_decoder "wood.jpg" image)
    by (split; [reflexivity|left; reflexivity]).
  assert (H2 : 0 ≤ m_loadedTextures sample_scene
               < Z.of_nat (length (m_textureIDs sample_scene))) by (simpl; lia).
  repeat (split; [assumption|]).
  exact (CreateGLTexture_loaded_frame sample_decoder next_name next_name_fresh
           sample_scene "wood.jpg" "desk" image H1 H2).
Defined.

Lemma load_textures_overflow_witness :
  let loads := [("wood.jpg", "desk")]%string in
  Forall (λ l, ∃ image, usable sample_decoder l.1 image) loads ∧
  0 ≤ m_loadedTextures full_scene ≤ Z.of_nat (length (m_textureIDs full_scene)) ∧
  Z.of_nat (length (m_textureIDs full_scene))
    < m_loadedTextures full_scene + Z.of_nat (length loads) ∧
  load_textures sample_decoder next_name loads full_scene = Undefined.
Proof.
  intros loads.
  assert (H1 : Forall (λ l, ∃ image, usable sample_decoder l.1 image) loads)
    by (repeat constructor; eexists; (split; [reflexivity|left; reflexivity])).
  assert (H2 : 0 ≤ m_loadedTextures full_scene
               ≤ Z.of_nat (length (m_textureIDs full_scene))) by (simpl; lia).
  assert (H3 : Z.of_nat (length (m_textureIDs full_scene))
               < m_loadedTextures full_scene + Z.of_nat (length loads))
    by (simpl; lia).
  repeat (split; [assumption|]).
  exact (load_textures_overflow sample_decoder next_name next_name_fresh full_scene loads H1 H2 H3).
Defined.

Lemma BindGLTextures_idempotent_witness :
  m_loadedTextures sample_scene ≤ Z.of_nat (length (m_textureIDs sample_scene)) ∧
  ∃ s', BindGLTextures sample_scene = Ok (tt, s') ∧ BindGLTextures s' = Ok (tt, s').
Proof.
  assert (H : m_loadedTextures sample_scene
              ≤ Z.of_nat (length (m_textureIDs sample_scene))) by (simpl; lia).
  split; [exact H|].
  exact (BindGLTextures_idempotent sample_scene H).
Defined.


Lemma loads_then_bind_witness :
  let loads := [("missing.png", "sky"); ("wood.jpg", "desk");
                ("gray.png", "gray")]%string in
  0 ≤ m_loadedTextures sample_scene ∧
  m_loadedTextures sample_scene + Z.of_nat (length loads)
    ≤ Z.of_nat (length (m_textureIDs sample_scene)) ∧
  accepted sample_decoder loads = [("wood.jpg", "desk")]%string ∧
  ∃ s', (load_textures sample_decoder next_name loads ≫= λ _, BindGLTextures)
          sample_scene = Ok (tt, s') ∧
    tag <$> registered s' =
      (tag <$> registered sample_scene) ++ (accepted sample_decoder loads).*2 ∧
    m_loadedTextures s' =
      m_loadedTextures sample_scene
      + Z.of_nat (length (accepted sample_decoder loads)) ∧
    (∀ i e, registered s' !! i = Some e →
            gl_bound (gl s') !! Z.of_nat i = Some (ID e)) ∧
    m_pShaderManager s' = m_pShaderManager sample_scene ∧
    m_objectMaterials s' = m_objectMaterials sample_scene ∧
    calls s' = calls sample_scene.
Proof.
  intros loads.
  assert (H1 : 0 ≤ m_loadedTextures sample_scene) by (simpl; lia).
  assert (H2 : m_loadedTextures sample_scene + Z.of_nat (length loads)
               ≤ Z.of_nat (length (m_textureIDs sample_scene))) by (simpl; lia).
  assert (H3 : accepted sample_decoder loads = [("wood.jpg", "desk")]%string)
    by reflexivity.
  repeat (split; [assumption|]).
  exact (loads_then_bind sample_decoder next_name next_name_fresh loads
           sample_scene H1 H2).
Defined.

Lemma PrepareScene_completes_witness :
  m_pShaderManager new_scene = true ∧
  m_loadedTextures new_scene = 0 ∧
  length (m_textureIDs new_scene) = texture_capacity ∧
  ∃ s', PrepareScene sample_decoder next_name new_scene = Ok (tt, s') ∧
    tag <$> registered s' = (accepted sample_decoder scene_loads).*2 ∧
    0 ≤ m_loadedTextures s' ≤ 11 ∧
    length (m_textureIDs s') = texture_capacity ∧
    m_objectMaterials s' = m_objectMaterials new_scene ++ materials_defined ∧
    loaded_meshes (calls s') =
      loaded_meshes (calls new_scene)
      ++ [Plane; Sphere; Torus; TaperedCylinder; Box; Cylinder; Prism] ∧
    drawn (calls s') = drawn (calls new_scene) ∧
    uniform "bUseLighting" s' = Some (UBool true).
Proof.
  assert (H1 : m_pShaderManager new_scene = true) by reflexivity.
  assert (H2 : m_loadedTextures new_scene = 0) by reflexivity.
  assert (H3 : length (m_textureIDs new_scene) = texture_capacity) by reflexivity.
  repeat (split; [assumption|]).
  exact (PrepareScene_completes sample_decoder next_name next_name_fresh
           new_scene H1 H2 H3).
Defined.

Lemma RenderVase_uploads_missing_sampler_witness :
  m_pShaderManager new_scene = true ∧
  m_loadedTextures new_scene = 0 ∧
  length (m_textureIDs new_scene) = texture_capacity ∧
  ∃ s1 evs, PrepareScene sample_decoder next_name new_scene = Ok (tt, s1) ∧
    (∀ t, t ∉ scene_loads.*2 → FindTextureSlot t s1 = Ok (-1)) ∧
    FindTextureSlot "tan" s1 = Ok (-1) ∧
    RenderVase s1 = Ok (tt, log evs s1) ∧
    SetUniform "objectTexture" (USampler2D (-1)) ∈ evs.
Proof.
  assert (H1 : m_pShaderManager new_scene = true) by reflexivity.
  assert (H2 : m_loadedTextures new_scene = 0) by reflexivity.
  assert (H3 : length (m_textureIDs new_scene) = texture_capacity) by reflexivity.
  repeat (split; [assumption|]).
  exact (RenderVase_uploads_missing_sampler sample_decoder next_name next_name_fresh
           new_scene H1 H2 H3).
Defined.

Lemma frame_uploads_are_definite_witness :
  m_pShaderManager new_scene = true ∧
  m_loadedTextures new_scene = 0 ∧
  length (m_textureIDs new_scene) = texture_capacity ∧
  m_objectMaterials new_scene = [] ∧
  ∃ s1 s2 evs, PrepareScene sample_decoder next_name new_scene = Ok (tt, s1) ∧
    RenderScene s1 = Ok (tt, s2) ∧
    calls s2 = calls new_scene ++ evs ∧ Forall definite evs.
Proof.
  assert (H1 : m_pShaderManager new_scene = true) by reflexivity.
  assert (H2 : m_loadedTextures new_scene = 0) by reflexivity.
  assert (H3 : length (m_textureIDs new_scene) = texture_capacity) by reflexivity.
  assert (H4 : m_objectMaterials new_scene = []) by reflexivity.
  repeat (split; [assumption|]).
  exact (frame_uploads_are_definite sample_decoder next_name next_name_fresh
           new_scene H1 H2 H3 H4).
Defined.

Lemma SetTransformations_places_witness :
  m_pShaderManager new_scene = true ∧
  ∃ s' model,
    SetTransformations (glm.Vec3 2 3 4) 0 0 0 (glm.Vec3 5 6 7) new_scene
      = Ok (tt, s') ∧
    uniform "model" s' = Some (UMat4 model) ∧
    glm.mulv model (glm.Vec4 0 0 0 1) = glm.Vec4 5 6 7 1 ∧
    (∀ x y z w, glm.w4 (glm.mulv model (glm.Vec4 x y z w)) = w) ∧
    ∀ x y z, glm.mulv model (glm.Vec4 x y z 1) =
               glm.Vec4 (2 * x + 5) (3 * y + 6) (4 * z + 7) 1.
Proof.
  split; [reflexivity|].
  destruct (SetTransformations_places new_scene (glm.Vec3 2 3 4) 0 0 0
              (glm.Vec3 5 6 7) eq_refl) as (s' & model & Hrun & Hu & Ho & Hw & Hp).
  exists s', model. repeat (split; [assumption|]).
  exact (Hp eq_refl eq_refl eq_refl).
Defined.

Lemma scene_without_shader_manager_witness :
  m_pShaderManager detached_scene = false ∧
  m_loadedTextures detached_scene = 0 ∧
  length (m_textureIDs detached_scene) = texture_capacity ∧
  m_objectMaterials detached_scene ≠ [] ∧
  PrepareScene sample_decoder next_name detached_scene = Undefined ∧
  RenderScene detached_scene = Undefined.
Proof.
  assert (H1 : m_pShaderManager detached_scene = false) by reflexivity.
  assert (H2 : m_loadedTextures detached_scene = 0) by reflexivity.
  assert (H3 : length (m_textureIDs detached_scene) = texture_capacity) by reflexivity.
  assert (H4 : m_objectMaterials detached_scene ≠ []) by discriminate.
  repeat (split; [assumption|]).
  destruct (scene_without_shader_manager sample_decoder next_name next_name_fresh
              detached_scene H1) as [Hp Hr].
  split; [exact (Hp H2 H3)|exact (Hr H4)].
Defined.
